(** * Blockchain node synchronisation monitor: verification core

    A shallow embedding of the verification core of the monitoring
    scripts: the cross-node consistency analyzers, the chain integrity
    verifier (confidence score and reorganisation scan), the alert
    manager with its cooldown table, the node health scorer and the
    sync-progress computation of the node status collectors.

    Conventions.
    - Python [int] is [Z]; Python [float] is idealised as an exact
      rational [Q] (every comparison the code makes is kept, rounding is
      not modelled); [Optional[T]] is [option T]; [str] is [string].
    - A Python [dict] that is iterated (the node tables) is an
      association list in insertion order; a [dict] used as a lookup
      table (the alert cooldowns) is a [gmap].
    - Calls to the outside world (JSON-RPC, HTTP references, the clock)
      are inputs of the embedded functions: each function receives the
      answers the world gave. *)

From Stdlib Require Import ZArith QArith Lia Lqa List String Bool.
From stdpp Require Import gmap strings list.
Import ListNotations.

Local Open Scope string_scope.
Local Open Scope Z_scope.

(** ** Python helpers *)

Module Py.

(** [max(xs)] and [min(xs)] on a list of integers; Python raises
    [ValueError] on the empty list, which is [None] here. *)
Definition max (xs : list Z) : option Z :=
  match xs with
  | [] => None
  | x :: rest => Some (fold_left Z.max rest x)
  end.

Definition min (xs : list Z) : option Z :=
  match xs with
  | [] => None
  | x :: rest => Some (fold_left Z.min rest x)
  end.

(** [a > b] and [a < b] on floats. *)
Definition Qgtb (a b : Q) : bool := if Qlt_le_dec b a then true else false.
Definition Qltb (a b : Q) : bool := if Qlt_le_dec a b then true else false.
Definition Qgeb (a b : Q) : bool := if Qlt_le_dec a b then false else true.

(** [min(a, b)] on floats: Python returns the first argument unless
    the second is strictly smaller. *)
Definition Qmin2 (a b : Q) : Q := if Qlt_le_dec b a then b else a.

(** Truthiness of an [Optional[str]]: [None] and the empty string
    are falsy. *)
Definition truthy (s : option string) : bool :=
  match s with
  | Some s => negb (String.eqb s "")
  | None => false
  end.

(** [needle in haystack] on strings. *)
Fixpoint contains (needle haystack : string) : bool :=
  String.prefix needle haystack ||
  match haystack with
  | EmptyString => false
  | String _ rest => contains needle rest
  end.

End Py.

(** ** Consistency analyzer of the comprehensive verifier
    ([bin/blockchain_sync_verification_comprehensive.py]) *)

Module Comprehensive.

Record SyncStatus := mkSyncStatus {
  node_type : string;
  network : string;
  service_status : string;
  sync_status : string;
  sync_progress : Q;
  current_block : Z;
  highest_block : Z;
  peer_count : Z;
  cpu_usage : Q;
  memory_usage : Q;
  disk_usage : Q;
  health_score : Z;
  issues : list string;
  rpc_url : string;
  response_time : Q;
  block_hash : option string;
  chain_id : option Z
}.

(** The text returned by [get_lagging_node_recommendation]; the one
    formatted message keeps the number it prints. *)
Inductive Recommendation :=
| ServiceNotRunning
| LowPeerCount
| HighCpuUsage
| HighMemoryUsage
| NodeIsSyncing (progress : Q)
| NodeUnresponsive
| InvestigateLogs.

Definition get_lagging_node_recommendation (status : SyncStatus) : Recommendation :=
  if negb (String.eqb (service_status status) "active") then ServiceNotRunning
  else if peer_count status <? 5 then LowPeerCount
  else if Py.Qgtb (cpu_usage status) 90 then HighCpuUsage
  else if Py.Qgtb (memory_usage status) 30 then HighMemoryUsage
  else if String.eqb (sync_status status) "syncing" then NodeIsSyncing (sync_progress status)
  else if existsb (Py.contains "Error getting status") (issues status) then NodeUnresponsive
  else InvestigateLogs.

Record Summary := mkSummary {
  sm_network : string;
  total_nodes : nat;
  highest : Z;
  lowest : Z;
  block_difference : Z;
  tolerance_blocks : Z;
  consistent : bool
}.

Record NodeEntry := mkNodeEntry {
  ne_current_block : Z;
  ne_health_score : Z;
  ne_sync_status : string;
  ne_sync_progress : Q;
  ne_peer_count : Z;
  ne_rpc_responsive : bool;
  ne_response_time : Q;
  lagging : bool;
  blocks_behind : Z;
  ne_issues : list string;
  ne_service_status : string;
  ne_block_hash : option string;
  ne_chain_id : option Z;
  recommendation : option Recommendation
}.

Record Reference := mkReference {
  external_block : Z;
  local_max_diff : Z;
  reference_consistent : bool
}.

Inductive ReorgCheck :=
| InsufficientData
| HashComparison (all_equal : bool) (unique_hashes : nat)
                 (node_hashes : list (string * (Z * string))).

Record Report := mkReport {
  summary : Summary;
  nodes : list (string * NodeEntry);
  reference : option Reference;
  reorg_check : option ReorgCheck
}.

(** The function returns either [{"error": msg}] or the report. *)
Inductive Result :=
| Error (msg : string)
| Ok (r : Report).

Definition check_reorganizations (node_statuses : list (string * SyncStatus)) : ReorgCheck :=
  let hash_comparison :=
    omap (fun '(name, s) =>
            match block_hash s with
            | Some h => if Py.truthy (Some h) && (0 <? current_block s)
                        then Some (name, (current_block s, h)) else None
            | None => None
            end) node_statuses in
  if (length hash_comparison <? 2)%nat then InsufficientData
  else
    let hashes := remove_dups (map (fun e => snd (snd e)) hash_comparison) in
    HashComparison (length hashes =? 1)%nat (length hashes) hash_comparison.

Definition node_entry (tolerance max_block : Z) (status : SyncStatus) : NodeEntry :=
  let block_diff_from_max := max_block - current_block status in
  let is_lagging := tolerance <? block_diff_from_max in
  {| ne_current_block := current_block status;
     ne_health_score := health_score status;
     ne_sync_status := sync_status status;
     ne_sync_progress := sync_progress status;
     ne_peer_count := peer_count status;
     ne_rpc_responsive := Py.Qgtb (response_time status) 0;
     ne_response_time := response_time status;
     lagging := is_lagging;
     blocks_behind := block_diff_from_max;
     ne_issues := issues status;
     ne_service_status := service_status status;
     ne_block_hash := block_hash status;
     ne_chain_id := chain_id status;
     recommendation :=
       if is_lagging then Some (get_lagging_node_recommendation status) else None |}.

(** The blocks the range is taken over:
    [[s.current_block for s in node_statuses.values() if s.current_block > 0]]. *)
Definition usable_blocks (node_statuses : list (string * SyncStatus)) : list Z :=
  filter (fun b => 0 < b) (map (fun e => current_block (snd e)) node_statuses).

(** [verify_cross_node_consistency], from the point where every node
    status of the iteration has been collected.  [tolerance] is
    [config.tolerance_blocks]; [reference_block] is the answer of
    [get_reference_block_number]. *)
Definition verify_cross_node_consistency
    (net : string) (tolerance : Z) (reference_block : Z)
    (node_statuses : list (string * SyncStatus)) : Result :=
  match node_statuses with
  | [] => Error "No node status available"
  | _ =>
    let blocks := usable_blocks node_statuses in
    match Py.max blocks, Py.min blocks with
    | Some max_block, Some min_block =>
      let block_diff := max_block - min_block in
      Ok {| summary :=
              {| sm_network := net;
                 total_nodes := length node_statuses;
                 highest := max_block;
                 lowest := min_block;
                 block_difference := block_diff;
                 tolerance_blocks := tolerance;
                 consistent := block_diff <=? tolerance |};
            nodes :=
              map (fun '(name, status) => (name, node_entry tolerance max_block status))
                  node_statuses;
            reference :=
              if 0 <? reference_block then
                Some {| external_block := reference_block;
                        local_max_diff := reference_block - max_block;
                        reference_consistent := reference_block - max_block <=? 10 |}
              else None;
            reorg_check :=
              if (1 <? length (filter (fun e => Py.truthy (block_hash (snd e)))
                                      node_statuses))%nat
              then Some (check_reorganizations node_statuses) else None |}
    | _, _ => Error "No valid block numbers found"
    end
  end.

End Comprehensive.

(** ** The advanced verifier
    ([scripts/monitoring/blockchain_sync_verification_advanced.py]) *)

Module Advanced.

Record NodeInfo := mkNodeInfo {
  name : string;
  client : string;
  version : string;
  service : string;
  status : string;
  uptime_hours : Z;
  sync_progress : option Q;
  current_block : option Z;
  highest_block : option Z;
  rpc_responsive : bool;
  peers : Z;
  memory_mb : Q;
  cpu_usage_percent : Q;
  issues : list string;
  error : option string;
  health_score : Q;
  response_time_ms : Q
}.

(** *** Cross-node consistency *)

Record LaggingNode := mkLaggingNode {
  ln_name : string;
  block_number : Z;
  lag_blocks : Z;
  ln_status : string
}.

Record ConsistencyReport := mkConsistencyReport {
  cr_network : string;
  tolerance : Z;
  max_block : Z;
  min_block : Z;
  block_difference : Z;
  nodes_consistent : bool;
  lagging_nodes : list LaggingNode;
  analysis_status : string
}.

(** Either [{'status': 'error', 'message': msg}] or the report. *)
Inductive Result :=
| Error (message : string)
| Ok (r : ConsistencyReport).

(** The loop that fills [block_numbers] and [node_statuses]: a node
    takes part when its [current_block] is not [None]. *)
Definition collect_block_numbers (nodes : list (string * NodeInfo))
  : list (string * (Z * string)) :=
  omap (fun '(node_name, node) =>
          match current_block node with
          | Some b => Some (node_name, (b, status node))
          | None => None
          end) nodes.

(** [block_numbers.values()]. *)
Definition block_values (nodes : list (string * NodeInfo)) : list Z :=
  map (fun e => fst (snd e)) (collect_block_numbers nodes).

Definition validate_cross_node_consistency
    (nodes : list (string * NodeInfo)) (net : string) (tol : Z) : Result :=
  let block_numbers := collect_block_numbers nodes in
  let values := block_values nodes in
  match Py.max values, Py.min values with
  | Some max_b, Some min_b =>
    let block_diff := max_b - min_b in
    Ok {| cr_network := net;
          tolerance := tol;
          max_block := max_b;
          min_block := min_b;
          block_difference := block_diff;
          nodes_consistent := block_diff <=? tol;
          lagging_nodes :=
            omap (fun '(node_name, (block_num, st)) =>
                    let diff := max_b - block_num in
                    if tol <? diff
                    then Some {| ln_name := node_name;
                                 block_number := block_num;
                                 lag_blocks := diff;
                                 ln_status := st |}
                    else None) block_numbers;
          analysis_status :=
            if block_diff =? 0 then "perfect_consistency"
            else if block_diff <=? tol then "acceptable_consistency"
            else if block_diff <=? 20 then "minor_divergence"
            else "major_divergence" |}
  | _, _ => Error "No block data available"
  end.

(** *** Health score *)

(** [calculate_node_health_score]; [peers_threshold] is the verifier's
    attribute of that name (25 after [__init__]).  The one operation
    that can raise is the division by [peers_threshold], reached when
    [peers < peers_threshold]; [None] is that [ZeroDivisionError]. *)
Definition calculate_node_health_score
    (peers_threshold : Z) (node : NodeInfo) : option Q :=
  let score := 0%Q in
  let score := if String.eqb (status node) "running" then (score + 25)%Q else score in
  let score := if rpc_responsive node then (score + 25)%Q else score in
  let score :=
    match sync_progress node with
    | Some p => if Py.Qgeb p (995 # 10) then (score + 30)%Q
                else (score + (p / 100) * 30)%Q
    | None => score
    end in
  let peer_part :=
    if peers_threshold <=? peers node then Some 10%Q
    else if peers_threshold =? 0 then None
    else Some ((inject_Z (peers node) / inject_Z peers_threshold) * 10)%Q in
  match peer_part with
  | None => None
  | Some pp =>
    let score := (score + pp)%Q in
    let score :=
      if Py.Qgtb (memory_mb node) 0 && Py.Qltb (memory_mb node) 16000
      then (score + 5)%Q else score in
    let score :=
      if Py.Qgtb (cpu_usage_percent node) 0 && Py.Qltb (cpu_usage_percent node) 80
      then (score + 5)%Q else score in
    Some (Py.Qmin2 100 score)
  end.

(** *** Alerts *)

Record AlertConfig := mkAlertConfig {
  max_block_diff : Z;
  min_peer_count : Z;
  max_cpu_usage : Q;
  max_memory_usage : Q;
  sync_stall_timeout : Z;
  alert_cooldown : Z;
  email_recipients : list string;
  slack_webhook_url : string;
  discord_webhook_url : string;
  telegram_bot_token : string;
  telegram_chat_id : string
}.

(** [AlertConfig()] with the defaults of the dataclass. *)
Definition default_alert_config : AlertConfig :=
  {| max_block_diff := 10;
     min_peer_count := 8;
     max_cpu_usage := 90;
     max_memory_usage := 28;
     sync_stall_timeout := 300;
     alert_cooldown := 600;
     email_recipients := [];
     slack_webhook_url := "";
     discord_webhook_url := "";
     telegram_bot_token := "";
     telegram_chat_id := "" |}.

Record Alert := mkAlert {
  alert_id : string;
  alert_timestamp : string;
  alert_type : string;
  alert_message : string;
  alert_severity : string;
  alert_node_name : string;
  alert_hostname : string
}.

(** What [trigger_alert] does to the outside, in program order:
    the row handed to [store_alert], the channels [send_notifications]
    dispatches to, and the final [logger.warning] line. *)
Inductive Effect :=
| StoreAlert (type_ node_name_ severity_ message_ : string)
| EmailNotification (a : Alert)
| SlackNotification (a : Alert)
| DiscordNotification (a : Alert)
| LogWarning (text : string).

(** The part of the verifier object [trigger_alert] reads and writes:
    the cooldown table, and the effects issued so far. *)
Record State := mkState {
  alert_cooldowns : gmap string Q;
  effects : list Effect
}.

(** The values [trigger_alert] draws from its environment:
    [time.time()], [uuid.uuid4()], [datetime.now().isoformat()] and
    [socket.gethostname()]. *)
Record Env := mkEnv {
  current_time : Q;
  fresh_uuid : string;
  now_iso : string;
  hostname : string
}.

Definition alert_key (type_ node_name_ message_ : string) : string :=
  type_ ++ "_" ++ node_name_ ++ "_" ++ message_.

Definition send_notifications (cfg : AlertConfig) (a : Alert) : list Effect :=
  (match email_recipients cfg with [] => [] | _ => [EmailNotification a] end)
  ++ (if String.eqb (slack_webhook_url cfg) "" then [] else [SlackNotification a])
  ++ (if String.eqb (discord_webhook_url cfg) "" then [] else [DiscordNotification a]).

(** The cooldown check at the head of [trigger_alert]: the key is in
    the table and fired less than [alert_cooldown] seconds ago. *)
Definition in_cooldown (cfg : AlertConfig) (now : Q) (key : string)
    (table : gmap string Q) : bool :=
  match table !! key with
  | Some last => Py.Qltb (now - last) (inject_Z (alert_cooldown cfg))
  | None => false
  end.

Definition trigger_alert (cfg : AlertConfig) (env : Env)
    (type_ message_ severity_ node_name_ : string) (st : State) : State :=
  let key := alert_key type_ node_name_ message_ in
  if in_cooldown cfg (current_time env) key (alert_cooldowns st) then st
  else
    let alert := {| alert_id := fresh_uuid env;
                    alert_timestamp := now_iso env;
                    alert_type := type_;
                    alert_message := message_;
                    alert_severity := severity_;
                    alert_node_name := node_name_;
                    alert_hostname := hostname env |} in
    {| alert_cooldowns := <[key := current_time env]> (alert_cooldowns st);
       effects := effects st
                  ++ [StoreAlert type_ node_name_ severity_ message_]
                  ++ send_notifications cfg alert
                  ++ [LogWarning ("ALERT: " ++ type_ ++ " - " ++ message_)] |}.

(** The state after [__init__]: [self.alert_cooldowns = {}]. *)
Definition initial_state : State :=
  {| alert_cooldowns := ∅; effects := [] |}.

(** A run of calls for one alert key, each with its own environment
    and severity. *)
Definition trigger_all (cfg : AlertConfig) (type_ message_ node_name_ : string)
    (attempts : list (Env * string)) (st : State) : State :=
  fold_left (fun s a => trigger_alert cfg (fst a) type_ message_ (snd a) node_name_ s)
            attempts st.

(** The rows handed to [store_alert] so far. *)
Definition is_store (e : Effect) : bool :=
  match e with StoreAlert _ _ _ _ => true | _ => false end.

Definition stored_alerts (st : State) : list Effect :=
  List.filter is_store (effects st).

End Advanced.

(** ** Chain integrity verifier
    ([scripts/monitoring/chain_integrity_verifier.py]) *)

Module Integrity.

(** The issue strings the verifier appends; the formatted ones keep
    the number they print. *)
Inductive Issue :=
| NoReferenceBlock
| NoLocalBlock
| NodeLagging (blocks : Z)
| NodeSignificantlyBehind (blocks : Z)
| BlockHashMismatch (block : Z)
| ChainWorkFailed
| StateRootFailed.

Record ChainIntegrityResult := mkResult {
  node_name : string;
  is_valid : bool;
  block_diff : Z;
  hash_matches : bool;
  reorg_detected : bool;
  reorg_depth : Z;
  chain_work_valid : bool;
  state_root_valid : bool;
  issues : list Issue;
  reference_block : Z;
  local_block : Z;
  confidence_score : Q
}.

(** The block object of an [eth_getBlockByNumber] answer: its fields
    by name. *)
Definition BlockData := list (string * string).

(** The answers of the outside world.
    - [reference_block_number]: what [get_reference_block_number] returns;
    - [local_block_number]: what [get_local_block_number] returns;
    - [local_block_data n]: the [result] object the node gives for
      block [n], [None] when the request fails, is not answered with
      status 200 or carries no object;
    - [reference_block_hash n]: what [get_reference_block_hash] returns
      for block [n]. *)
Record World := mkWorld {
  reference_block_number : Z;
  local_block_number : Z;
  local_block_data : Z -> option BlockData;
  reference_block_hash : Z -> option string
}.

(** [dict.get(key, '')] on a block object. *)
Fixpoint field (key : string) (b : BlockData) : option string :=
  match b with
  | [] => None
  | (k, v) :: rest => if String.eqb k key then Some v else field key rest
  end.

Definition get_block_hash (w : World) (block_number : Z) : option string :=
  match local_block_data w block_number with
  | Some block_data => Some (default "" (field "hash" block_data))
  | None => None
  end.

Definition required_fields : list string :=
  ["hash"; "parentHash"; "number"; "timestamp"; "transactions"].

Definition verify_chain_work (w : World) (block_number : Z) : bool :=
  match local_block_data w block_number with
  | Some block_data =>
      forallb (fun f => match field f block_data with Some _ => true | None => false end)
              required_fields
  | None => false
  end.

Definition validate_state_root (w : World) (block_number : Z) : bool :=
  match local_block_data w block_number with
  | Some block_data =>
      let state_root := default "" (field "stateRoot" block_data) in
      String.prefix "0x" state_root && (String.length state_root =? 66)%nat
  | None => false
  end.

(** In-place updates of the result object. *)
Definition set_hash_matches (b : bool) (r : ChainIntegrityResult) :=
  {| node_name := node_name r; is_valid := is_valid r; block_diff := block_diff r;
     hash_matches := b;
     reorg_detected := reorg_detected r; reorg_depth := reorg_depth r;
     chain_work_valid := chain_work_valid r; state_root_valid := state_root_valid r;
     issues := issues r; reference_block := reference_block r;
     local_block := local_block r; confidence_score := confidence_score r |}.

Definition set_chain_work_valid (b : bool) (r : ChainIntegrityResult) :=
  {| node_name := node_name r; is_valid := is_valid r; block_diff := block_diff r;
     hash_matches := hash_matches r;
     reorg_detected := reorg_detected r; reorg_depth := reorg_depth r;
     chain_work_valid := b; state_root_valid := state_root_valid r;
     issues := issues r; reference_block := reference_block r;
     local_block := local_block r; confidence_score := confidence_score r |}.

Definition set_state_root_valid (b : bool) (r : ChainIntegrityResult) :=
  {| node_name := node_name r; is_valid := is_valid r; block_diff := block_diff r;
     hash_matches := hash_matches r;
     reorg_detected := reorg_detected r; reorg_depth := reorg_depth r;
     chain_work_valid := chain_work_valid r; state_root_valid := b;
     issues := issues r; reference_block := reference_block r;
     local_block := local_block r; confidence_score := confidence_score r |}.

Definition set_reorg (detected : bool) (depth : Z) (r : ChainIntegrityResult) :=
  {| node_name := node_name r; is_valid := is_valid r; block_diff := block_diff r;
     hash_matches := hash_matches r;
     reorg_detected := detected; reorg_depth := depth;
     chain_work_valid := chain_work_valid r; state_root_valid := state_root_valid r;
     issues := issues r; reference_block := reference_block r;
     local_block := local_block r; confidence_score := confidence_score r |}.

(** [result.issues.append(issue); result.confidence_score -= penalty]. *)
Definition penalise (issue : Issue) (penalty : Q) (r : ChainIntegrityResult) :=
  {| node_name := node_name r; is_valid := is_valid r; block_diff := block_diff r;
     hash_matches := hash_matches r;
     reorg_detected := reorg_detected r; reorg_depth := reorg_depth r;
     chain_work_valid := chain_work_valid r; state_root_valid := state_root_valid r;
     issues := issues r ++ [issue]; reference_block := reference_block r;
     local_block := local_block r;
     confidence_score := (confidence_score r - penalty)%Q |}.

(** The three steps of [perform_comprehensive_integrity_checks]. *)
Definition check_block_hash (w : World) (local_blk : Z) (result : ChainIntegrityResult) :=
  let local_hash := get_block_hash w local_blk in
  let reference_hash := reference_block_hash w local_blk in
  if Py.truthy local_hash && Py.truthy reference_hash then
    let result := set_hash_matches (bool_decide (local_hash = reference_hash)) result in
    if negb (hash_matches result)
    then penalise (BlockHashMismatch local_blk) 20 result
    else result
  else result.

Definition check_chain_work (w : World) (local_blk : Z) (result : ChainIntegrityResult) :=
  let result := set_chain_work_valid (verify_chain_work w local_blk) result in
  if negb (chain_work_valid result) then penalise ChainWorkFailed 15 result else result.

Definition check_state_root (w : World) (local_blk : Z) (result : ChainIntegrityResult) :=
  if 0 <? local_blk then
    let result := set_state_root_valid (validate_state_root w local_blk) result in
    if negb (state_root_valid result) then penalise StateRootFailed 10 result else result
  else result.

Definition perform_comprehensive_integrity_checks
    (w : World) (result : ChainIntegrityResult) (local_blk : Z) : ChainIntegrityResult :=
  check_state_root w local_blk
    (check_chain_work w local_blk
       (check_block_hash w local_blk result)).

(** [range(a, b)]. *)
Definition py_range (a b : Z) : list Z := seqZ a (b - a).

Definition max_check_depth : Z := 10.

(** The body of the [for] loop of [detect_reorganizations] over the
    depths still to visit: [continue] moves to the next depth,
    [break] leaves with [reorg_depth = i], running off the end leaves
    [reorg_depth] at its initial 0. *)
Fixpoint scan_depths (w : World) (current_block : Z) (depths : list Z) : Z :=
  match depths with
  | [] => 0
  | i :: rest =>
    let check_block := current_block - i in
    let local_hash := get_block_hash w check_block in
    if negb (Py.truthy local_hash) then scan_depths w current_block rest
    else
      let reference_hash := reference_block_hash w check_block in
      if negb (Py.truthy reference_hash) then scan_depths w current_block rest
      else if negb (bool_decide (local_hash = reference_hash)) then i
      else scan_depths w current_block rest
  end.

Definition detect_reorganizations (w : World) (current_block : Z) : bool * Z :=
  let reorg_depth :=
    scan_depths w current_block (py_range 1 (Z.min max_check_depth current_block)) in
  (0 <? reorg_depth, reorg_depth).

Definition deep_level (verification_level : string) : bool :=
  String.eqb verification_level "comprehensive" || String.eqb verification_level "forensic".

Definition initial_result (name : string) : ChainIntegrityResult :=
  {| node_name := name; is_valid := false; block_diff := 0; hash_matches := false;
     reorg_detected := false; reorg_depth := 0; chain_work_valid := true;
     state_root_valid := true; issues := []; reference_block := 0; local_block := 0;
     confidence_score := 0 |}.

Definition set_reference_block (n : Z) (r : ChainIntegrityResult) :=
  {| node_name := node_name r; is_valid := is_valid r; block_diff := block_diff r;
     hash_matches := hash_matches r;
     reorg_detected := reorg_detected r; reorg_depth := reorg_depth r;
     chain_work_valid := chain_work_valid r; state_root_valid := state_root_valid r;
     issues := issues r; reference_block := n;
     local_block := local_block r; confidence_score := confidence_score r |}.

Definition set_local_block (n : Z) (r : ChainIntegrityResult) :=
  {| node_name := node_name r; is_valid := is_valid r; block_diff := block_diff r;
     hash_matches := hash_matches r;
     reorg_detected := reorg_detected r; reorg_depth := reorg_depth r;
     chain_work_valid := chain_work_valid r; state_root_valid := state_root_valid r;
     issues := issues r; reference_block := reference_block r;
     local_block := n; confidence_score := confidence_score r |}.

Definition set_block_diff (n : Z) (r : ChainIntegrityResult) :=
  {| node_name := node_name r; is_valid := is_valid r; block_diff := n;
     hash_matches := hash_matches r;
     reorg_detected := reorg_detected r; reorg_depth := reorg_depth r;
     chain_work_valid := chain_work_valid r; state_root_valid := state_root_valid r;
     issues := issues r; reference_block := reference_block r;
     local_block := local_block r; confidence_score := confidence_score r |}.

Definition add_issue (issue : Issue) (r : ChainIntegrityResult) :=
  {| node_name := node_name r; is_valid := is_valid r; block_diff := block_diff r;
     hash_matches := hash_matches r;
     reorg_detected := reorg_detected r; reorg_depth := reorg_depth r;
     chain_work_valid := chain_work_valid r; state_root_valid := state_root_valid r;
     issues := issues r ++ [issue]; reference_block := reference_block r;
     local_block := local_block r; confidence_score := confidence_score r |}.

(** [result.is_valid = v; result.confidence_score = c]. *)
Definition set_verdict (v : bool) (c : Q) (r : ChainIntegrityResult) :=
  {| node_name := node_name r; is_valid := v; block_diff := block_diff r;
     hash_matches := hash_matches r;
     reorg_detected := reorg_detected r; reorg_depth := reorg_depth r;
     chain_work_valid := chain_work_valid r; state_root_valid := state_root_valid r;
     issues := issues r; reference_block := reference_block r;
     local_block := local_block r; confidence_score := c |}.

(** "Validate based on block difference": validity, the confidence
    the checks start from, and the issue added. *)
Definition grade (result : ChainIntegrityResult) : ChainIntegrityResult :=
  if block_diff result <=? 5 then set_verdict true 100 result
  else if block_diff result <=? 20
  then add_issue (NodeLagging (block_diff result)) (set_verdict true 80 result)
  else add_issue (NodeSignificantlyBehind (block_diff result)) (set_verdict false 0 result).

Definition verify_chain_integrity
    (w : World) (name : string) (verification_level : string) : ChainIntegrityResult :=
  let result := initial_result name in
  let reference_blk := reference_block_number w in
  let result := set_reference_block reference_blk result in
  if reference_blk =? 0 then add_issue NoReferenceBlock result
  else
    let local_blk := local_block_number w in
    let result := set_local_block local_blk result in
    if local_blk =? 0 then add_issue NoLocalBlock result
    else
      let result := set_block_diff (reference_blk - local_blk) result in
      let result := grade result in
      let result :=
        if deep_level verification_level
        then perform_comprehensive_integrity_checks w result local_blk
        else result in
      if deep_level verification_level then
        let '(detected, depth) := detect_reorganizations w local_blk in
        set_reorg detected depth result
      else result.

(** *** Notions used to state the properties *)

(** The depths the loop of [detect_reorganizations] visits, in order. *)
Definition window (current_block : Z) : list Z :=
  py_range 1 (Z.min max_check_depth current_block).

(** At depth [i] both hashes were obtained and they differ. *)
Definition mismatch_at (w : World) (current_block i : Z) : bool :=
  Py.truthy (get_block_hash w (current_block - i))
  && Py.truthy (reference_block_hash w (current_block - i))
  && negb (bool_decide (get_block_hash w (current_block - i)
                        = reference_block_hash w (current_block - i))).

(** The confidence the block difference gives before any check. *)
Definition starting_confidence (diff : Z) : Q :=
  if diff <=? 5 then 100 else if diff <=? 20 then 80 else 0.

(** The penalties of the three checks at block [blk]. *)
Definition hash_penalty (w : World) (blk : Z) : Q :=
  if mismatch_at w blk 0 then 20 else 0.
Definition chain_work_penalty (w : World) (blk : Z) : Q :=
  if verify_chain_work w blk then 0 else 15.
Definition state_root_penalty (w : World) (blk : Z) : Q :=
  if (0 <? blk) && negb (validate_state_root w blk) then 10 else 0.

End Integrity.


(** ** JSON-RPC answers *)

Module Rpc.

(** A decoded JSON value, as far as the collectors look at it.  A
    string carries what [int(text, 16)] makes of it ([None] when that
    call raises); [VOther] is any remaining truthy value (a number,
    [true], a non-empty array). *)
Local Unset Elimination Schemes.
Inductive value :=
| VFalse
| VNull
| VString (text : string) (as_int16 : option Z)
| VObject (fields : list (string * value))
| VOther.
Local Set Elimination Schemes.

Definition hex0 : value := VString "0x0" (Some 0).

(** Python truthiness. *)
Definition truthy (v : value) : bool :=
  match v with
  | VFalse | VNull => false
  | VString text _ => negb (String.eqb text "")
  | VObject [] => false
  | VObject (_ :: _) => true
  | VOther => true
  end.

(** [v is False] and [v == False]. *)
Definition is_false (v : value) : bool :=
  match v with VFalse => true | _ => false end.

Fixpoint lookup (key : string) (fields : list (string * value)) : option value :=
  match fields with
  | [] => None
  | (k, v) :: rest => if String.eqb k key then Some v else lookup key rest
  end.

(** [v.get(key, default)]: [None] is the [AttributeError] raised
    when [v] is not an object. *)
Definition get (v : value) (key : string) (default : value) : option value :=
  match v with
  | VObject fields => Some (from_option id default (lookup key fields))
  | _ => None
  end.

(** [int(v, 16)]: [None] is the [TypeError] or [ValueError]. *)
Definition int16 (v : value) : option Z :=
  match v with
  | VString _ n => n
  | _ => None
  end.

(** An HTTP exchange: it raises ([Failed]: no connection, timeout,
    undecodable body) or gives a status and the decoded body. *)
Inductive http :=
| Failed
| Answer (status : Z) (body : value).

End Rpc.

(** ** Node status collector of the basic verifier
    ([scripts/monitoring/blockchain_sync_verification.py]) *)

Module Basic.

Record NodeInfo := mkNodeInfo {
  name : string;
  client : string;
  service : string;
  status : string;
  uptime_hours : Z;
  sync_progress : option Q;
  current_block : option Z;
  highest_block : option Z;
  rpc_responsive : bool;
  peers : Z;
  memory_mb : Q;
  cpu_usage_percent : Q;
  issues : list string;
  error : option string
}.

(** The sync fields written by the RPC block of [_verify_single_node]. *)
Definition set_sync (progress : option Q) (cur high : option Z) (n : NodeInfo) :=
  {| name := name n; client := client n; service := service n; status := status n;
     uptime_hours := uptime_hours n;
     sync_progress := progress; current_block := cur; highest_block := high;
     rpc_responsive := rpc_responsive n; peers := peers n; memory_mb := memory_mb n;
     cpu_usage_percent := cpu_usage_percent n; issues := issues n; error := error n |}.

Definition set_rpc (responsive : bool) (err : option string) (n : NodeInfo) :=
  {| name := name n; client := client n; service := service n; status := status n;
     uptime_hours := uptime_hours n;
     sync_progress := sync_progress n; current_block := current_block n;
     highest_block := highest_block n;
     rpc_responsive := responsive; peers := peers n; memory_mb := memory_mb n;
     cpu_usage_percent := cpu_usage_percent n; issues := issues n; error := err |}.

(** What [subprocess.run(['curl', ...])] gave: it raised, or it
    returned with an exit code, the decoded standard output ([None]
    when [json.loads] rejects it) and the standard error. *)
Inductive curl :=
| Raised (err : string)
| Exited (returncode : Z) (stdout : option Rpc.value) (stderr : string).

(** The inner [try] block, lines 149-158; [None] is an exception
    reaching [except Exception].  In the branch [sync_data == False]
    the code assigns 100.0 and then calls [.get] on that same
    [False]. *)
Definition read_sync_answer (stdout : option Rpc.value) (n : NodeInfo) : option NodeInfo :=
  data ← stdout;
  sync_data ← Rpc.get data "result" (Rpc.VObject []);
  if Rpc.is_false sync_data then
    let n := set_sync (Some 100%Q) (current_block n) (highest_block n) n in
    r ← Rpc.get data "result" (Rpc.VObject []);
    c ← Rpc.get r "currentBlock" Rpc.hex0;
    cur ← Rpc.int16 c;
    h ← Rpc.get r "highestBlock" Rpc.hex0;
    high ← Rpc.int16 h;
    Some (set_sync (sync_progress n) (Some cur) (Some high) n)
  else
    c ← Rpc.get sync_data "currentBlock" Rpc.hex0;
    cur ← Rpc.int16 c;
    h ← Rpc.get sync_data "highestBlock" Rpc.hex0;
    high ← Rpc.int16 h;
    Some (set_sync
            (Some (if 0 <? high then (inject_Z cur / inject_Z high * 100)%Q else 100%Q))
            (Some cur) (Some high) n).

(** The "RPC connectivity check" of [_verify_single_node]. *)
Definition rpc_connectivity_check (answer : curl) (n : NodeInfo) : NodeInfo :=
  match answer with
  | Raised err => set_rpc false (Some err) n
  | Exited returncode stdout stderr =>
    if returncode =? 0 then
      let n := set_rpc true (error n) n in
      match read_sync_answer stdout n with
      | Some n' => n'
      | None => set_sync (Some 0%Q) (Some 0) (Some 0) (set_rpc true (error n) n)
      end
    else
      set_rpc false
        (Some (if String.eqb stderr "" then "RPC timeout" else String.substring 0 200 stderr))
        n
  end.


End Basic.

(** ** Node status collector of the comprehensive verifier *)

Module Collector.

Import Comprehensive.

(** The dictionary [get_rpc_sync_data] builds. *)
Record SyncData := mkSyncData {
  sd_sync_status : string;
  sd_current_block : Z;
  sd_highest_block : Z;
  sd_peer_count : option Z;
  sd_chain_id : option Z;
  sd_block_hash : option string
}.

(** The answers of one node during one probe. *)
Record Node := mkNode {
  session_open : bool;
  service_state : string;
  rpc_endpoint : option string;
  eth_syncing : Rpc.http;
  eth_blockNumber : Rpc.http;
  net_peerCount : Rpc.http;
  eth_chainId : Rpc.http;
  latest_block : Rpc.http
}.

(** [async with session.post(...) as response]: raises on [Failed]. *)
Definition post (r : Rpc.http) : option (Z * Rpc.value) :=
  match r with
  | Rpc.Failed => None
  | Rpc.Answer status body => Some (status, body)
  end.

Definition text_of (v : Rpc.value) : option string :=
  match v with
  | Rpc.VString s _ => Some s
  | _ => None
  end.

(** The body of the [try] of [get_rpc_sync_data]; the outer [option]
    is the exception, the inner one the early [return None]. *)
Definition rpc_sync_data_body (n : Node) : option (option SyncData) :=
  '(status, data) ← post (eth_syncing n);
  if negb (status =? 200) then Some None
  else
    sync_result ← Rpc.get data "result" Rpc.VFalse;
    let sync_status :=
      if Rpc.is_false sync_result then "fully_synced" else "syncing" in
    '(cur, high) ←
      (if Rpc.truthy sync_result && negb (Rpc.is_false sync_result) then
         c ← Rpc.get sync_result "currentBlock" Rpc.hex0;
         cur ← Rpc.int16 c;
         h ← Rpc.get sync_result "highestBlock" Rpc.hex0;
         high ← Rpc.int16 h;
         Some (cur, high)
       else
         '(bstatus, block_data) ← post (eth_blockNumber n);
         if bstatus =? 200 then
           b ← Rpc.get block_data "result" Rpc.hex0;
           cur ← Rpc.int16 b;
           Some (cur, cur)
         else Some (0, 0));
    '(pstatus, peer_data) ← post (net_peerCount n);
    peer_count ←
      (if pstatus =? 200 then
         p ← Rpc.get peer_data "result" Rpc.hex0; Rpc.int16 p
       else Some 0);
    '(cstatus, chain_data) ← post (eth_chainId n);
    chain ←
      (if cstatus =? 200 then
         c ← Rpc.get chain_data "result" Rpc.hex0;
         id ← Rpc.int16 c; Some (Some id)
       else Some None);
    hash ←
      (if String.eqb sync_status "fully_synced" then
         '(hstatus, hash_data) ← post (latest_block n);
         if hstatus =? 200 then
           result ← Rpc.get hash_data "result" (Rpc.VObject []);
           h ← Rpc.get result "hash" Rpc.VNull;
           Some (text_of h)
         else Some None
       else Some None);
    Some (Some {| sd_sync_status := sync_status;
                  sd_current_block := cur;
                  sd_highest_block := high;
                  sd_peer_count := Some peer_count;
                  sd_chain_id := chain;
                  sd_block_hash := hash |}).

Definition get_rpc_sync_data (n : Node) : option SyncData :=
  if negb (session_open n) then None
  else match rpc_sync_data_body n with
       | Some r => r
       | None => None
       end.

(** The status object [get_node_sync_status] starts from. *)
Definition initial_status (type_ net : string) (url : string) : SyncStatus :=
  {| node_type := type_; network := net; service_status := "unknown";
     sync_status := "unknown"; sync_progress := 0; current_block := 0;
     highest_block := 0; peer_count := 0; cpu_usage := 0; memory_usage := 0;
     disk_usage := 0; health_score := 0; issues := []; rpc_url := url;
     response_time := 0; block_hash := None; chain_id := None |}.

(** [get_node_sync_status] up to and including the computation of
    [sync_progress] (line 218).  The statements after it (system
    metrics, health score, response time) do not assign
    [sync_status], [highest_block] or [sync_progress]. *)
Definition get_node_sync_status (type_ net : string) (n : Node) : SyncStatus :=
  let status := initial_status type_ net (default "" (rpc_endpoint n)) in
  let with_service (issue : list string) :=
    {| node_type := type_; network := net; service_status := service_state n;
       sync_status := "unknown"; sync_progress := 0; current_block := 0;
       highest_block := 0; peer_count := 0; cpu_usage := 0; memory_usage := 0;
       disk_usage := 0; health_score := 0; issues := issue; rpc_url := rpc_url status;
       response_time := 0; block_hash := None; chain_id := None |} in
  if negb (String.eqb (service_state n) "active") then
    with_service ["Service not running: " ++ service_state n]
  else
    match rpc_endpoint n with
    | None => with_service ["No RPC endpoint configured"]
    | Some url =>
      if String.eqb url "" then with_service ["No RPC endpoint configured"]
      else
        match get_rpc_sync_data n with
        | None => with_service []
        | Some sd =>
          let cur := sd_current_block sd in
          let high := sd_highest_block sd in
          {| node_type := type_; network := net; service_status := service_state n;
             sync_status := sd_sync_status sd;
             sync_progress :=
               if 0 <? high
               then Py.Qmin2 100 (inject_Z cur / inject_Z high * 100)%Q
               else 0%Q;
             current_block := cur;
             highest_block := high;
             peer_count := default 0 (sd_peer_count sd);
             cpu_usage := 0; memory_usage := 0; disk_usage := 0; health_score := 0;
             issues := []; rpc_url := url; response_time := 0;
             block_hash := sd_block_hash sd;
             chain_id := sd_chain_id sd |}
        end
    end.

End Collector.

(** ** Concrete inputs used by the examples below *)

Module Scenarios.

(** A healthy node of the comprehensive verifier at a given height. *)
Definition status_at (type_ : string) (block : Z) : Comprehensive.SyncStatus :=
  {| Comprehensive.node_type := type_;
     Comprehensive.network := "mainnet";
     Comprehensive.service_status := "active";
     Comprehensive.sync_status := "fully_synced";
     Comprehensive.sync_progress := 100;
     Comprehensive.current_block := block;
     Comprehensive.highest_block := block;
     Comprehensive.peer_count := 30;
     Comprehensive.cpu_usage := 10;
     Comprehensive.memory_usage := 4;
     Comprehensive.disk_usage := 100;
     Comprehensive.health_score := 100;
     Comprehensive.issues := [];
     Comprehensive.rpc_url := "http://127.0.0.1:8545";
     Comprehensive.response_time := 1 # 10;
     Comprehensive.block_hash := None;
     Comprehensive.chain_id := Some 1 |}.

(** Nodes A (block 100) and B (block 105). *)
Definition two_nodes : list (string * Comprehensive.SyncStatus) :=
  [("geth", status_at "geth" 100); ("erigon", status_at "erigon" 105)].

(** A running, responsive node of the advanced verifier. *)
Definition node_at (name_ : string) (block : option Z) (peers_ : Z) (memory cpu : Q)
  : Advanced.NodeInfo :=
  {| Advanced.name := name_;
     Advanced.client := "geth";
     Advanced.version := "";
     Advanced.service := "geth.service";
     Advanced.status := "running";
     Advanced.uptime_hours := 0;
     Advanced.sync_progress := Some 100%Q;
     Advanced.current_block := block;
     Advanced.highest_block := None;
     Advanced.rpc_responsive := true;
     Advanced.peers := peers_;
     Advanced.memory_mb := memory;
     Advanced.cpu_usage_percent := cpu;
     Advanced.issues := [];
     Advanced.error := None;
     Advanced.health_score := 0;
     Advanced.response_time_ms := 12 |}.

Definition two_infos : list (string * Advanced.NodeInfo) :=
  [("Geth", node_at "Geth" (Some 100) 30 4000 10);
   ("Erigon", node_at "Erigon" (Some 105) 30 4000 10)].



(** A [NodeInfo] that has only its required fields set, every other
    field at the default of the dataclass. *)
Definition bare_info (name_ client_ service_ : string) : Advanced.NodeInfo :=
  {| Advanced.name := name_; Advanced.client := client_; Advanced.version := "";
     Advanced.service := service_; Advanced.status := "unknown";
     Advanced.uptime_hours := 0; Advanced.sync_progress := None;
     Advanced.current_block := None; Advanced.highest_block := None;
     Advanced.rpc_responsive := false; Advanced.peers := 0;
     Advanced.memory_mb := 0; Advanced.cpu_usage_percent := 0;
     Advanced.issues := []; Advanced.error := None;
     Advanced.health_score := 0; Advanced.response_time_ms := 0 |}.

(** Two nodes that answered the RPC but report block 0. *)
Definition zero_infos : list (string * Advanced.NodeInfo) :=
  [("Geth", node_at "Geth" (Some 0) 30 4000 10);
   ("Erigon", node_at "Erigon" (Some 0) 30 4000 10)].

(** A node 100 blocks behind the reference whose block answer lacks
    the structural fields and the state root, and whose hash differs
    from the reference hash. *)
Definition far_behind : Integrity.World :=
  {| Integrity.reference_block_number := 1000;
     Integrity.local_block_number := 900;
     Integrity.local_block_data := fun _ => Some [("hash", "0xaaa")];
     Integrity.reference_block_hash := fun _ => Some "0xbbb" |}.

Definition good_block (hash : string) : Integrity.BlockData :=
  [("hash", hash); ("parentHash", "0x00"); ("number", "0x1"); ("timestamp", "0x2");
   ("transactions", "[]");
   ("stateRoot", "0x0000000000000000000000000000000000000000000000000000000000000000")].

(** A node two blocks behind the reference; local and reference
    hashes agree everywhere except at height [fork]; the reference
    has no hash for height [gap]. *)
Definition forked (fork gap : Z) : Integrity.World :=
  {| Integrity.reference_block_number := 1002;
     Integrity.local_block_number := 1000;
     Integrity.local_block_data :=
       fun n => Some (good_block (if n =? fork then "0xlocal" else "0xsame"));
     Integrity.reference_block_hash :=
       fun n => if n =? gap then None else Some "0xsame" |}.

(** The environment of a call made [t] seconds into the session. *)
Definition env_at (t : Q) : Advanced.Env :=
  {| Advanced.current_time := t;
     Advanced.fresh_uuid := "00000000-0000-4000-8000-000000000000";
     Advanced.now_iso := "2025-01-01T00:00:00";
     Advanced.hostname := "monitor" |}.

(** A JSON-RPC answer [{"result": v}] with status 200. *)
Definition answer (v : Rpc.value) : Rpc.http :=
  Rpc.Answer 200 (Rpc.VObject [("result", v)]).





End Scenarios.


(** * Further functions of the verifiers *)

(** ** Reference lookups and their cache
    ([get_reference_block_number], [get_reference_block_hash]) *)

Module ReferenceCache.

(** [self.cache].  The one dictionary holds two kinds of entries, under
    the keys ["reference_block_<network>"] and
    ["block_hash_<network>_<number>"]; the two families of keys are kept
    apart here, each entry with the [timestamp] it was stored at. *)
Record Cache := mkCache {
  numbers : gmap string (Z * Q);
  hashes : gmap (string * Z) (string * Q)
}.

Definition empty_cache : Cache := {| numbers := ∅; hashes := ∅ |}.

(** [self.cache_timeout = 300]. *)
Definition cache_timeout : Q := 300.

(** What a call of one source function gave. *)
Inductive outcome :=
| Raised
| Returned (block_number : Z).

(** The [for source_func in sources] loop: the first source that
    returns a positive number ends it; a source that raises or returns
    0 is passed over. *)
Fixpoint first_positive (sources : list outcome) : option Z :=
  match sources with
  | [] => None
  | Raised :: rest => first_positive rest
  | Returned n :: rest => if 0 <? n then Some n else first_positive rest
  end.

(** [get_infura_block] is a placeholder that returns 0. *)
Definition get_infura_block : outcome := Returned 0.

(** [get_reference_block_number]: [now] is the clock read by the cache
    check, [stamp] the clock read when a result is stored, [etherscan]
    and [beaconchain] what these two sources give when called. *)
Definition get_reference_block_number
    (now stamp : Q) (etherscan beaconchain : outcome) (net : string) (c : Cache)
  : Z * Cache :=
  let fresh :=
    match first_positive [etherscan; beaconchain; get_infura_block] with
    | Some n => (n, {| numbers := <[net := (n, stamp)]> (numbers c);
                       hashes := hashes c |})
    | None => (0, c)
    end in
  match numbers c !! net with
  | Some (n, ts) => if Py.Qltb (now - ts) cache_timeout then (n, c) else fresh
  | None => fresh
  end.

(** [get_reference_block_hash]: [answer] is the [hash] field of the
    provider's block, [None] when the request fails, is not answered
    with status 200 and [status == '1'], or raises. *)
Definition get_reference_block_hash
    (now stamp : Q) (answer : option string) (net : string) (block_number : Z)
    (c : Cache) : option string * Cache :=
  let fresh :=
    match answer with
    | Some block_hash =>
        if Py.truthy (Some block_hash)
        then (Some block_hash,
              {| numbers := numbers c;
                 hashes := <[(net, block_number) := (block_hash, stamp)]> (hashes c) |})
        else (None, c)
    | None => (None, c)
    end in
  match hashes c !! (net, block_number) with
  | Some (h, ts) => if Py.Qltb (now - ts) cache_timeout then (Some h, c) else fresh
  | None => fresh
  end.

(** *** Notions used to state the properties *)

(** A lookup that does not find a live entry for the key. *)
Definition number_miss (now : Q) (net : string) (c : Cache) : Prop :=
  match numbers c !! net with
  | Some (_, ts) => (cache_timeout <= now - ts)%Q
  | None => True
  end.

Definition hash_miss (now : Q) (net : string) (block_number : Z) (c : Cache) : Prop :=
  match hashes c !! (net, block_number) with
  | Some (_, ts) => (cache_timeout <= now - ts)%Q
  | None => True
  end.

(** Every cached hash is a non-empty string. *)
Definition nonempty_hashes (c : Cache) : Prop :=
  forall key h ts, hashes c !! key = Some (h, ts) -> h <> "".

End ReferenceCache.

(** ** The integrity report ([generate_integrity_report]) *)

Module IntegrityReport.

Import Integrity.

Inductive Recommendation :=
| MonitorNetworkStability
| InvestigateSynchronization
| NodesFailedVerification (count : nat).

Record NodeData := mkNodeData {
  nd_name : string;
  nd_is_valid : bool;
  nd_confidence_score : Q;
  nd_block_difference : Z;
  nd_local_block : Z;
  nd_reference_block : Z;
  nd_hash_matches : bool;
  nd_reorg_detected : bool;
  nd_reorg_depth : Z;
  nd_issues : list Issue
}.

Record Report := mkReport {
  total_nodes : nat;
  valid_nodes : nat;
  invalid_nodes : nat;
  validity_percentage : Q;
  reorganizations_detected : bool;
  average_confidence_score : Q;
  nodes : list NodeData;
  report_issues : list Issue;
  recommendations : list Recommendation
}.

(** [sum(xs)] on floats. *)
Definition Qsum (xs : list Q) : Q := fold_left Qplus xs 0%Q.

Definition of_nat (n : nat) : Q := inject_Z (Z.of_nat n).

Definition node_data (r : ChainIntegrityResult) : NodeData :=
  {| nd_name := node_name r;
     nd_is_valid := is_valid r;
     nd_confidence_score := confidence_score r;
     nd_block_difference := block_diff r;
     nd_local_block := local_block r;
     nd_reference_block := reference_block r;
     nd_hash_matches := hash_matches r;
     nd_reorg_detected := reorg_detected r;
     nd_reorg_depth := reorg_depth r;
     nd_issues := issues r |}.

Definition generate_integrity_report (results : list ChainIntegrityResult) : Report :=
  let total := length results in
  let valid := length (List.filter is_valid results) in
  let reorg := existsb reorg_detected results in
  let avg_confidence :=
    if (0 <? total)%nat
    then (Qsum (map confidence_score results) / of_nat total)%Q
    else 0%Q in
  let invalid := List.filter (fun r => negb (is_valid r)) results in
  {| total_nodes := total;
     valid_nodes := valid;
     invalid_nodes := (total - valid)%nat;
     validity_percentage :=
       if (0 <? total)%nat then (of_nat valid / of_nat total * 100)%Q else 0%Q;
     reorganizations_detected := reorg;
     average_confidence_score := avg_confidence;
     nodes := map node_data results;
     report_issues := concat (map issues results);
     recommendations :=
       (if reorg then [MonitorNetworkStability] else [])
       ++ (if Py.Qltb avg_confidence 80 then [InvestigateSynchronization] else [])
       ++ (match invalid with
           | [] => []
           | _ => [NodesFailedVerification (length invalid)]
           end) |}.

(** [verify_multiple_nodes]: each node is verified against its own
    answers. *)
Definition verify_multiple_nodes
    (nodes_ : list (string * World)) (verification_level : string)
  : list ChainIntegrityResult :=
  map (fun '(name, w) => verify_chain_integrity w name verification_level) nodes_.

(** *** Notions used to state the properties *)

(** What an issue costs on the confidence scale that starts at 100. *)
Definition issue_cost (i : Issue) : Q :=
  match i with
  | NoReferenceBlock | NoLocalBlock => 100
  | NodeLagging _ => 20
  | NodeSignificantlyBehind _ => 100
  | BlockHashMismatch _ => 20
  | ChainWorkFailed => 15
  | StateRootFailed => 10
  end.

(** The score and the issue list of a result are in step. *)
Definition accounted (r : ChainIntegrityResult) : Prop :=
  (confidence_score r == 100 - Qsum (map issue_cost (issues r)))%Q.

End IntegrityReport.


(** ** Sequences of alerts *)

Module AlertRuns.

Import Advanced.

(** One call of [trigger_alert] with the values it draws from its
    environment. *)
Record Call := mkCall {
  call_env : Env;
  call_type : string;
  call_message : string;
  call_severity : string;
  call_node_name : string
}.

Definition do_call (cfg : AlertConfig) (st : State) (c : Call) : State :=
  trigger_alert cfg (call_env c) (call_type c) (call_message c) (call_severity c)
                (call_node_name c) st.

(** The calls made one after the other. *)
Definition run (cfg : AlertConfig) (calls : list Call) (st : State) : State :=
  fold_left (do_call cfg) calls st.

End AlertRuns.


(** ** Further functions of the advanced verifier *)

Module AdvancedMore.

Import Advanced.

(** *** [detect_node_issues] *)

(** The issue strings, each with the values it prints. *)
Inductive NodeIssue :=
| ServiceNotRunning (name_ status_ : string)
| RpcNotResponding
| LowSyncProgress (progress : Q)
| SlowSyncProgress (uptime : Z)
| LowPeerConnectivity (peers_ : Z)
| HighMemoryUsage (memory : Q)
| HighCpuUsage (cpu : Q)
| SlowRpcResponse (ms : Q).

Definition running (node : NodeInfo) : bool := String.eqb (status node) "running".

Definition detect_node_issues (node : NodeInfo) : list NodeIssue :=
  (if negb (running node) then [ServiceNotRunning (name node) (status node)] else [])
  ++ (if negb (rpc_responsive node) then [RpcNotResponding] else [])
  ++ (match sync_progress node with
      | Some p =>
          if Py.Qltb p 50 && running node then [LowSyncProgress p]
          else if Py.Qltb p 95 && (24 <? uptime_hours node)
               then [SlowSyncProgress (uptime_hours node)]
               else []
      | None => []
      end)
  ++ (if peers node <? 5 then [LowPeerConnectivity (peers node)] else [])
  ++ (if Py.Qgtb (memory_mb node) 24000 then [HighMemoryUsage (memory_mb node)] else [])
  ++ (if Py.Qgtb (cpu_usage_percent node) 90
      then [HighCpuUsage (cpu_usage_percent node)] else [])
  ++ (if Py.Qgtb (response_time_ms node) 5000
      then [SlowRpcResponse (response_time_ms node)] else []).

(** *** [get_alert_thresholds] and the per-node part of [check_alerts] *)

Record Thresholds := mkThresholds {
  min_peers : Z;
  max_cpu : Z;
  max_memory : Z;
  min_sync_progress : Z;
  max_response_time : Z
}.

Definition conservative : Thresholds :=
  {| min_peers := 25; max_cpu := 70; max_memory := 24;
     min_sync_progress := 95; max_response_time := 2000 |}.

Definition moderate : Thresholds :=
  {| min_peers := 15; max_cpu := 85; max_memory := 28;
     min_sync_progress := 85; max_response_time := 5000 |}.

Definition aggressive : Thresholds :=
  {| min_peers := 8; max_cpu := 95; max_memory := 32;
     min_sync_progress := 75; max_response_time := 10000 |}.

(** [thresholds.get(alert_threshold, thresholds['moderate'])]. *)
Definition get_alert_thresholds (alert_threshold : string) : Thresholds :=
  if String.eqb alert_threshold "conservative" then conservative
  else if String.eqb alert_threshold "moderate" then moderate
  else if String.eqb alert_threshold "aggressive" then aggressive
  else moderate.

Inductive MetricAlert :=
| LOW_SYNC_PROGRESS (progress : Q)
| LOW_PEER_COUNT (peers_ : Z)
| HIGH_CPU_USAGE (cpu : Q)
| HIGH_MEMORY_USAGE (memory : Q)
| HIGH_RESPONSE_TIME (ms : Q).

(** The list [alerts] that [check_alerts] builds for one node; each of
    its elements is then passed to
    [trigger_alert('NODE_METRIC', f"{node_name}: {alert}", 'warning')]. *)
Definition node_alerts (th : Thresholds) (node : NodeInfo) : list MetricAlert :=
  (match sync_progress node with
   | Some p =>
       if Py.Qltb p (inject_Z (min_sync_progress th)) && running node
       then [LOW_SYNC_PROGRESS p] else []
   | None => []
   end)
  ++ (if peers node <? min_peers th then [LOW_PEER_COUNT (peers node)] else [])
  ++ (if Py.Qgtb (cpu_usage_percent node) (inject_Z (max_cpu th))
      then [HIGH_CPU_USAGE (cpu_usage_percent node)] else [])
  ++ (if Py.Qgtb (memory_mb node) (inject_Z (max_memory th * 1024))
      then [HIGH_MEMORY_USAGE (memory_mb node)] else [])
  ++ (if Py.Qgtb (response_time_ms node) (inject_Z (max_response_time th))
      then [HIGH_RESPONSE_TIME (response_time_ms node)] else []).

(** The alerts of one [check_alerts] pass, node by node. *)
Definition check_alerts (alert_threshold : string) (nodes : list (string * NodeInfo))
  : list (string * MetricAlert) :=
  let th := get_alert_thresholds alert_threshold in
  concat (map (fun '(node_name, node) => map (pair node_name) (node_alerts th node)) nodes).

(** *** [calculate_system_metrics] *)

Record ClientStats := mkClientStats {
  cs_nodes : nat;
  cs_running : nat;
  avg_sync : Q;
  avg_health : Q
}.

(** The figures of [self.results] that [calculate_system_metrics]
    writes (it also refreshes the [last_updated] text). *)
Record Results := mkResults {
  total_nodes : nat;
  running_nodes : nat;
  stopped_nodes : nat;
  syncing_nodes : nat;
  healthy_nodes : nat;
  total_issues : nat;
  overall_health_score : Q;
  clients : list (string * ClientStats)
}.

(** The [results] of [__init__]. *)
Definition initial_results : Results :=
  {| total_nodes := 0; running_nodes := 0; stopped_nodes := 0; syncing_nodes := 0;
     healthy_nodes := 0; total_issues := 0; overall_health_score := 0; clients := [] |}.

(** [n.sync_progress is not None and 0 < n.sync_progress < 100]. *)
Definition is_syncing (node : NodeInfo) : bool :=
  match sync_progress node with
  | Some p => Py.Qltb 0 p && Py.Qltb p 100
  | None => false
  end.

Definition new_stats : ClientStats :=
  {| cs_nodes := 0; cs_running := 0; avg_sync := 0; avg_health := 0 |}.

(** One turn of the "Client statistics" loop on the entry of the
    node's client. *)
Definition count_node (node : NodeInfo) (stats : ClientStats) : ClientStats :=
  {| cs_nodes := S (cs_nodes stats);
     cs_running := if running node then S (cs_running stats) else cs_running stats;
     avg_sync := match sync_progress node with
                 | Some p => (avg_sync stats + p)%Q
                 | None => avg_sync stats
                 end;
     avg_health := (avg_health stats + health_score node)%Q |}.

(** [client_stats[client]] created on first use and updated in place;
    the dictionary keeps the order of first use. *)
Fixpoint update_client (client_ : string) (node : NodeInfo)
    (stats : list (string * ClientStats)) : list (string * ClientStats) :=
  match stats with
  | [] => [(client_, count_node node new_stats)]
  | (k, v) :: rest =>
      if String.eqb k client_ then (k, count_node node v) :: rest
      else (k, v) :: update_client client_ node rest
  end.

(** The "Calculate averages" loop. *)
Definition average (stats : ClientStats) : ClientStats :=
  if (0 <? cs_nodes stats)%nat then
    {| cs_nodes := cs_nodes stats;
       cs_running := cs_running stats;
       avg_sync := (avg_sync stats / IntegrityReport.of_nat (cs_nodes stats))%Q;
       avg_health := (avg_health stats / IntegrityReport.of_nat (cs_nodes stats))%Q |}
  else stats.

Definition client_statistics (nodes : list NodeInfo) : list (string * ClientStats) :=
  map (fun e => (fst e, average (snd e)))
      (fold_left (fun stats node => update_client (client node) node stats) nodes []).

(** [calculate_system_metrics].  The counts are integers; the mean of
    the health scores is taken exactly, whereas the float sum and
    division of the code round. *)
Definition calculate_system_metrics
    (nodes : list (string * NodeInfo)) (results : Results) : Results :=
  match nodes with
  | [] => results
  | _ =>
    let values := map snd nodes in
    let total := length values in
    let running_count := length (List.filter running values) in
    {| total_nodes := total;
       running_nodes := running_count;
       stopped_nodes := (total - running_count)%nat;
       syncing_nodes := length (List.filter is_syncing values);
       healthy_nodes := length (List.filter (fun n => Py.Qgeb (health_score n) 80) values);
       total_issues := list_sum (map (fun n => length (issues n)) values);
       overall_health_score :=
         (IntegrityReport.Qsum (map health_score values)
          / IntegrityReport.of_nat total)%Q;
       clients := client_statistics values |}
  end.

(** *** [generate_recommendations] *)

Inductive Advice :=
| NoNodesAvailable
| HealthIsLow
| LowPeerCounts
| OptimizeMemory
| StillSyncing
| OperatingNormally.

(** [None] is the [TypeError] of [0 < n.sync_progress < 100] on a node
    whose [sync_progress] is [None]. *)
Definition generate_recommendations (nodes : list (string * NodeInfo))
  : option (list Advice) :=
  match nodes with
  | [] => Some [NoNodesAvailable]
  | _ =>
    let values := map snd nodes in
    let avg := (IntegrityReport.Qsum (map health_score values)
                / IntegrityReport.of_nat (length values))%Q in
    let low_peers := List.filter (fun n => peers n <? 10) values in
    let high_memory := List.filter (fun n => Py.Qgtb (memory_mb n) 16000) values in
    if forallb (fun n => match sync_progress n with Some _ => true | None => false end)
               values
    then
      let syncing_ := List.filter is_syncing values in
      let recs : list Advice :=
        ((if Py.Qltb avg 70 then [HealthIsLow] else [])
         ++ (match low_peers with [] => [] | _ => [LowPeerCounts] end)
         ++ (match high_memory with [] => [] | _ => [OptimizeMemory] end)
         ++ (match syncing_ with [] => [] | _ => [StillSyncing] end))%list in
      Some (match recs with [] => [OperatingNormally] | _ => recs end)
    else None
  end.

(** *** [get_sync_status] *)

(** Updates of the sync fields and of the error text of the node
    object; the text of the exception itself is not modelled. *)
Definition set_progress (p : option Q) (n : NodeInfo) : NodeInfo :=
  {| name := name n; client := client n; version := version n; service := service n;
     status := status n; uptime_hours := uptime_hours n;
     sync_progress := p; current_block := current_block n;
     highest_block := highest_block n; rpc_responsive := rpc_responsive n;
     peers := peers n; memory_mb := memory_mb n;
     cpu_usage_percent := cpu_usage_percent n; issues := issues n; error := error n;
     health_score := health_score n; response_time_ms := response_time_ms n |}.

Definition set_current (b : Z) (n : NodeInfo) : NodeInfo :=
  {| name := name n; client := client n; version := version n; service := service n;
     status := status n; uptime_hours := uptime_hours n;
     sync_progress := sync_progress n; current_block := Some b;
     highest_block := highest_block n; rpc_responsive := rpc_responsive n;
     peers := peers n; memory_mb := memory_mb n;
     cpu_usage_percent := cpu_usage_percent n; issues := issues n; error := error n;
     health_score := health_score n; response_time_ms := response_time_ms n |}.

Definition set_highest (b : Z) (n : NodeInfo) : NodeInfo :=
  {| name := name n; client := client n; version := version n; service := service n;
     status := status n; uptime_hours := uptime_hours n;
     sync_progress := sync_progress n; current_block := current_block n;
     highest_block := Some b; rpc_responsive := rpc_responsive n;
     peers := peers n; memory_mb := memory_mb n;
     cpu_usage_percent := cpu_usage_percent n; issues := issues n; error := error n;
     health_score := health_score n; response_time_ms := response_time_ms n |}.

Definition set_error (n : NodeInfo) : NodeInfo :=
  {| name := name n; client := client n; version := version n; service := service n;
     status := status n; uptime_hours := uptime_hours n;
     sync_progress := sync_progress n; current_block := current_block n;
     highest_block := highest_block n; rpc_responsive := rpc_responsive n;
     peers := peers n; memory_mb := memory_mb n;
     cpu_usage_percent := cpu_usage_percent n; issues := issues n;
     error := Some "exception";
     health_score := health_score n; response_time_ms := response_time_ms n |}.

(** A step of the [try] block: the node as far as it was updated, and
    whether the step raised. *)
Inductive step :=
| Done (n : NodeInfo)
| Raise (n : NodeInfo).

(** [node.current_block = int(v.get(key, '0x0'), 16)] and the like. *)
Definition read_block (v : Rpc.value) (key : string) : option Z :=
  x ← Rpc.get v key Rpc.hex0; Rpc.int16 x.

(** The body of the [try] of [get_sync_status]; [eth_syncing] and
    [eth_blockNumber] are the two exchanges it can make.  The lookup of
    the last block time at its end fills a field that is not part of
    this record and cannot raise. *)
Definition sync_status_body (eth_syncing eth_blockNumber : Rpc.http) (node : NodeInfo)
  : step :=
  match eth_syncing with
  | Rpc.Failed => Raise node
  | Rpc.Answer status_code data =>
    if negb (status_code =? 200) then Done node
    else
      match Rpc.get data "result" (Rpc.VObject []) with
      | None => Raise node
      | Some sync_data =>
        if Rpc.is_false sync_data then
          let node := set_progress (Some 100%Q) node in
          match eth_blockNumber with
          | Rpc.Failed => Raise node
          | Rpc.Answer block_status block_data =>
            if block_status =? 200 then
              match read_block block_data "result" with
              | Some b => Done (set_current b node)
              | None => Raise node
              end
            else Done node
          end
        else
          match read_block sync_data "currentBlock" with
          | None => Raise node
          | Some cur =>
            let node := set_current cur node in
            match read_block sync_data "highestBlock" with
            | None => Raise node
            | Some high =>
              let node := set_highest high node in
              Done (if 0 <? high
                    then set_progress (Some (inject_Z cur / inject_Z high * 100)%Q) node
                    else node)
            end
          end
      end
  end.

(** [get_sync_status]: the handler records the exception text in
    [node.error] and keeps what was assigned before. *)
Definition get_sync_status (eth_syncing eth_blockNumber : Rpc.http) (node : NodeInfo)
  : NodeInfo :=
  match sync_status_body eth_syncing eth_blockNumber node with
  | Done n => n
  | Raise n => set_error n
  end.

End AdvancedMore.


(** ** Further functions of the comprehensive verifier *)

Module ComprehensiveMore.

Import Comprehensive.

(** [max(a, b)] on numbers: Python returns the first argument unless
    the second is strictly larger. *)
Definition Qmax2 (a b : Q) : Q := if Qlt_le_dec a b then b else a.

(** The dictionary [hash_comparison] of [check_reorganizations]: the
    nodes with a non-empty hash and a positive block number. *)
Definition compared_nodes (node_statuses : list (string * SyncStatus))
  : list (string * (Z * string)) :=
  omap (fun '(name, s) =>
          match block_hash s with
          | Some h => if Py.truthy (Some h) && (0 <? current_block s)
                      then Some (name, (current_block s, h)) else None
          | None => None
          end) node_statuses.

(** *** [calculate_health_score] *)

Definition calculate_health_score (status : SyncStatus) : Q :=
  let score := 100%Q in
  let score :=
    if negb (String.eqb (service_status status) "active") then (score - 50)%Q else score in
  let score :=
    if String.eqb (sync_status status) "syncing"
    then (score - Py.Qmin2 30 (30 - sync_progress status * (3 # 10)))%Q
    else if String.eqb (sync_status status) "error"
            || String.eqb (sync_status status) "unknown"
         then (score - 40)%Q else score in
  let score :=
    if peer_count status <? 5 then (score - 20)%Q
    else if peer_count status <? 15 then (score - 10)%Q else score in
  let score :=
    if Py.Qgtb (cpu_usage status) 90 then (score - 15)%Q
    else if Py.Qgtb (cpu_usage status) 80 then (score - 10)%Q else score in
  let score :=
    if Py.Qgtb (memory_usage status) 30 then (score - 15)%Q
    else if Py.Qgtb (memory_usage status) 20 then (score - 10)%Q else score in
  let score :=
    if Py.Qgtb (response_time status) 5 then (score - 20)%Q
    else if Py.Qgtb (response_time status) 2 then (score - 10)%Q else score in
  let score := (score - inject_Z (Z.of_nat (length (issues status))) * 5)%Q in
  Qmax2 0 score.

(** *** [check_alerts] *)

Inductive Severity := CRITICAL | WARNING.

(** The alert messages, each with the value it prints. *)
Inductive Message :=
| VerificationError (text : string)
| CriticalBlockDivergence (blocks : Z)
| SignificantBlockDivergence (blocks : Z)
| CriticalReferenceDivergence (blocks : Z)
| SignificantReferenceDivergence (blocks : Z)
| PotentialReorganization (hashes : nat)
| CriticalHealthScore (health : Z)
| LowHealthScore (health : Z)
| SyncErrorDetected
| LowPeerCountAlert (peers : Z)
| HighResponseTime (seconds : Q)
| MultipleIssues (count : nat).

Record Alert := mkAlert {
  severity : Severity;
  node : option string;
  message : Message
}.

(** A threshold dictionary as far as [check_alerts] reads it: the two
    keys it looks up, each optional, with the defaults 8 and 2.0 of the
    [.get] calls. *)
Record Thresholds := mkThresholds {
  min_peers : option Z;
  max_response_time : option Q
}.

(** The argument [threshold]: the name of a tier, or a threshold
    dictionary passed directly. *)
Inductive Threshold :=
| Tier (name : string)
| Table (th : Thresholds).

(** [config.alert_thresholds] as [load_config] builds it when no
    configuration file replaces it: the keys are the names of the five
    measures, and each value is a dictionary from tier name to number,
    which has neither of the two keys read by [check_alerts]. *)
Definition default_alert_thresholds : gmap string Thresholds :=
  list_to_map
    [("min_peers", mkThresholds None None);
     ("max_cpu", mkThresholds None None);
     ("max_memory", mkThresholds None None);
     ("min_sync_progress", mkThresholds None None);
     ("max_response_time", mkThresholds None None)].

(** The first statement of [check_alerts].  The default argument
    [alert_thresholds["moderate"]] of [.get] is evaluated before the
    lookup, so a configuration without that key raises [KeyError]
    ([None]) for every tier name. *)
Definition resolve_thresholds (alert_thresholds : gmap string Thresholds)
    (threshold : Threshold) : option Thresholds :=
  match threshold with
  | Tier name =>
      moderate ← alert_thresholds !! "moderate";
      Some (default moderate (alert_thresholds !! name))
  | Table th => Some th
  end.

Definition node_alerts (th : Thresholds) (node_ : string) (e : NodeEntry) : list Alert :=
  (if ne_health_score e <? 30
   then [mkAlert CRITICAL (Some node_) (CriticalHealthScore (ne_health_score e))]
   else if ne_health_score e <? 50
        then [mkAlert WARNING (Some node_) (LowHealthScore (ne_health_score e))]
        else [])
  ++ (if String.eqb (ne_sync_status e) "error"
      then [mkAlert CRITICAL (Some node_) SyncErrorDetected] else [])
  ++ (if ne_peer_count e <? default 8 (min_peers th)
      then [mkAlert WARNING (Some node_) (LowPeerCountAlert (ne_peer_count e))] else [])
  ++ (if Py.Qgtb (ne_response_time e) (default 2%Q (max_response_time th))
      then [mkAlert WARNING (Some node_) (HighResponseTime (ne_response_time e))] else [])
  ++ (if (5 <? length (ne_issues e))%nat
      then [mkAlert CRITICAL (Some node_) (MultipleIssues (length (ne_issues e)))]
      else []).

(** The alerts of [check_alerts] once the thresholds are resolved. *)
Definition alerts_of (consistency : Result) (th : Thresholds) : list Alert :=
  match consistency with
  | Error text => [mkAlert CRITICAL None (VerificationError text)]
  | Ok r =>
    let s := summary r in
    (if negb (consistent s) then
       if 50 <? block_difference s
       then [mkAlert CRITICAL None (CriticalBlockDivergence (block_difference s))]
       else if 20 <? block_difference s
            then [mkAlert WARNING None (SignificantBlockDivergence (block_difference s))]
            else []
     else [])
    ++ (match reference r with
        | Some ref =>
            if negb (reference_consistent ref) then
              if 50 <? local_max_diff ref
              then [mkAlert CRITICAL None (CriticalReferenceDivergence (local_max_diff ref))]
              else if 20 <? local_max_diff ref
                   then [mkAlert WARNING None
                           (SignificantReferenceDivergence (local_max_diff ref))]
                   else []
            else []
        | None => []
        end)
    ++ (match reorg_check r with
        | Some (HashComparison false unique _) =>
            [mkAlert WARNING None (PotentialReorganization unique)]
        | _ => []
        end)
    ++ concat (map (fun '(node_, e) => node_alerts th node_ e) (nodes r))
  end.

(** [check_alerts]: the thresholds are resolved first, also when the
    analyzer returned an error; [None] is the [KeyError] of that
    step. *)
Definition check_alerts (alert_thresholds : gmap string Thresholds)
    (consistency : Result) (threshold : Threshold) : option (list Alert) :=
  thresholds ← resolve_thresholds alert_thresholds threshold;
  Some (alerts_of consistency thresholds).

End ComprehensiveMore.

(** ** The overall health score of the basic verifier *)

Module BasicMore.

Import Basic.

(** The score of one node in [_calculate_health_score].  The float
    operations are taken exactly, so a progress within rounding
    distance below 100 scores slightly less than 100 here. *)
Definition node_score (node : NodeInfo) : Q :=
  let score := 0%Q in
  let score := if String.eqb (status node) "running" then (score + 30)%Q else score in
  let score := if rpc_responsive node then (score + 40)%Q else score in
  match sync_progress node with
  | Some p => (score + Py.Qmin2 30 (p / 100 * 30))%Q
  | None => score
  end.

Definition _calculate_health_score (nodes : list (string * NodeInfo)) : Q :=
  match nodes with
  | [] => 0%Q
  | _ =>
    let health_scores := map (fun e => node_score (snd e)) nodes in
    (IntegrityReport.Qsum health_scores
     / IntegrityReport.of_nat (length health_scores))%Q
  end.

End BasicMore.
(** ** Facts about the helpers *)

Section PyFacts.

Lemma fold_left_max_ge (xs : list Z) (a : Z) :
  a <= fold_left Z.max xs a /\ Forall (fun x => x <= fold_left Z.max xs a) xs.
Proof.
  revert a. induction xs as [|x xs IH]; intros a; simpl.
  - split; [lia | constructor].
  - destruct (IH (Z.max a x)) as [Ha Hall]. split; [lia|].
    constructor; [lia | exact Hall].
Qed.

Lemma fold_left_max_in (xs : list Z) (a : Z) :
  fold_left Z.max xs a = a \/ In (fold_left Z.max xs a) xs.
Proof.
  revert a. induction xs as [|x xs IH]; intros a; simpl; [now left|].
  destruct (IH (Z.max a x)) as [E | HIn]; [|now right; right].
  rewrite E. destruct (Z.max_spec a x) as [[_ ->] | [_ ->]]; auto.
Qed.

Lemma fold_left_min_le (xs : list Z) (a : Z) :
  fold_left Z.min xs a <= a /\ Forall (fun x => fold_left Z.min xs a <= x) xs.
Proof.
  revert a. induction xs as [|x xs IH]; intros a; simpl.
  - split; [lia | constructor].
  - destruct (IH (Z.min a x)) as [Ha Hall]. split; [lia|].
    constructor; [lia | exact Hall].
Qed.

Lemma fold_left_min_in (xs : list Z) (a : Z) :
  fold_left Z.min xs a = a \/ In (fold_left Z.min xs a) xs.
Proof.
  revert a. induction xs as [|x xs IH]; intros a; simpl; [now left|].
  destruct (IH (Z.min a x)) as [E | HIn]; [|now right; right].
  rewrite E. destruct (Z.min_spec a x) as [[_ ->] | [_ ->]]; auto.
Qed.

(** [Py.max] returns an element of the list that bounds the others. *)
Lemma py_max_spec (xs : list Z) (m : Z) :
  Py.max xs = Some m -> In m xs /\ (forall x, In x xs -> x <= m).
Proof.
  destruct xs as [|a xs]; simpl; [discriminate|].
  intros [= <-]. destruct (fold_left_max_ge xs a) as [Ha Hall]. split.
  - destruct (fold_left_max_in xs a) as [-> | H]; auto.
  - intros x [<- | Hx]; [exact Ha|].
    rewrite Forall_forall in Hall. apply Hall. now apply list_elem_of_In.
Qed.

Lemma py_min_spec (xs : list Z) (m : Z) :
  Py.min xs = Some m -> In m xs /\ (forall x, In x xs -> m <= x).
Proof.
  destruct xs as [|a xs]; simpl; [discriminate|].
  intros [= <-]. destruct (fold_left_min_le xs a) as [Ha Hall]. split.
  - destruct (fold_left_min_in xs a) as [-> | H]; auto.
  - intros x [<- | Hx]; [exact Ha|].
    rewrite Forall_forall in Hall. apply Hall. now apply list_elem_of_In.
Qed.

Lemma py_max_none (xs : list Z) : Py.max xs = None <-> xs = [].
Proof. destruct xs; simpl; split; congruence. Qed.

Lemma py_min_none (xs : list Z) : Py.min xs = None <-> xs = [].
Proof. destruct xs; simpl; split; congruence. Qed.

End PyFacts.

(** ** Cross-node consistency *)

Section Consistency.

(** What a successful run of the comprehensive analyzer returns. *)
Lemma comprehensive_ok_inv net tol ref sts r :
  Comprehensive.verify_cross_node_consistency net tol ref sts = Comprehensive.Ok r ->
  let s := Comprehensive.summary r in
  Py.max (Comprehensive.usable_blocks sts) = Some (Comprehensive.highest s) /\
  Py.min (Comprehensive.usable_blocks sts) = Some (Comprehensive.lowest s) /\
  Comprehensive.block_difference s = Comprehensive.highest s - Comprehensive.lowest s /\
  Comprehensive.tolerance_blocks s = tol /\
  Comprehensive.consistent s = (Comprehensive.block_difference s <=? tol) /\
  Comprehensive.nodes r =
    map (fun '(name, st) =>
           (name, Comprehensive.node_entry tol (Comprehensive.highest s) st)) sts.
Proof.
  unfold Comprehensive.verify_cross_node_consistency.
  destruct sts as [|e sts]; [discriminate|].
  destruct (Py.max _) as [mx|], (Py.min _) as [mn|]; try discriminate.
  intros [= <-]. simpl. repeat split; reflexivity.
Qed.

Lemma comprehensive_error_inv net tol ref sts msg :
  Comprehensive.verify_cross_node_consistency net tol ref sts = Comprehensive.Error msg ->
  Comprehensive.usable_blocks sts = [].
Proof.
  unfold Comprehensive.verify_cross_node_consistency.
  destruct sts as [|e sts]; [reflexivity|].
  destruct (Py.max (Comprehensive.usable_blocks (e :: sts))) as [mx|] eqn:Emax;
    [|intros _; now apply py_max_none].
  destruct (Py.min (Comprehensive.usable_blocks (e :: sts))) as [mn|] eqn:Emin;
    [discriminate|intros _; now apply py_min_none].
Qed.

(** What a successful run of the advanced analyzer returns. *)
Lemma advanced_ok_inv nodes net tol r :
  Advanced.validate_cross_node_consistency nodes net tol = Advanced.Ok r ->
  Py.max (Advanced.block_values nodes) = Some (Advanced.max_block r) /\
  Py.min (Advanced.block_values nodes) = Some (Advanced.min_block r) /\
  Advanced.block_difference r = Advanced.max_block r - Advanced.min_block r /\
  Advanced.tolerance r = tol /\
  Advanced.nodes_consistent r = (Advanced.block_difference r <=? tol) /\
  Advanced.lagging_nodes r =
    omap (fun '(node_name, (block_num, st)) =>
            if tol <? Advanced.max_block r - block_num
            then Some (Advanced.mkLaggingNode node_name block_num
                         (Advanced.max_block r - block_num) st)
            else None) (Advanced.collect_block_numbers nodes).
Proof.
  unfold Advanced.validate_cross_node_consistency.
  destruct (Py.max _) as [mx|], (Py.min _) as [mn|]; try discriminate.
  intros [= <-]. simpl. repeat split; reflexivity.
Qed.

(** The blocks the comprehensive analyzer ranges over are exactly the
    positive [current_block]s of the nodes. *)
Lemma usable_blocks_spec sts b :
  In b (Comprehensive.usable_blocks sts) <->
  0 < b /\ exists name st, In (name, st) sts /\ Comprehensive.current_block st = b.
Proof.
  unfold Comprehensive.usable_blocks.
  rewrite <- list_elem_of_In, list_elem_of_filter, list_elem_of_In, in_map_iff.
  split.
  - intros [Hpos [[name st] [<- Hin]]]. split; [exact Hpos|]. now exists name, st.
  - intros [Hpos (name & st & Hin & <-)]. split; [exact Hpos|].
    now exists (name, st).
Qed.

(** The blocks the advanced analyzer ranges over are exactly the
    [current_block]s that are not [None]. *)
Lemma collect_block_numbers_spec nodes node_name b st :
  In (node_name, (b, st)) (Advanced.collect_block_numbers nodes) <->
  exists node, In (node_name, node) nodes /\
               Advanced.current_block node = Some b /\ Advanced.status node = st.
Proof.
  unfold Advanced.collect_block_numbers.
  rewrite <- list_elem_of_In, list_elem_of_omap. split.
  - intros [[k node] [Hin Heq]]. apply list_elem_of_In in Hin.
    destruct (Advanced.current_block node) as [b'|] eqn:E; [|discriminate].
    injection Heq as -> -> <-. now exists node.
  - intros (node & Hin & Hb & Hst). exists (node_name, node).
    rewrite list_elem_of_In. split; [exact Hin|]. simpl. rewrite Hb, Hst. reflexivity.
Qed.

Lemma block_values_spec nodes b :
  In b (Advanced.block_values nodes) <->
  exists node_name node, In (node_name, node) nodes /\ Advanced.current_block node = Some b.
Proof.
  unfold Advanced.block_values. rewrite in_map_iff. split.
  - intros [[k [b' st]] [<- Hin]]. apply collect_block_numbers_spec in Hin.
    destruct Hin as (node & Hin & Hb & _). now exists k, node.
  - intros (k & node & Hin & Hb). exists (k, (b, Advanced.status node)).
    split; [reflexivity|]. apply collect_block_numbers_spec. now exists node.
Qed.





(** C3 as stated fails: the advanced analyzer takes a node as usable as soon as its
    [current_block] is not [None]: two nodes that both report block 0
    are not answered with the no-data error but with a report whose
    verdict is [true]. *)
Lemma no_data_error_counterexample :
  Forall (fun e => forall b, Advanced.current_block (snd e) = Some b -> ~ 0 < b)
         Scenarios.zero_infos /\
  exists r,
    Advanced.validate_cross_node_consistency Scenarios.zero_infos "mainnet" 3
      = Advanced.Ok r /\
    Advanced.max_block r = 0 /\ Advanced.min_block r = 0 /\
    Advanced.nodes_consistent r = true.
Proof.
  split.
  - repeat constructor; simpl; intros b [= <-]; lia.
  - eexists. split; [reflexivity|]. repeat split; reflexivity.
Qed.

(** C3, amended. When no node has usable block data, the analyzer
    returns its explicit no-data error and hence no verdict at all,
    and the maximum and minimum of a report range only over the nodes
    with usable data.  Usable means [current_block > 0] for the
    comprehensive analyzer and [current_block] not [None] for the
    advanced one. *)
Theorem no_usable_data_is_an_error :
  (forall net tol ref sts,
      (forall name st, In (name, st) sts -> ~ 0 < Comprehensive.current_block st) ->
      Comprehensive.verify_cross_node_consistency net tol ref sts
        = Comprehensive.Error (match sts with
                               | [] => "No node status available"
                               | _ => "No valid block numbers found"
                               end))
  /\
  (forall net tol ref sts r,
      Comprehensive.verify_cross_node_consistency net tol ref sts = Comprehensive.Ok r ->
      forall m,
        m = Comprehensive.highest (Comprehensive.summary r) \/
        m = Comprehensive.lowest (Comprehensive.summary r) ->
        0 < m /\ exists name st, In (name, st) sts /\ Comprehensive.current_block st = m)
  /\
  (forall nodes net tol,
      (forall node_name node, In (node_name, node) nodes ->
                              Advanced.current_block node = None) ->
      Advanced.validate_cross_node_consistency nodes net tol
        = Advanced.Error "No block data available")
  /\
  (forall nodes net tol r,
      Advanced.validate_cross_node_consistency nodes net tol = Advanced.Ok r ->
      forall m,
        m = Advanced.max_block r \/ m = Advanced.min_block r ->
        exists node_name node,
          In (node_name, node) nodes /\ Advanced.current_block node = Some m).
Proof.
  split; [|split; [|split]].
  - intros net tol ref sts Hnone.
    assert (E : Comprehensive.usable_blocks sts = []).
    { destruct (Comprehensive.usable_blocks sts) as [|b bs] eqn:E; [reflexivity|].
      assert (Hin : In b (Comprehensive.usable_blocks sts)) by (rewrite E; now left).
      apply usable_blocks_spec in Hin. destruct Hin as [Hpos (name & st & Hin & <-)].
      now destruct (Hnone name st Hin). }
    unfold Comprehensive.verify_cross_node_consistency. rewrite E.
    destruct sts; reflexivity.
  - intros net tol ref sts r H m Hm.
    destruct (comprehensive_ok_inv _ _ _ _ _ H) as (Hmax & Hmin & _).
    apply py_max_spec in Hmax. apply py_min_spec in Hmin.
    apply usable_blocks_spec. destruct Hm as [-> | ->]; tauto.
  - intros nodes net tol Hnone.
    assert (E : Advanced.block_values nodes = []).
    { destruct (Advanced.block_values nodes) as [|b bs] eqn:E; [reflexivity|].
      assert (Hin : In b (Advanced.block_values nodes)) by (rewrite E; now left).
      apply block_values_spec in Hin. destruct Hin as (k & node & Hin & Hb).
      rewrite (Hnone k node Hin) in Hb. discriminate. }
    unfold Advanced.validate_cross_node_consistency. rewrite E. reflexivity.
  - intros nodes net tol r H m Hm.
    destruct (advanced_ok_inv _ _ _ _ H) as (Hmax & Hmin & _).
    apply py_max_spec in Hmax. apply py_min_spec in Hmin.
    apply block_values_spec. destruct Hm as [-> | ->]; tauto.
Qed.

Lemma no_usable_data_is_an_error_witness :
  Comprehensive.verify_cross_node_consistency "mainnet" 5 0
    [("geth", Scenarios.status_at "geth" 0)]
  = Comprehensive.Error "No valid block numbers found" /\
  Advanced.validate_cross_node_consistency
    [("Geth", Scenarios.node_at "Geth" None 0 0 0)] "mainnet" 3
  = Advanced.Error "No block data available" /\
  (exists r,
      Comprehensive.verify_cross_node_consistency "mainnet" 5 0 Scenarios.two_nodes
        = Comprehensive.Ok r /\ 0 < Comprehensive.lowest (Comprehensive.summary r)) /\
  (exists r node_name node,
      Advanced.validate_cross_node_consistency Scenarios.zero_infos "mainnet" 3
        = Advanced.Ok r /\
      In (node_name, node) Scenarios.zero_infos /\
      Advanced.current_block node = Some (Advanced.max_block r)).
Proof.
  destruct no_usable_data_is_an_error as (HA & HA' & HB & HB').
  split; [|split; [|split]].
  - apply (HA "mainnet" 5 0 [("geth", Scenarios.status_at "geth" 0)]).
    intros name st [[= <- <-] | []]. simpl. lia.
  - apply (HB [("Geth", Scenarios.node_at "Geth" None 0 0 0)] "mainnet" 3).
    intros k node [[= <- <-] | []]. reflexivity.
  - eexists. split; [reflexivity|].
    apply (HA' "mainnet" 5 0 Scenarios.two_nodes _ eq_refl). right. reflexivity.
  - destruct (HB' Scenarios.zero_infos "mainnet" 3 _ eq_refl _ (or_introl eq_refl))
      as (k & node & Hin & Hb).
    eexists. exists k, node. split; [reflexivity|]. split; assumption.
Defined.

End Consistency.

(** ** Chain integrity: confidence score *)

Section Confidence.

Import Integrity.

Variable w : World.

Lemma hash_mismatch_depth0 blk :
  mismatch_at w blk 0 =
  Py.truthy (get_block_hash w blk) && Py.truthy (reference_block_hash w blk)
  && negb (bool_decide (get_block_hash w blk = reference_block_hash w blk)).
Proof. unfold mismatch_at. now rewrite Z.sub_0_r. Qed.

(** Each check leaves the score alone or lowers it by its penalty. *)
Lemma check_block_hash_confidence blk res :
  (confidence_score (check_block_hash w blk res)
   == confidence_score res - hash_penalty w blk)%Q.
Proof.
  unfold check_block_hash, hash_penalty. rewrite hash_mismatch_depth0.
  destruct (Py.truthy (get_block_hash w blk) && Py.truthy (reference_block_hash w blk));
    simpl; [|ring].
  destruct (bool_decide _); simpl; ring.
Qed.

Lemma check_chain_work_confidence blk res :
  (confidence_score (check_chain_work w blk res)
   == confidence_score res - chain_work_penalty w blk)%Q.
Proof.
  unfold check_chain_work, chain_work_penalty.
  destruct (verify_chain_work w blk); simpl; ring.
Qed.

Lemma check_state_root_confidence blk res :
  (confidence_score (check_state_root w blk res)
   == confidence_score res - state_root_penalty w blk)%Q.
Proof.
  unfold check_state_root, state_root_penalty.
  destruct (0 <? blk); simpl; [|ring].
  destruct (validate_state_root w blk); simpl; ring.
Qed.

Lemma penalties_range blk :
  (0 <= hash_penalty w blk <= 20 /\ 0 <= chain_work_penalty w blk <= 15 /\
   0 <= state_root_penalty w blk <= 10)%Q.
Proof.
  unfold hash_penalty, chain_work_penalty, state_root_penalty.
  destruct (mismatch_at w blk 0), (verify_chain_work w blk),
    ((0 <? blk) && negb (validate_state_root w blk)); repeat split; lra.
Qed.

Lemma comprehensive_checks_confidence blk res :
  (confidence_score (perform_comprehensive_integrity_checks w res blk)
   == confidence_score res
      - hash_penalty w blk - chain_work_penalty w blk - state_root_penalty w blk)%Q.
Proof.
  unfold perform_comprehensive_integrity_checks.
  rewrite check_state_root_confidence, check_chain_work_confidence,
    check_block_hash_confidence. ring.
Qed.

Lemma starting_confidence_range diff :
  (0 <= starting_confidence diff <= 100)%Q /\
  (diff <= 20 -> (80 <= starting_confidence diff)%Q).
Proof.
  unfold starting_confidence.
  destruct (diff <=? 5) eqn:E5; [split; [lra | intros _; lra]|].
  destruct (diff <=? 20) eqn:E20; [split; [lra | intros _; lra]|].
  split; [lra|]. intros H. apply Z.leb_gt in E20. lia.
Qed.

Lemma grade_confidence res :
  confidence_score (grade res) = starting_confidence (block_diff res).
Proof.
  unfold grade, starting_confidence.
  destruct (block_diff res <=? 5); [reflexivity|].
  destruct (block_diff res <=? 20); reflexivity.
Qed.

Lemma set_reorg_confidence d n res :
  confidence_score (set_reorg d n res) = confidence_score res.
Proof. reflexivity. Qed.

(** The score [verify_chain_integrity] returns, in closed form. *)
Lemma verify_confidence name level :
  (confidence_score (verify_chain_integrity w name level) ==
   if (reference_block_number w =? 0) || (local_block_number w =? 0) then 0
   else
     let blk := local_block_number w in
     let start := starting_confidence (reference_block_number w - blk) in
     if deep_level level
     then start - hash_penalty w blk - chain_work_penalty w blk - state_root_penalty w blk
     else start)%Q.
Proof.
  unfold verify_chain_integrity.
  destruct (reference_block_number w =? 0); simpl; [reflexivity|].
  destruct (local_block_number w =? 0); simpl; [reflexivity|].
  destruct (deep_level level).
  - destruct (detect_reorganizations w (local_block_number w)) as [d n].
    rewrite set_reorg_confidence, comprehensive_checks_confidence, grade_confidence.
    reflexivity.
  - rewrite grade_confidence. reflexivity.
Qed.

(** C4 as stated fails, no floor is applied: a node more than 20 blocks behind starts
    from confidence 0, and the three penalties take it to -45. *)
Lemma confidence_floor_counterexample :
  let r := verify_chain_integrity Scenarios.far_behind "Geth" "comprehensive" in
  (starting_confidence (block_diff r) == 0)%Q /\
  (confidence_score r == -45)%Q /\
  (confidence_score r < 0)%Q /\
  issues r = [NodeSignificantlyBehind 100; BlockHashMismatch 900;
              ChainWorkFailed; StateRootFailed].
Proof. vm_compute. repeat split; congruence. Qed.

(** C4, amended. The confidence score never exceeds 100 and never
    drops below -45.  It starts at 100, 80 or 0 according to the block
    difference (at most 5, at most 20, more), or stays at its initial 0
    when a block number is missing; at the comprehensive and forensic
    levels a hash mismatch lowers it by 20, a failed structural check
    by 15 and a malformed state root by 10, and nothing raises it.  It
    is at least 35, hence non-negative, whenever the node is at most 20
    blocks behind the reference; there is no floor at 0 otherwise. *)
Theorem confidence_score_bounds name level :
  let r := verify_chain_integrity w name level in
  (confidence_score r <= 100)%Q /\
  (-45 <= confidence_score r)%Q /\
  (reference_block_number w <> 0 -> local_block_number w <> 0 ->
   reference_block_number w - local_block_number w <= 20 ->
   (35 <= confidence_score r)%Q) /\
  (reference_block_number w <> 0 -> local_block_number w <> 0 ->
   let blk := local_block_number w in
   let start := starting_confidence (reference_block_number w - blk) in
   (confidence_score r ==
    if deep_level level
    then start - hash_penalty w blk - chain_work_penalty w blk - state_root_penalty w blk
    else start)%Q) /\
  (forall res blk,
      (confidence_score (check_block_hash w blk res) <= confidence_score res)%Q /\
      (confidence_score (check_chain_work w blk res) <= confidence_score res)%Q /\
      (confidence_score (check_state_root w blk res) <= confidence_score res)%Q).
Proof.
  intros r. subst r.
  pose proof (verify_confidence name level) as Hscore.
  set (blk := local_block_number w) in *.
  pose proof (penalties_range blk) as (Hh & Hc & Hs).
  pose proof (starting_confidence_range (reference_block_number w - blk)) as [Hstart H80].
  assert (Hbounds :
    (-45 <= confidence_score (verify_chain_integrity w name level) <= 100)%Q).
  { destruct ((reference_block_number w =? 0) || (blk =? 0)).
    - rewrite Hscore. lra.
    - cbv zeta in Hscore. destruct (deep_level level); rewrite Hscore; lra. }
  split; [apply Hbounds|]. split; [apply Hbounds|]. split; [|split].
  - intros Href Hloc Hdiff.
    apply Z.eqb_neq in Href. apply Z.eqb_neq in Hloc.
    rewrite Href, Hloc in Hscore. cbv zeta in Hscore. simpl in Hscore.
    specialize (H80 Hdiff).
    destruct (deep_level level); rewrite Hscore; lra.
  - intros Href Hloc.
    apply Z.eqb_neq in Href. apply Z.eqb_neq in Hloc.
    rewrite Href, Hloc in Hscore. exact Hscore.
  - intros res b.
    pose proof (penalties_range b) as (Hh' & Hc' & Hs').
    rewrite check_block_hash_confidence, check_chain_work_confidence,
      check_state_root_confidence.
    repeat split; lra.
Qed.

End Confidence.

Lemma confidence_score_bounds_witness :
  (35 <= Integrity.confidence_score
           (Integrity.verify_chain_integrity (Scenarios.forked 1000 0) "Geth" "forensic"))%Q /\
  (Integrity.confidence_score
     (Integrity.verify_chain_integrity (Scenarios.forked 1000 0) "Geth" "forensic") == 80)%Q.
Proof.
  destruct (confidence_score_bounds (Scenarios.forked 1000 0) "Geth" "forensic")
    as (_ & _ & H35 & Hform & _).
  split.
  - apply H35; simpl; lia.
  - rewrite Hform; simpl; [reflexivity | lia | lia].
Defined.

(** ** Chain integrity: reorganisation scan *)

Section ReorgScan.

Import Integrity.

Variable w : World.
Variable h : Z.

(** One turn of the loop: the two [continue]s and the comparison
    amount to testing [mismatch_at]. *)
Lemma scan_depths_cons i rest :
  scan_depths w h (i :: rest) =
  if mismatch_at w h i then i else scan_depths w h rest.
Proof.
  unfold mismatch_at. simpl.
  destruct (Py.truthy (get_block_hash w (h - i))); simpl; [|reflexivity].
  destruct (Py.truthy (reference_block_hash w (h - i))); simpl; [|reflexivity].
  destruct (bool_decide _); reflexivity.
Qed.

(** A depth at which a hash is unavailable is passed over. *)
Lemma scan_depths_skip i rest :
  Py.truthy (get_block_hash w (h - i)) = false \/
  Py.truthy (reference_block_hash w (h - i)) = false ->
  scan_depths w h (i :: rest) = scan_depths w h rest.
Proof.
  intros H. rewrite scan_depths_cons. unfold mismatch_at.
  destruct H as [-> | ->]; [reflexivity|].
  now rewrite andb_false_r.
Qed.

Lemma mismatch_at_inv i :
  mismatch_at w h i = true ->
  exists a b, get_block_hash w (h - i) = Some a /\
              reference_block_hash w (h - i) = Some b /\
              a <> "" /\ b <> "" /\ a <> b.
Proof.
  unfold mismatch_at. intros H.
  apply andb_prop in H as [H Hne]. apply andb_prop in H as [Ha Hb].
  destruct (get_block_hash w (h - i)) as [a|]; [|discriminate].
  destruct (reference_block_hash w (h - i)) as [b|]; [|discriminate].
  exists a, b. simpl in Ha, Hb.
  apply negb_true_iff in Ha, Hb, Hne.
  apply String.eqb_neq in Ha, Hb. apply bool_decide_eq_false in Hne.
  repeat split; congruence.
Qed.

Lemma mismatch_at_agree i :
  get_block_hash w (h - i) = reference_block_hash w (h - i) ->
  mismatch_at w h i = false.
Proof.
  intros E. unfold mismatch_at. rewrite (bool_decide_eq_true_2 _ E).
  now rewrite andb_false_r.
Qed.

(** The scan over consecutive depths [m, m+1, ..., m+n-1] stops at the
    least depth with a mismatch and yields 0 when there is none. *)
Lemma scan_depths_seqZ (n : nat) :
  forall m, 0 < m ->
    let d := scan_depths w h (seqZ m (Z.of_nat n)) in
    (d = 0 /\ forall i, m <= i < m + Z.of_nat n -> mismatch_at w h i = false) \/
    (m <= d < m + Z.of_nat n /\ mismatch_at w h d = true /\
     forall j, m <= j < d -> mismatch_at w h j = false).
Proof.
  induction n as [|n IH]; intros m Hm d; subst d.
  - left. split; [reflexivity | intros i Hi; lia].
  - rewrite seqZ_cons by lia. rewrite scan_depths_cons.
    replace (Z.pred (Z.of_nat (S n))) with (Z.of_nat n) by lia.
    destruct (mismatch_at w h m) eqn:E.
    + right. split; [lia|]. split; [exact E | intros j Hj; lia].
    + destruct (IH (Z.succ m)) as [[Hd Hall] | (Hr & Hd & Hfirst)]; [lia|..].
      * left. split; [exact Hd|]. intros i Hi.
        destruct (decide (i = m)) as [->|Hne]; [exact E | apply Hall; lia].
      * right. split; [lia|]. split; [exact Hd|]. intros j Hj.
        destruct (decide (j = m)) as [->|Hne]; [exact E | apply Hfirst; lia].
Qed.

(** The window holds the depths 1 to 9 that stay below the current
    height: the range stops one short of [max_check_depth]. *)
Lemma window_spec i : In i (window h) <-> 1 <= i <= 9 /\ i < h.
Proof.
  unfold window, py_range, max_check_depth.
  rewrite <- list_elem_of_In, elem_of_seqZ. lia.
Qed.

Lemma window_as_seqZ :
  window h = seqZ 1 (Z.of_nat (Z.to_nat (Z.min max_check_depth h - 1))).
Proof. unfold window, py_range, seqZ. now rewrite Nat2Z.id. Qed.

(** The outcome of the scan, in terms of the window. *)
Lemma detect_reorganizations_spec :
  let d := snd (detect_reorganizations w h) in
  fst (detect_reorganizations w h) = (0 <? d) /\
  ((d = 0 /\ forall i, In i (window h) -> mismatch_at w h i = false) \/
   (In d (window h) /\ mismatch_at w h d = true /\
    forall j, In j (window h) -> j < d -> mismatch_at w h j = false)).
Proof.
  unfold detect_reorganizations. fold (window h). simpl. split; [reflexivity|].
  rewrite window_as_seqZ.
  set (n := Z.to_nat (Z.min max_check_depth h - 1)).
  assert (Hmem : forall i, In i (seqZ 1 (Z.of_nat n)) <-> 1 <= i < 1 + Z.of_nat n).
  { intros i. now rewrite <- list_elem_of_In, elem_of_seqZ. }
  destruct (scan_depths_seqZ n 1 ltac:(lia)) as [[Hd Hall] | (Hr & Hd & Hfirst)].
  - left. split; [exact Hd|]. intros i Hi. apply Hall, Hmem, Hi.
  - right. split; [apply Hmem, Hr|]. split; [exact Hd|].
    intros j Hj Hlt. apply Hfirst. apply Hmem in Hj. lia.
Qed.

(** The scan as the code performs it: it compares local and reference
    hashes at the heights [h - 1] down to [h - 9] (as far as they stay
    above 0); a reorg is reported exactly when some height of this
    window has a mismatch, the reported depth is then the distance from
    [h] of the first such height, and when the hashes agree at every
    height of the window the result is [(False, 0)]. *)
Theorem reorg_scan_reports_first_mismatch :
  let detected := fst (detect_reorganizations w h) in
  let depth := snd (detect_reorganizations w h) in
  (forall i, In i (window h) <-> 1 <= i <= 9 /\ i < h) /\
  (detected = true <-> exists i, In i (window h) /\ mismatch_at w h i = true) /\
  (detected = true ->
     In depth (window h) /\ mismatch_at w h depth = true /\
     forall j, In j (window h) -> j < depth -> mismatch_at w h j = false) /\
  (detected = false -> depth = 0) /\
  ((forall i, In i (window h) ->
      get_block_hash w (h - i) = reference_block_hash w (h - i)) ->
   detect_reorganizations w h = (false, 0)).
Proof.
  intros detected depth. subst detected depth.
  destruct detect_reorganizations_spec as [Hfst Hcases].
  destruct (detect_reorganizations w h) as [detected depth]. simpl in *.
  split; [exact window_spec|].
  destruct Hcases as [[Hd Hall] | (Hin & Hm & Hfirst)].
  - subst. simpl. split; [|split; [|split]].
    + split; [discriminate|]. intros (i & Hi & Hmi). rewrite (Hall i Hi) in Hmi. discriminate.
    + discriminate.
    + reflexivity.
    + reflexivity.
  - assert (Hpos : 0 < depth) by (apply window_spec in Hin; lia).
    apply Z.ltb_lt in Hpos. rewrite Hpos in Hfst. subst detected.
    split; [|split; [|split]].
    + split; [|reflexivity]. intros _. now exists depth.
    + intros _. auto.
    + discriminate.
    + intros Hagree. rewrite (mismatch_at_agree depth (Hagree depth Hin)) in Hm.
      discriminate.
Qed.

(** C10. A reorg is reported only at a height where both hashes were
    obtained and differ; a height where either hash is unavailable is
    passed over, and a window in which every height lacks a hash yields
    [(False, 0)]. *)
Theorem reorg_needs_two_fetched_hashes :
  (fst (detect_reorganizations w h) = true ->
   let depth := snd (detect_reorganizations w h) in
   In depth (window h) /\
   exists a b, get_block_hash w (h - depth) = Some a /\
               reference_block_hash w (h - depth) = Some b /\
               a <> "" /\ b <> "" /\ a <> b) /\
  (forall i rest,
      Py.truthy (get_block_hash w (h - i)) = false \/
      Py.truthy (reference_block_hash w (h - i)) = false ->
      scan_depths w h (i :: rest) = scan_depths w h rest) /\
  ((forall i, In i (window h) ->
      Py.truthy (get_block_hash w (h - i)) = false \/
      Py.truthy (reference_block_hash w (h - i)) = false) ->
   detect_reorganizations w h = (false, 0)).
Proof.
  destruct detect_reorganizations_spec as [Hfst Hcases].
  destruct (detect_reorganizations w h) as [detected depth]. simpl in *.
  split; [|split; [exact scan_depths_skip|]].
  - intros ->. destruct Hcases as [[Hd _] | (Hin & Hm & _)].
    + subst. discriminate.
    + split; [exact Hin | now apply mismatch_at_inv].
  - intros Hmissing. destruct Hcases as [[Hd _] | (Hin & Hm & _)].
    + subst. reflexivity.
    + exfalso. unfold mismatch_at in Hm.
      destruct (Hmissing depth Hin) as [E | E]; rewrite E in Hm;
        [|rewrite andb_false_r in Hm]; discriminate.
Qed.

End ReorgScan.

(** C6. With [max_check_depth = 10] the loop runs over
    [range(1, min(max_check_depth, current_block))], whose end is
    exclusive: at height 1000 a fork that starts exactly 10 blocks
    back, at height 990, is a mismatch at depth 10 and is not found
    (the result is [(False, 0)]), while a fork at height 991 is found
    at depth 9. *)
Lemma depth_ten_not_visited :
  Integrity.mismatch_at (Scenarios.forked 990 0) 1000 10 = true /\
  Integrity.detect_reorganizations (Scenarios.forked 990 0) 1000 = (false, 0) /\
  Integrity.detect_reorganizations (Scenarios.forked 991 0) 1000 = (true, 9).
Proof. repeat split; reflexivity. Qed.

Lemma reorg_scan_reports_first_mismatch_witness :
  Integrity.detect_reorganizations (Scenarios.forked 997 0) 1000 = (true, 3) /\
  Integrity.detect_reorganizations (Scenarios.forked 0 0) 1000 = (false, 0).
Proof.
  destruct (reorg_scan_reports_first_mismatch (Scenarios.forked 0 0) 1000)
    as (_ & _ & _ & _ & Hagree).
  split; [reflexivity|].
  apply Hagree. intros i Hi.
  apply (window_spec 1000) in Hi.
  assert (Hcases : i = 1 \/ i = 2 \/ i = 3 \/ i = 4 \/ i = 5 \/ i = 6 \/ i = 7 \/ i = 8 \/ i = 9)
    by lia.
  repeat (destruct Hcases as [-> | Hcases]; [reflexivity|]). subst. reflexivity.
Defined.

Lemma reorg_needs_two_fetched_hashes_witness :
  Integrity.detect_reorganizations (Scenarios.forked 997 998) 1000 = (true, 3) /\
  Integrity.get_block_hash (Scenarios.forked 997 998) 997 = Some "0xlocal" /\
  Integrity.reference_block_hash (Scenarios.forked 997 998) 997 = Some "0xsame" /\
  Integrity.detect_reorganizations (Scenarios.forked 998 998) 1000 = (false, 0).
Proof.
  destruct (reorg_needs_two_fetched_hashes (Scenarios.forked 997 998) 1000)
    as (Honly & _ & _).
  destruct (Honly eq_refl) as (_ & a & b & Ha & Hb & _).
  repeat split; reflexivity.
Defined.

(** ** Alert manager *)

Section Alerts.

Import Advanced.

Variable cfg : AlertConfig.

Lemma send_notifications_no_store a :
  List.filter is_store (send_notifications cfg a) = [].
Proof.
  unfold send_notifications.
  destruct (email_recipients cfg), (String.eqb (slack_webhook_url cfg) ""),
    (String.eqb (discord_webhook_url cfg) ""); reflexivity.
Qed.

(** A suppressed call returns the state it was given. *)
Lemma trigger_alert_suppressed env type_ message_ severity_ node_name_ st :
  in_cooldown cfg (current_time env) (alert_key type_ node_name_ message_)
              (alert_cooldowns st) = true ->
  trigger_alert cfg env type_ message_ severity_ node_name_ st = st.
Proof. intros H. unfold trigger_alert. now rewrite H. Qed.

(** A call that is not suppressed stamps the key with the current time,
    hands one row to the store, dispatches and logs. *)
Lemma trigger_alert_fired env type_ message_ severity_ node_name_ st :
  in_cooldown cfg (current_time env) (alert_key type_ node_name_ message_)
              (alert_cooldowns st) = false ->
  let st' := trigger_alert cfg env type_ message_ severity_ node_name_ st in
  alert_cooldowns st' !! alert_key type_ node_name_ message_ = Some (current_time env) /\
  stored_alerts st' =
    (stored_alerts st ++ [StoreAlert type_ node_name_ severity_ message_])%list /\
  effects st' =
    (effects st
     ++ [StoreAlert type_ node_name_ severity_ message_]
     ++ send_notifications cfg
          (mkAlert (fresh_uuid env) (now_iso env) type_ message_ severity_ node_name_
                   (hostname env))
     ++ [LogWarning ("ALERT: " ++ type_ ++ " - " ++ message_)])%list.
Proof.
  intros H st'. subst st'. unfold trigger_alert. rewrite H. simpl.
  split; [apply lookup_insert_eq|]. split; [|reflexivity].
  unfold stored_alerts. cbn [effects].
  rewrite List.filter_app. f_equal. cbn [List.filter is_store].
  rewrite List.filter_app, send_notifications_no_store. reflexivity.
Qed.

Lemma in_cooldown_lookup now key (table : gmap string Q) last :
  table !! key = Some last ->
  in_cooldown cfg now key table = true <-> (now - last < inject_Z (alert_cooldown cfg))%Q.
Proof.
  intros E. unfold in_cooldown, Py.Qltb. rewrite E.
  destruct (Qlt_le_dec _ _) as [Hlt | Hge]; split; auto; try discriminate.
  intros Hlt. lra.
Qed.

(** C7. With a 600 second cooldown, an alert key that fires at some
    time [t], is tried again 300 seconds later and once more 700 seconds
    after [t] is recorded exactly twice: the second call changes
    nothing at all (no row, no dispatch, no log line), the third one is
    recorded. *)
Theorem same_key_at_0_300_700 e0 e1 e2 type_ message_ node_name_ sev0 sev1 sev2 st :
  alert_cooldown cfg = 600 ->
  in_cooldown cfg (current_time e0) (alert_key type_ node_name_ message_)
              (alert_cooldowns st) = false ->
  (current_time e1 == current_time e0 + 300)%Q ->
  (current_time e2 == current_time e0 + 700)%Q ->
  let st1 := trigger_alert cfg e0 type_ message_ sev0 node_name_ st in
  let st2 := trigger_alert cfg e1 type_ message_ sev1 node_name_ st1 in
  let st3 := trigger_alert cfg e2 type_ message_ sev2 node_name_ st2 in
  stored_alerts st1 =
    (stored_alerts st ++ [StoreAlert type_ node_name_ sev0 message_])%list /\
  st2 = st1 /\
  stored_alerts st3 =
    (stored_alerts st ++ [StoreAlert type_ node_name_ sev0 message_;
                          StoreAlert type_ node_name_ sev2 message_])%list /\
  length (stored_alerts st2) = S (length (stored_alerts st)) /\
  length (stored_alerts st3) = S (S (length (stored_alerts st))).
Proof.
  intros Hcool Hfresh H300 H700 st1 st2 st3.
  destruct (trigger_alert_fired e0 type_ message_ sev0 node_name_ st Hfresh)
    as (Hstamp & Hstored1 & _).
  fold st1 in Hstamp, Hstored1.
  assert (Hsup : in_cooldown cfg (current_time e1) (alert_key type_ node_name_ message_)
                   (alert_cooldowns st1) = true).
  { apply (in_cooldown_lookup _ _ _ _ Hstamp). rewrite Hcool, H300.
    change (inject_Z 600) with 600%Q. lra. }
  assert (E2 : st2 = st1) by (now apply trigger_alert_suppressed).
  assert (Hexp : in_cooldown cfg (current_time e2) (alert_key type_ node_name_ message_)
                   (alert_cooldowns st2) = false).
  { rewrite E2. apply not_true_is_false. intros Hin.
    apply (in_cooldown_lookup _ _ _ _ Hstamp) in Hin. rewrite Hcool, H700 in Hin.
    change (inject_Z 600) with 600%Q in Hin. lra. }
  destruct (trigger_alert_fired e2 type_ message_ sev2 node_name_ st2 Hexp)
    as (_ & Hstored3 & _).
  fold st3 in Hstored3.
  assert (Hthree : stored_alerts st3 =
            (stored_alerts st ++ [StoreAlert type_ node_name_ sev0 message_;
                                  StoreAlert type_ node_name_ sev2 message_])%list).
  { rewrite Hstored3, E2, Hstored1, <- List.app_assoc. reflexivity. }
  split; [exact Hstored1|]. split; [exact E2|]. split; [exact Hthree|]. split.
  - rewrite E2, Hstored1, List.length_app. simpl. lia.
  - rewrite Hthree, List.length_app. simpl. lia.
Qed.

(** C9. A call suppressed by the cooldown returns the verifier
    unchanged: the cooldown entry keeps the time of the last alert
    that fired, nothing is stored, dispatched or logged.  Hence any
    run of suppressed attempts leaves the state as it was, and the
    first attempt made a full cooldown after the last firing is
    recorded whatever was tried in between. *)
Theorem suppressed_alert_changes_nothing :
  (forall env type_ message_ severity_ node_name_ st,
      in_cooldown cfg (current_time env) (alert_key type_ node_name_ message_)
                  (alert_cooldowns st) = true ->
      trigger_alert cfg env type_ message_ severity_ node_name_ st = st) /\
  (forall type_ message_ node_name_ st last attempts,
      alert_cooldowns st !! alert_key type_ node_name_ message_ = Some last ->
      Forall (fun a => (current_time (fst a) - last < inject_Z (alert_cooldown cfg))%Q)
             attempts ->
      trigger_all cfg type_ message_ node_name_ attempts st = st /\
      forall env severity_,
        (inject_Z (alert_cooldown cfg) <= current_time env - last)%Q ->
        let st' := trigger_alert cfg env type_ message_ severity_ node_name_
                     (trigger_all cfg type_ message_ node_name_ attempts st) in
        stored_alerts st' =
          (stored_alerts st ++ [StoreAlert type_ node_name_ severity_ message_])%list /\
        alert_cooldowns st' !! alert_key type_ node_name_ message_
          = Some (current_time env)).
Proof.
  split; [exact trigger_alert_suppressed|].
  intros type_ message_ node_name_ st last attempts Hlast Hall.
  assert (Hsame : trigger_all cfg type_ message_ node_name_ attempts st = st).
  { unfold trigger_all. induction Hall as [|a rest Ha _ IH]; [reflexivity|].
    simpl. rewrite trigger_alert_suppressed; [exact IH|].
    now apply (in_cooldown_lookup _ _ _ _ Hlast). }
  split; [exact Hsame|]. intros env severity_ Hdue st'. subst st'. rewrite Hsame.
  assert (Hout : in_cooldown cfg (current_time env) (alert_key type_ node_name_ message_)
                   (alert_cooldowns st) = false).
  { apply not_true_is_false. intros Hin.
    apply (in_cooldown_lookup _ _ _ _ Hlast) in Hin. lra. }
  destruct (trigger_alert_fired env type_ message_ severity_ node_name_ st Hout)
    as (Hstamp & Hstored & _).
  split; assumption.
Qed.

End Alerts.

Lemma same_key_at_0_300_700_witness :
  let fire t := Advanced.trigger_alert Advanced.default_alert_config (Scenarios.env_at t)
                  "CONSISTENCY" "Node consistency issue: minor_divergence" "warning" "" in
  fire 300%Q (fire 0%Q Advanced.initial_state) = fire 0%Q Advanced.initial_state /\
  length (Advanced.stored_alerts (fire 300%Q (fire 0%Q Advanced.initial_state))) = 1%nat /\
  length (Advanced.stored_alerts
            (fire 700%Q (fire 300%Q (fire 0%Q Advanced.initial_state)))) = 2%nat.
Proof.
  intros fire.
  destruct (same_key_at_0_300_700 Advanced.default_alert_config
              (Scenarios.env_at 0) (Scenarios.env_at 300) (Scenarios.env_at 700)
              "CONSISTENCY" "Node consistency issue: minor_divergence" ""
              "warning" "warning" "warning" Advanced.initial_state)
    as (_ & Hsecond & _ & Hone & Htwo).
  - reflexivity.
  - reflexivity.
  - reflexivity.
  - reflexivity.
  - split; [exact Hsecond|]. split; [exact Hone | exact Htwo].
Defined.

Lemma suppressed_alert_changes_nothing_witness :
  let fire t := Advanced.trigger_alert Advanced.default_alert_config (Scenarios.env_at t)
                  "NODE_METRIC" "Geth: LOW_PEER_COUNT: 3" "warning" "" in
  let st := fire 0%Q Advanced.initial_state in
  fire 599%Q st = st /\
  Advanced.trigger_all Advanced.default_alert_config
    "NODE_METRIC" "Geth: LOW_PEER_COUNT: 3" ""
    [(Scenarios.env_at 100, "warning"); (Scenarios.env_at 599, "critical")] st = st.
Proof.
  intros fire st.
  destruct (suppressed_alert_changes_nothing Advanced.default_alert_config) as [Hone Hrun].
  split.
  - apply Hone. reflexivity.
  - apply (Hrun "NODE_METRIC" "Geth: LOW_PEER_COUNT: 3" "" st 0%Q).
    + reflexivity.
    + repeat constructor.
Defined.

(** ** Health score *)

Section HealthScore.

Import Advanced.

Lemma Qmin2_le_l a b : (Py.Qmin2 a b <= a)%Q.
Proof. unfold Py.Qmin2. destruct (Qlt_le_dec b a); lra. Qed.

Lemma Qmin2_ge a b c : (c <= a)%Q -> (c <= b)%Q -> (c <= Py.Qmin2 a b)%Q.
Proof. unfold Py.Qmin2. destruct (Qlt_le_dec b a); intros; lra. Qed.

Lemma Qdiv_nonneg a b : (0 <= a)%Q -> (0 < b)%Q -> (0 <= a / b)%Q.
Proof.
  intros Ha Hb. unfold Qdiv. apply Qmult_le_0_compat; [exact Ha|].
  apply Qinv_le_0_compat. lra.
Qed.

(** C8 as stated fails: with the service running, the RPC answering, sync progress 100, 30
    peers against a threshold of 25 and resources far below any
    ceiling, a CPU sample of 0 costs five points, and a process that
    was not found (memory and CPU both 0) costs ten. *)
Lemma full_marks_counterexample :
  let idle := Scenarios.node_at "Geth" (Some 100) 30 4000 0 in
  let unseen := Scenarios.node_at "Geth" (Some 100) 30 0 0 in
  status idle = "running" /\ rpc_responsive idle = true /\
  sync_progress idle = Some 100%Q /\ 25 <= peers idle /\
  (memory_mb idle <= 16000)%Q /\ (cpu_usage_percent idle <= 80)%Q /\
  (exists s, calculate_node_health_score 25 idle = Some s /\ (s == 95)%Q /\ ~ (s == 100)%Q) /\
  (exists s, calculate_node_health_score 25 unseen = Some s /\ (s == 90)%Q /\ ~ (s == 100)%Q).
Proof.
  simpl. repeat split; try reflexivity; try lia; try (vm_compute; discriminate).
  - eexists. split; [reflexivity|]. split; [reflexivity | vm_compute; discriminate].
  - eexists. split; [reflexivity|]. split; [reflexivity | vm_compute; discriminate].
Qed.

(** C8, amended. A node whose service is running, whose RPC answers,
    whose sync progress is 100 (any value from 99.5 on), whose peer
    count reaches the threshold, and whose memory and CPU samples lie
    strictly between 0 and their ceilings (16000 MB, 80 percent) gets
    health score 100.  Every score is at most 100, and it is at least 0
    whenever peer count and sync progress are not negative; with a
    positive threshold the function always returns a score. *)
Theorem health_score_full_marks_and_range :
  (forall thr node p,
      status node = "running" -> rpc_responsive node = true ->
      sync_progress node = Some p -> (995 # 10 <= p)%Q ->
      thr <= peers node ->
      (0 < memory_mb node < 16000)%Q -> (0 < cpu_usage_percent node < 80)%Q ->
      exists s, calculate_node_health_score thr node = Some s /\ (s == 100)%Q) /\
  (forall thr node s,
      calculate_node_health_score thr node = Some s -> (s <= 100)%Q) /\
  (forall thr node s,
      calculate_node_health_score thr node = Some s ->
      0 < thr -> 0 <= peers node ->
      (forall p, sync_progress node = Some p -> (0 <= p)%Q) ->
      (0 <= s)%Q) /\
  (forall thr node,
      0 < thr -> exists s, calculate_node_health_score thr node = Some s).
Proof.
  split; [|split; [|split]].
  - intros thr node p Hst Hrpc Hp H995 Hpeers [Hm0 Hm1] [Hc0 Hc1].
    unfold calculate_node_health_score.
    rewrite Hst, Hrpc, Hp. simpl String.eqb. cbv iota.
    apply Z.leb_le in Hpeers. rewrite Hpeers.
    unfold Py.Qgeb, Py.Qgtb, Py.Qltb.
    destruct (Qlt_le_dec p (995 # 10)); [lra|].
    destruct (Qlt_le_dec 0 (memory_mb node)); [|lra].
    destruct (Qlt_le_dec (memory_mb node) 16000); [|lra].
    destruct (Qlt_le_dec 0 (cpu_usage_percent node)); [|lra].
    destruct (Qlt_le_dec (cpu_usage_percent node) 80); [|lra].
    simpl. eexists. split; [reflexivity|].
    unfold Py.Qmin2. destruct (Qlt_le_dec _ _); lra.
  - intros thr node s. unfold calculate_node_health_score.
    destruct (thr <=? peers node); [|destruct (thr =? 0); [discriminate|]];
      intros [= <-]; apply Qmin2_le_l.
  - intros thr node s Hs Hthr Hpeers Hprog.
    unfold calculate_node_health_score in Hs.
    assert (Hsync : forall base : Q, (0 <= base)%Q ->
              (0 <= match sync_progress node with
                    | Some p => if Py.Qgeb p (995 # 10) then base + 30
                                else base + p / 100 * 30
                    | None => base
                    end)%Q).
    { intros base Hbase. destruct (sync_progress node) as [p|]; [|exact Hbase].
      specialize (Hprog p eq_refl). destruct (Py.Qgeb p (995 # 10)); [lra|].
      pose proof (Qdiv_nonneg p 100 Hprog ltac:(lra)). nra. }
    assert (Hratio : (0 <= inject_Z (peers node) / inject_Z thr)%Q).
    { apply Qdiv_nonneg.
      - change 0%Q with (inject_Z 0). now rewrite <- Zle_Qle.
      - change 0%Q with (inject_Z 0). now rewrite <- Zlt_Qlt. }
    set (base := (if rpc_responsive node
                  then (if String.eqb (status node) "running" then 0 + 25 else 0) + 25
                  else if String.eqb (status node) "running" then 0 + 25 else 0)%Q) in *.
    assert (Hbase : (0 <= base)%Q).
    { subst base. destruct (rpc_responsive node), (String.eqb (status node) "running"); lra. }
    specialize (Hsync base Hbase).
    destruct (thr <=? peers node).
    + injection Hs as <-. apply Qmin2_ge; [lra|].
      destruct (_ && _), (_ && _); lra.
    + destruct (thr =? 0); [discriminate|]. injection Hs as <-.
      apply Qmin2_ge; [lra|].
      destruct (_ && _), (_ && _); lra.
  - intros thr node Hthr. unfold calculate_node_health_score.
    destruct (thr <=? peers node); [eexists; reflexivity|].
    assert (E : (thr =? 0) = false) by (apply Z.eqb_neq; lia).
    rewrite E. eexists; reflexivity.
Qed.

End HealthScore.

Lemma health_score_full_marks_and_range_witness :
  exists s,
    Advanced.calculate_node_health_score 25 (Scenarios.node_at "Geth" (Some 100) 30 4000 10)
      = Some s /\
    (s == 100)%Q /\ (0 <= s <= 100)%Q.
Proof.
  destruct health_score_full_marks_and_range as (Hfull & Hmax & Hmin & Htotal).
  destruct (Hfull 25 (Scenarios.node_at "Geth" (Some 100) 30 4000 10) 100%Q)
    as (s & Hs & H100).
  - reflexivity.
  - reflexivity.
  - reflexivity.
  - vm_compute. discriminate.
  - simpl. lia.
  - split; reflexivity.
  - split; reflexivity.
  - exists s. split; [exact Hs|]. split; [exact H100|]. split.
    + apply (Hmin 25 _ s Hs); simpl; [lia | lia |].
      intros p [= <-]. vm_compute. discriminate.
    + apply (Hmax 25 _ s Hs).
Defined.

(** ** Sync progress of the collectors *)

Section SyncProgress.

(** In the comprehensive collector the progress is a function of the
    two block numbers the status ends up with. *)
Lemma comprehensive_progress_formula type_ net n :
  let st := Collector.get_node_sync_status type_ net n in
  Comprehensive.sync_progress st =
  if 0 <? Comprehensive.highest_block st
  then Py.Qmin2 100 (inject_Z (Comprehensive.current_block st)
                     / inject_Z (Comprehensive.highest_block st) * 100)%Q
  else 0%Q.
Proof.
  unfold Collector.get_node_sync_status.
  destruct (negb _); [reflexivity|].
  destruct (Collector.rpc_endpoint n) as [url|]; [|reflexivity].
  destruct (String.eqb url ""); [reflexivity|].
  destruct (Collector.get_rpc_sync_data n) as [sd|]; reflexivity.
Qed.



(** In the basic collector, the answer [{"result": false}] of a synced
    node makes the branch that has just assigned 100.0 call [.get] on
    [False]; the handler then stores 0. *)
Lemma basic_not_syncing_handler data stderr n :
  Rpc.get data "result" (Rpc.VObject []) = Some Rpc.VFalse ->
  let node := Basic.rpc_connectivity_check (Basic.Exited 0 (Some data) stderr) n in
  Basic.rpc_responsive node = true /\
  Basic.sync_progress node = Some 0%Q /\
  Basic.current_block node = Some 0 /\ Basic.highest_block node = Some 0.
Proof.
  intros H. unfold Basic.rpc_connectivity_check, Basic.read_sync_answer. simpl.
  rewrite H. simpl. repeat split; reflexivity.
Qed.



End SyncProgress.



(** * Further properties *)

(** ** Chain integrity: verdict, issues and flags *)

Section IntegrityVerdict.

Import Integrity.
Import IntegrityReport.

Variable w : World.

Lemma Qsum_from (xs : list Q) (a : Q) : (fold_left Qplus xs a == a + Qsum xs)%Q.
Proof.
  unfold Qsum. revert a. induction xs as [|x xs IH]; intros a; simpl.
  - ring.
  - rewrite IH, (IH (0 + x)%Q). ring.
Qed.

Lemma Qsum_cons x xs : (Qsum (x :: xs) == x + Qsum xs)%Q.
Proof. unfold Qsum at 1. simpl. rewrite Qsum_from. ring. Qed.

Lemma Qsum_app xs ys : (Qsum (xs ++ ys) == Qsum xs + Qsum ys)%Q.
Proof.
  induction xs as [|x xs IH]; simpl.
  - unfold Qsum at 2. simpl. ring.
  - rewrite !Qsum_cons, IH. ring.
Qed.

Lemma accounted_penalise i p r :
  (issue_cost i == p)%Q -> accounted r -> accounted (penalise i p r).
Proof.
  unfold accounted. intros Hp H. simpl.
  rewrite map_app, Qsum_app, H. simpl map. rewrite Qsum_cons, Hp.
  unfold Qsum. simpl. ring.
Qed.

Lemma accounted_checks blk r :
  accounted r -> accounted (perform_comprehensive_integrity_checks w r blk).
Proof.
  intros H. unfold perform_comprehensive_integrity_checks.
  assert (H1 : accounted (check_block_hash w blk r)).
  { unfold check_block_hash. destruct (_ && _); [|exact H].
    destruct (negb _); [|exact H]. apply accounted_penalise; [reflexivity | exact H]. }
  assert (H2 : accounted (check_chain_work w blk (check_block_hash w blk r))).
  { unfold check_chain_work. destruct (negb _); [|exact H1].
    apply accounted_penalise; [reflexivity | exact H1]. }
  unfold check_state_root. destruct (0 <? blk); [|exact H2].
  destruct (negb _); [|exact H2]. apply accounted_penalise; [reflexivity | exact H2].
Qed.

Lemma accounted_verify name level : accounted (verify_chain_integrity w name level).
Proof.
  unfold verify_chain_integrity.
  destruct (reference_block_number w =? 0); [unfold accounted; vm_compute; reflexivity|].
  destruct (local_block_number w =? 0); [unfold accounted; vm_compute; reflexivity|].
  set (r0 := set_block_diff _ _).
  assert (Hg : accounted (grade r0)).
  { unfold grade. destruct (block_diff r0 <=? 5); [unfold accounted; vm_compute; reflexivity|].
    destruct (block_diff r0 <=? 20); unfold accounted; simpl; unfold Qsum; simpl; ring. }
  destruct (deep_level level); [|exact Hg].
  destruct (detect_reorganizations w (local_block_number w)) as [d n].
  apply (accounted_checks _ _ Hg).
Qed.

Lemma issue_cost_positive i : (0 < issue_cost i)%Q.
Proof. destruct i; reflexivity. Qed.

Lemma Qsum_costs_positive (l : list Issue) :
  l <> [] -> (0 < Qsum (map issue_cost l))%Q.
Proof.
  induction l as [|i l IH]; [congruence|]. intros _. simpl. rewrite Qsum_cons.
  pose proof (issue_cost_positive i). destruct l as [|j l].
  - unfold Qsum. simpl. lra.
  - specialize (IH ltac:(discriminate)). lra.
Qed.

(** X1. The confidence score is 100 minus the costs of the issues in
    the list (100 for a missing block number or a node more than 20
    blocks behind, 20 for a lagging node or a hash mismatch, 15 for a
    failed structural check, 10 for a malformed state root): no penalty
    is applied without its issue being recorded, and the score is 100
    exactly when the issue list is empty. *)
Theorem confidence_accounts_for_issues name level :
  let r := verify_chain_integrity w name level in
  (confidence_score r == 100 - Qsum (map issue_cost (issues r)))%Q /\
  ((confidence_score r == 100)%Q <-> issues r = []).
Proof.
  intros r. pose proof (accounted_verify name level) as H. fold r in H.
  unfold accounted in H. split; [exact H|]. split.
  - intros E. destruct (issues r) as [|i l] eqn:El; [reflexivity|].
    pose proof (Qsum_costs_positive (i :: l) ltac:(discriminate)). lra.
  - intros E. rewrite E in H. rewrite H. reflexivity.
Qed.

Lemma checks_keep_validity blk r :
  is_valid (perform_comprehensive_integrity_checks w r blk) = is_valid r /\
  block_diff (perform_comprehensive_integrity_checks w r blk) = block_diff r.
Proof.
  unfold perform_comprehensive_integrity_checks, check_state_root, check_chain_work,
    check_block_hash.
  destruct (0 <? blk); simpl;
    repeat match goal with |- context [if ?b then _ else _] => destruct b; simpl end;
    split; reflexivity.
Qed.

(** X2. A node is valid exactly when both block numbers were obtained
    and it is at most 20 blocks behind the reference; the hash, structure
    and state-root checks and the reorg scan never change the verdict,
    at any verification level. *)
Theorem validity_depends_on_block_difference_only name level :
  let r := verify_chain_integrity w name level in
  (is_valid r = true <->
   reference_block_number w <> 0 /\ local_block_number w <> 0 /\
   reference_block_number w - local_block_number w <= 20) /\
  (is_valid r = true ->
   block_diff r = reference_block_number w - local_block_number w).
Proof.
  intros r. subst r. unfold verify_chain_integrity.
  destruct (reference_block_number w =? 0) eqn:Eref.
  { apply Z.eqb_eq in Eref. simpl. split; [split|]; [discriminate | lia | discriminate]. }
  destruct (local_block_number w =? 0) eqn:Eloc.
  { apply Z.eqb_eq in Eloc. simpl. split; [split|]; [discriminate | lia | discriminate]. }
  apply Z.eqb_neq in Eref, Eloc.
  set (r0 := set_block_diff _ _).
  assert (Hg : (is_valid (grade r0) = true <->
                reference_block_number w - local_block_number w <= 20) /\
               block_diff (grade r0) = reference_block_number w - local_block_number w).
  { unfold grade. change (block_diff r0)
      with (reference_block_number w - local_block_number w).
    destruct (_ <=? 5) eqn:E5; [apply Z.leb_le in E5; simpl; split; [split|]; auto; lia|].
    destruct (_ <=? 20) eqn:E20; simpl.
    - apply Z.leb_le in E20. split; [split|]; auto.
    - apply Z.leb_gt in E20. split; [split|]; [discriminate | lia | reflexivity]. }
  destruct Hg as [Hv Hd].
  assert (Hfinal : forall r', is_valid r' = is_valid (grade r0) ->
                              block_diff r' = block_diff (grade r0) ->
            (is_valid r' = true <->
             reference_block_number w <> 0 /\ local_block_number w <> 0 /\
             reference_block_number w - local_block_number w <= 20) /\
            (is_valid r' = true ->
             block_diff r' = reference_block_number w - local_block_number w)).
  { intros r' E1 E2. rewrite E1, E2, Hv, Hd. split; [tauto | reflexivity]. }
  destruct (deep_level level); [|now apply Hfinal].
  destruct (detect_reorganizations w (local_block_number w)) as [d n].
  apply Hfinal; simpl; apply checks_keep_validity.
Qed.

(** X3. [hash_matches] is true only at the comprehensive and forensic
    levels, with both block numbers known and both hashes of the local
    head obtained, non-empty and equal; it is false both when the
    hashes differ and when they were never compared. *)
Theorem hash_matches_needs_a_comparison name level :
  let r := verify_chain_integrity w name level in
  let blk := local_block_number w in
  hash_matches r = true <->
  deep_level level = true /\ reference_block_number w <> 0 /\ blk <> 0 /\
  exists a, a <> "" /\ get_block_hash w blk = Some a /\ reference_block_hash w blk = Some a.
Proof.
  intros r blk. subst r blk. unfold verify_chain_integrity.
  destruct (reference_block_number w =? 0) eqn:Eref.
  { apply Z.eqb_eq in Eref. simpl. split; [discriminate | tauto]. }
  destruct (local_block_number w =? 0) eqn:Eloc.
  { apply Z.eqb_eq in Eloc. simpl. split; [discriminate | tauto]. }
  apply Z.eqb_neq in Eref, Eloc.
  set (r0 := set_block_diff _ _).
  assert (Hg : hash_matches (grade r0) = false).
  { unfold grade. destruct (_ <=? 5); [reflexivity|]. destruct (_ <=? 20); reflexivity. }
  destruct (deep_level level).
  2:{ rewrite Hg. split; [discriminate | intros [? _]; discriminate]. }
  destruct (detect_reorganizations w (local_block_number w)) as [d n].
  change (hash_matches (set_reorg d n ?x)) with (hash_matches x).
  set (blk := local_block_number w) in *.
  assert (Hc : hash_matches (perform_comprehensive_integrity_checks w (grade r0) blk)
               = hash_matches (check_block_hash w blk (grade r0))).
  { unfold perform_comprehensive_integrity_checks, check_state_root, check_chain_work.
    destruct (0 <? blk); simpl;
      repeat match goal with |- context [if ?b then _ else _] => destruct b; simpl end;
      reflexivity. }
  rewrite Hc. unfold check_block_hash.
  destruct (get_block_hash w blk) as [a|] eqn:Ea; simpl.
  2:{ rewrite Hg. split; [discriminate | intros (_ & _ & _ & x & _ & ? & _); discriminate]. }
  destruct (String.eqb a "") eqn:Ena; simpl.
  { apply String.eqb_eq in Ena. rewrite Hg.
    split; [discriminate | intros (_ & _ & _ & x & Hx & [= ->] & _); congruence]. }
  apply String.eqb_neq in Ena.
  destruct (reference_block_hash w blk) as [b|] eqn:Eb; simpl.
  2:{ rewrite Hg. split; [discriminate | intros (_ & _ & _ & x & _ & _ & ?); discriminate]. }
  destruct (String.eqb b "") eqn:Enb; simpl.
  { apply String.eqb_eq in Enb. rewrite Hg.
    split; [discriminate | intros (_ & _ & _ & x & Hx & [= ->] & [= ->]); congruence]. }
  destruct (bool_decide (Some a = Some b)) eqn:Eeq; simpl.
  - apply bool_decide_eq_true in Eeq. injection Eeq as <-.
    split; [|reflexivity]. intros _. repeat split; auto. now exists a.
  - apply bool_decide_eq_false in Eeq.
    split; [discriminate | intros (_ & _ & _ & x & _ & [= ->] & [= ->]); congruence].
Qed.

End IntegrityVerdict.

Lemma validity_depends_on_block_difference_only_witness :
  Integrity.is_valid
    (Integrity.verify_chain_integrity (Scenarios.forked 1000 0) "Geth" "forensic") = true /\
  Integrity.hash_matches
    (Integrity.verify_chain_integrity (Scenarios.forked 1000 0) "Geth" "forensic") = false.
Proof.
  destruct (validity_depends_on_block_difference_only (Scenarios.forked 1000 0)
              "Geth" "forensic") as [Hiff _].
  split; [|reflexivity].
  apply Hiff. simpl. lia.
Defined.

(** ** Chain integrity: reach of the reorg scan *)

Section ReorgReach.

Import Integrity.

(** X4. The reported depth is between 0 and 9 and the height it points
    at is at least 1: block 0 is never compared, and for a current
    height of 1 or less (negative numbers included) nothing is scanned
    and the result is [(False, 0)]. *)
Theorem reorg_depth_range w h :
  let depth := snd (detect_reorganizations w h) in
  0 <= depth <= 9 /\
  (fst (detect_reorganizations w h) = true -> 1 <= depth /\ 1 <= h - depth) /\
  (h <= 1 -> detect_reorganizations w h = (false, 0)).
Proof.
  intros depth. subst depth.
  destruct (detect_reorganizations_spec w h) as [Hfst Hcases].
  destruct (detect_reorganizations w h) as [detected depth]. simpl in *.
  destruct Hcases as [[-> _] | (Hin & _ & _)].
  - subst detected. simpl. split; [lia|]. split; [discriminate | reflexivity].
  - apply window_spec in Hin. split; [lia|]. split; [lia|]. lia.
Qed.

Lemma scan_depths_agree w1 w2 h depths :
  (forall i, In i depths ->
     get_block_hash w1 (h - i) = get_block_hash w2 (h - i) /\
     reference_block_hash w1 (h - i) = reference_block_hash w2 (h - i)) ->
  scan_depths w1 h depths = scan_depths w2 h depths.
Proof.
  induction depths as [|i rest IH]; intros H; [reflexivity|].
  rewrite !scan_depths_cons. unfold mismatch_at.
  destruct (H i (or_introl eq_refl)) as [-> ->].
  rewrite IH; [reflexivity|]. intros j Hj. apply H. now right.
Qed.

(** X5. The scan reads nothing outside the nine heights below the
    current one: two worlds that give the same local and reference
    hashes at the heights [h - 9] to [h - 1] get the same result,
    whatever they answer elsewhere (the head block [h] included). *)
Theorem reorg_scan_reads_window_only w1 w2 h :
  (forall n, h - 9 <= n <= h - 1 ->
     get_block_hash w1 n = get_block_hash w2 n /\
     reference_block_hash w1 n = reference_block_hash w2 n) ->
  detect_reorganizations w1 h = detect_reorganizations w2 h.
Proof.
  intros H. unfold detect_reorganizations. fold (window h).
  rewrite (scan_depths_agree w1 w2 h (window h)); [reflexivity|].
  intros i Hi. apply window_spec in Hi. apply H. lia.
Qed.

End ReorgReach.

Lemma reorg_depth_range_witness :
  Integrity.detect_reorganizations (Scenarios.forked 0 0) 1 = (false, 0) /\
  1 <= 1000 - snd (Integrity.detect_reorganizations (Scenarios.forked 997 0) 1000).
Proof.
  destruct (reorg_depth_range (Scenarios.forked 0 0) 1) as (_ & _ & Hlow).
  destruct (reorg_depth_range (Scenarios.forked 997 0) 1000) as (_ & Hhit & _).
  split; [apply Hlow; lia | apply (Hhit eq_refl)].
Defined.

Lemma reorg_scan_reads_window_only_witness :
  Integrity.detect_reorganizations (Scenarios.forked 1000 0) 1000
  = Integrity.detect_reorganizations (Scenarios.forked 990 0) 1000.
Proof.
  apply reorg_scan_reads_window_only. intros n Hn. unfold Scenarios.forked. simpl.
  unfold Integrity.get_block_hash. simpl.
  replace (n =? 1000) with false by (symmetry; apply Z.eqb_neq; lia).
  replace (n =? 990) with false by (symmetry; apply Z.eqb_neq; lia).
  split; reflexivity.
Defined.

(** ** The integrity report *)

Section IntegrityReportFacts.

Import Integrity.
Import IntegrityReport.

Lemma of_nat_S n : (of_nat (S n) == of_nat n + 1)%Q.
Proof.
  unfold of_nat. rewrite Nat2Z.inj_succ. unfold Z.succ. rewrite inject_Z_plus. reflexivity.
Qed.

Lemma of_nat_nonneg n : (0 <= of_nat n)%Q.
Proof. unfold of_nat. change 0%Q with (inject_Z 0). rewrite <- Zle_Qle. lia. Qed.

Lemma of_nat_le n m : (n <= m)%nat -> (of_nat n <= of_nat m)%Q.
Proof. intros H. unfold of_nat. rewrite <- Zle_Qle. lia. Qed.

Lemma Qsum_bounds (xs : list Q) (a b : Q) :
  (forall x, In x xs -> a <= x <= b)%Q ->
  (a * of_nat (length xs) <= Qsum xs <= b * of_nat (length xs))%Q.
Proof.
  induction xs as [|x xs IH]; intros H.
  - change (of_nat (length [])) with 0%Q. change (Qsum []) with 0%Q. lra.
  - rewrite Qsum_cons. cbn [length]. rewrite of_nat_S.
    destruct (H x (or_introl eq_refl)) as [Ha Hb].
    destruct IH as [IHa IHb]; [intros y Hy; apply H; now right|]. lra.
Qed.

(** The mean of a non-empty list lies between any bounds of its
    elements. *)
Lemma mean_bounds (xs : list Q) (a b : Q) :
  xs <> [] ->
  (forall x, In x xs -> a <= x <= b)%Q ->
  (a <= Qsum xs / of_nat (length xs) <= b)%Q.
Proof.
  intros Hne H. destruct (Qsum_bounds xs a b H) as [Ha Hb].
  assert (Hpos : (0 < of_nat (length xs))%Q).
  { destruct xs as [|x xs]; [congruence|]. cbn [length]. rewrite of_nat_S.
    pose proof (of_nat_nonneg (length xs)). lra. }
  split.
  - apply Qle_shift_div_l; [exact Hpos | exact Ha].
  - apply Qle_shift_div_r; [exact Hpos | exact Hb].
Qed.

Lemma filter_split_length {A} (f : A -> bool) (l : list A) :
  (length (List.filter f l) + length (List.filter (fun x => negb (f x)) l) = length l)%nat.
Proof.
  induction l as [|x l IH]; [reflexivity|]. simpl. destruct (f x); simpl; lia.
Qed.

(** X6. In the report, valid and invalid nodes add up to the total,
    the invalid count is the number of results with [is_valid] false,
    and the validity percentage lies between 0 and 100.  For an empty
    list of results every figure is 0, nothing is divided, and the one
    recommendation is the low-confidence one (the mean is taken as 0). *)
Theorem integrity_report_counts results :
  let rep := generate_integrity_report results in
  total_nodes rep = length results /\
  (valid_nodes rep + invalid_nodes rep = total_nodes rep)%nat /\
  invalid_nodes rep = length (List.filter (fun r => negb (is_valid r)) results) /\
  (0 <= validity_percentage rep <= 100)%Q /\
  (results = [] ->
   valid_nodes rep = 0%nat /\ validity_percentage rep = 0%Q /\
   average_confidence_score rep = 0%Q /\
   recommendations rep = [InvestigateSynchronization]).
Proof.
  intros rep. subst rep. unfold generate_integrity_report. cbn [total_nodes valid_nodes
    invalid_nodes validity_percentage average_confidence_score recommendations].
  pose proof (filter_split_length is_valid results) as Hsplit.
  split; [reflexivity|]. split; [lia|]. split; [lia|]. split.
  - destruct (0 <? length results)%nat eqn:E; [|lra].
    apply Nat.ltb_lt in E.
    assert (Hpos : (0 < of_nat (length results))%Q).
    { unfold of_nat. change 0%Q with (inject_Z 0). rewrite <- Zlt_Qlt. lia. }
    assert (Hle : (of_nat (length (List.filter is_valid results))
                   <= of_nat (length results))%Q) by (apply of_nat_le; lia).
    pose proof (of_nat_nonneg (length (List.filter is_valid results))) as H0.
    assert (Hr : (0 <= of_nat (length (List.filter is_valid results))
                       / of_nat (length results) <= 1)%Q).
    { split; [apply Qle_shift_div_l | apply Qle_shift_div_r]; try exact Hpos; lra. }
    lra.
  - intros ->. simpl. repeat split; reflexivity.
Qed.

(** X7. The report recommends monitoring network stability exactly
    when some node reported a reorg, names the number of failed nodes
    exactly when some node is invalid (and then the number is the
    invalid count), and its issue list holds exactly the issues of the
    individual results. *)
Theorem integrity_report_recommendations results :
  let rep := generate_integrity_report results in
  (In MonitorNetworkStability (recommendations rep) <->
   exists r, In r results /\ reorg_detected r = true) /\
  (forall n, In (NodesFailedVerification n) (recommendations rep) <->
             n = invalid_nodes rep /\ exists r, In r results /\ is_valid r = false) /\
  (forall i, In i (report_issues rep) <-> exists r, In r results /\ In i (issues r)).
Proof.
  intros rep. subst rep. unfold generate_integrity_report.
  cbn [invalid_nodes recommendations report_issues].
  pose proof (filter_split_length is_valid results) as Hsplit.
  set (avg := if (0 <? length results)%nat then _ else _).
  split; [|split].
  - rewrite !in_app_iff. rewrite <- existsb_exists, <- (Bool.not_false_iff_true).
    destruct (existsb reorg_detected results), (Py.Qltb avg 80),
      (List.filter (fun r => negb (is_valid r)) results); simpl;
      split; intros H; try congruence; try (intuition congruence); now left.
  - intros n. rewrite !in_app_iff.
    assert (Hex : (exists r, In r results /\ is_valid r = false) <->
                  List.filter (fun r => negb (is_valid r)) results <> []).
    { split.
      - intros (r & Hin & Hv) E.
        assert (Hf : In r (List.filter (fun r => negb (is_valid r)) results)).
        { apply List.filter_In. split; [exact Hin|]. now rewrite Hv. }
        rewrite E in Hf. destruct Hf.
      - intros Hne.
        destruct (List.filter (fun r => negb (is_valid r)) results) as [|r l] eqn:E;
          [congruence|].
        assert (Hf : In r (List.filter (fun r => negb (is_valid r)) results))
          by (rewrite E; now left).
        apply List.filter_In in Hf. destruct Hf as [Hin Hv]. exists r.
        split; [exact Hin|]. now apply negb_true_iff. }
    rewrite Hex.
    replace (length results - length (List.filter is_valid results))%nat
      with (length (List.filter (fun r => negb (is_valid r)) results)) by lia.
    destruct (existsb reorg_detected results), (Py.Qltb avg 80),
      (List.filter (fun r => negb (is_valid r)) results) as [|r l]; simpl;
      split; intros H; try (intuition congruence);
      try (destruct H as [-> _]; intuition).
  - intros i. rewrite in_concat. split.
    + intros (l & Hl & Hi). apply in_map_iff in Hl. destruct Hl as (r & <- & Hr). now exists r.
    + intros (r & Hr & Hi). exists (issues r). split; [|exact Hi].
      apply in_map_iff. now exists r.
Qed.

Lemma verify_confidence_range w name level :
  (-45 <= confidence_score (verify_chain_integrity w name level) <= 100)%Q.
Proof.
  pose proof (verify_confidence w name level) as Hscore.
  pose proof (penalties_range w (local_block_number w)) as (Hh & Hc & Hs).
  pose proof (starting_confidence_range
                (reference_block_number w - local_block_number w)) as [Hstart _].
  destruct ((reference_block_number w =? 0) || (local_block_number w =? 0)).
  - rewrite Hscore. lra.
  - cbv zeta in Hscore. destruct (deep_level level); rewrite Hscore; lra.
Qed.

(** X8. For the results of [verify_multiple_nodes] on at least one
    node, the report counts one entry per node and its average
    confidence lies between -45 and 100. *)
Theorem report_of_verified_nodes nodes_ level :
  nodes_ <> [] ->
  let rep := generate_integrity_report (verify_multiple_nodes nodes_ level) in
  total_nodes rep = length nodes_ /\
  length (nodes rep) = length nodes_ /\
  (-45 <= average_confidence_score rep <= 100)%Q.
Proof.
  intros Hne rep. subst rep. unfold generate_integrity_report.
  cbn [total_nodes nodes average_confidence_score].
  unfold verify_multiple_nodes. rewrite !length_map.
  split; [reflexivity|]. split; [reflexivity|].
  destruct nodes_ as [|n0 rest]; [congruence|].
  change (0 <? length (n0 :: rest))%nat with true. cbv iota.
  set (scores := map confidence_score _).
  assert (Hlen : length scores = length (n0 :: rest)).
  { subst scores. now rewrite !length_map. }
  rewrite <- Hlen. apply mean_bounds.
  - subst scores. discriminate.
  - intros x Hx. subst scores. apply in_map_iff in Hx. destruct Hx as (r & <- & Hr).
    apply in_map_iff in Hr. destruct Hr as ([name w] & <- & _).
    apply verify_confidence_range.
Qed.

End IntegrityReportFacts.

Lemma report_of_verified_nodes_witness :
  let rep := IntegrityReport.generate_integrity_report
               (IntegrityReport.verify_multiple_nodes
                  [("Erigon", Scenarios.far_behind); ("Geth", Scenarios.forked 1000 0)]
                  "comprehensive") in
  IntegrityReport.total_nodes rep = 2%nat /\
  IntegrityReport.valid_nodes rep = 1%nat /\
  (IntegrityReport.average_confidence_score rep <= 100)%Q.
Proof.
  intros rep.
  destruct (report_of_verified_nodes
              [("Erigon", Scenarios.far_behind); ("Geth", Scenarios.forked 1000 0)]
              "comprehensive" ltac:(discriminate)) as (Ht & _ & _ & Hmax).
  split; [exact Ht|]. split; [reflexivity | exact Hmax].
Defined.

(** ** The reference cache *)

Section ReferenceCacheFacts.

Import ReferenceCache.

Lemma Qltb_true_iff a b : Py.Qltb a b = true <-> (a < b)%Q.
Proof.
  unfold Py.Qltb. destruct (Qlt_le_dec a b); split; intros H; try reflexivity;
    try assumption; try discriminate. lra.
Qed.

Lemma Qltb_false_iff a b : Py.Qltb a b = false <-> (b <= a)%Q.
Proof.
  unfold Py.Qltb. destruct (Qlt_le_dec a b); split; intros H; try reflexivity;
    try assumption; try discriminate. lra.
Qed.

Lemma number_hit now stamp e b net c n ts :
  numbers c !! net = Some (n, ts) -> (now - ts < cache_timeout)%Q ->
  get_reference_block_number now stamp e b net c = (n, c).
Proof.
  intros Hc Hlive. unfold get_reference_block_number. rewrite Hc.
  apply Qltb_true_iff in Hlive. now rewrite Hlive.
Qed.

Lemma number_on_miss now stamp e b net c :
  number_miss now net c ->
  get_reference_block_number now stamp e b net c =
  match first_positive [e; b; get_infura_block] with
  | Some n => (n, {| numbers := <[net := (n, stamp)]> (numbers c); hashes := hashes c |})
  | None => (0, c)
  end.
Proof.
  unfold number_miss, get_reference_block_number.
  destruct (numbers c !! net) as [[n ts]|]; [|reflexivity].
  intros H. apply Qltb_false_iff in H. now rewrite H.
Qed.

Lemma number_hit_or_miss now net c :
  (exists n ts, numbers c !! net = Some (n, ts) /\ (now - ts < cache_timeout)%Q) \/
  number_miss now net c.
Proof.
  unfold number_miss. destruct (numbers c !! net) as [[n ts]|]; [|now right].
  destruct (Qlt_le_dec (now - ts) cache_timeout); [left; eauto | now right].
Qed.

Lemma first_positive_is_positive sources n :
  first_positive sources = Some n -> 0 < n.
Proof.
  induction sources as [|[|m] rest IH]; simpl; [discriminate | exact IH |].
  destruct (0 <? m) eqn:E; [|exact IH]. intros [= <-]. now apply Z.ltb_lt.
Qed.

(** X9. A positive reference block number, once returned, is in the
    cache and is returned unchanged, with the cache untouched and
    whatever the sources would answer, by every lookup for the same
    network made less than 300 seconds after the entry was stored. *)
Theorem reference_number_round_trip now stamp e b net c n c' :
  get_reference_block_number now stamp e b net c = (n, c') ->
  0 < n ->
  exists ts,
    numbers c' !! net = Some (n, ts) /\
    forall now' stamp' e' b',
      (now' - ts < cache_timeout)%Q ->
      get_reference_block_number now' stamp' e' b' net c' = (n, c').
Proof.
  intros Hget Hpos.
  destruct (number_hit_or_miss now net c) as [(m & ts & Hc & Hlive) | Hmiss].
  - rewrite (number_hit _ stamp e b _ _ _ _ Hc Hlive) in Hget. injection Hget as <- <-.
    exists ts. split; [exact Hc|]. intros. now apply number_hit with ts.
  - rewrite (number_on_miss _ _ _ _ _ _ Hmiss) in Hget.
    destruct (first_positive _) as [m|]; injection Hget as <- <-; [|lia].
    exists stamp. assert (E : <[net := (m, stamp)]> (numbers c) !! net = Some (m, stamp))
      by apply lookup_insert_eq.
    split; [exact E|]. intros. now apply number_hit with stamp.
Qed.

(** X10. When the cache has no live entry for the network, the sources
    are tried in order: a positive Etherscan answer is taken without
    regard to Beaconcha.in, otherwise a positive Beaconcha.in answer;
    when neither gives a positive number the result is 0 and the cache
    is left exactly as it was, so a failure is never cached and an
    expired entry is not removed.  A lookup never changes the entry of
    another network nor any cached hash, and its result is positive
    whenever it is not that 0. *)
Theorem reference_number_sources_in_order now stamp e b net c :
  number_miss now net c ->
  let r := get_reference_block_number now stamp e b net c in
  (forall n, e = Returned n -> 0 < n -> fst r = n) /\
  (forall m, (e = Raised \/ exists n, e = Returned n /\ n <= 0) ->
             b = Returned m -> 0 < m -> fst r = m) /\
  ((e = Raised \/ exists n, e = Returned n /\ n <= 0) ->
   (b = Raised \/ exists m, b = Returned m /\ m <= 0) ->
   r = (0, c)) /\
  (fst r = 0 \/ 0 < fst r) /\
  (forall net', net' <> net -> numbers (snd r) !! net' = numbers c !! net') /\
  hashes (snd r) = hashes c.
Proof.
  intros Hmiss r. subst r. rewrite (number_on_miss _ _ _ _ _ _ Hmiss).
  assert (Hfail : forall o, (o = Raised \/ exists n, o = Returned n /\ n <= 0) ->
                  forall rest, first_positive (o :: rest) = first_positive rest).
  { intros o [-> | (n & -> & Hn)] rest; [reflexivity|]. simpl.
    apply Z.ltb_ge in Hn. now rewrite Hn. }
  split; [|split; [|split; [|split; [|split]]]].
  - intros n -> Hn. simpl. apply Z.ltb_lt in Hn. now rewrite Hn.
  - intros m He -> Hm. rewrite (Hfail e He). simpl. apply Z.ltb_lt in Hm. now rewrite Hm.
  - intros He Hb. rewrite (Hfail e He), (Hfail b Hb). reflexivity.
  - destruct (first_positive _) as [n|] eqn:E; [|now left].
    right. simpl. now apply first_positive_is_positive in E.
  - intros net' Hne. destruct (first_positive _) as [n|]; [|reflexivity].
    simpl. now apply lookup_insert_ne.
  - destruct (first_positive _) as [n|]; reflexivity.
Qed.

Lemma hash_hit now stamp answer net blk c h ts :
  hashes c !! (net, blk) = Some (h, ts) -> (now - ts < cache_timeout)%Q ->
  get_reference_block_hash now stamp answer net blk c = (Some h, c).
Proof.
  intros Hc Hlive. unfold get_reference_block_hash. rewrite Hc.
  apply Qltb_true_iff in Hlive. now rewrite Hlive.
Qed.

(** X11. A reference hash that was returned is a non-empty string (given
    that the cache held none before), it is in the cache afterwards, and
    every lookup for the same network and height made less than 300
    seconds after it was stored returns it with the cache untouched,
    whatever the provider would answer; an empty or missing answer is
    never stored, and entries of other heights and the cached block
    numbers are never changed. *)
Theorem reference_hash_round_trip now stamp answer net blk c :
  let r := get_reference_block_hash now stamp answer net blk c in
  (forall h, fst r = Some h ->
     exists ts,
       hashes (snd r) !! (net, blk) = Some (h, ts) /\
       forall now' stamp' answer',
         (now' - ts < cache_timeout)%Q ->
         get_reference_block_hash now' stamp' answer' net blk (snd r) = (Some h, snd r)) /\
  (fst r = None -> snd r = c) /\
  (nonempty_hashes c ->
   nonempty_hashes (snd r) /\ forall h, fst r = Some h -> h <> "") /\
  (forall key, key <> (net, blk) -> hashes (snd r) !! key = hashes c !! key) /\
  numbers (snd r) = numbers c.
Proof.
  intros r. subst r. unfold get_reference_block_hash.
  set (fresh := match answer with Some _ => _ | None => _ end).
  assert (Hfresh :
    (forall h, fst fresh = Some h ->
       h <> "" /\ snd fresh =
         {| numbers := numbers c;
            hashes := <[(net, blk) := (h, stamp)]> (hashes c) |}) /\
    (fst fresh = None -> snd fresh = c)).
  { subst fresh. destruct answer as [a|]; [|split; [discriminate | reflexivity]].
    simpl. destruct (String.eqb a "") eqn:Ea; simpl;
      [split; [discriminate | reflexivity]|].
    apply String.eqb_neq in Ea. split; [|discriminate].
    intros h [= <-]. split; [exact Ea | reflexivity]. }
  destruct Hfresh as [Hsome Hnone].
  assert (Hstored : forall h,
    fst fresh = Some h ->
    exists ts,
      hashes (snd fresh) !! (net, blk) = Some (h, ts) /\
      forall now' stamp' answer',
        (now' - ts < cache_timeout)%Q ->
        get_reference_block_hash now' stamp' answer' net blk (snd fresh)
        = (Some h, snd fresh)).
  { intros h Hh. destruct (Hsome h Hh) as [_ Hc']. exists stamp.
    assert (E : hashes (snd fresh) !! (net, blk) = Some (h, stamp))
      by (rewrite Hc'; apply lookup_insert_eq).
    split; [exact E|]. intros. now apply hash_hit with stamp. }
  assert (Hframe : forall key, key <> (net, blk) ->
            hashes (snd fresh) !! key = hashes c !! key).
  { intros key Hne. destruct (fst fresh) as [h|] eqn:E.
    - destruct (Hsome h eq_refl) as [_ ->]. simpl. now apply lookup_insert_ne.
    - now rewrite (Hnone eq_refl). }
  assert (Hnum : numbers (snd fresh) = numbers c).
  { destruct (fst fresh) as [h|] eqn:E.
    - now destruct (Hsome h eq_refl) as [_ ->].
    - now rewrite (Hnone eq_refl). }
  assert (Hinv : nonempty_hashes c -> nonempty_hashes (snd fresh)).
  { intros Hc key h ts. destruct (fst fresh) as [h'|] eqn:E.
    - destruct (Hsome h' eq_refl) as [Hne ->]. simpl.
      destruct (decide (key = (net, blk))) as [->|Hk].
      + rewrite lookup_insert_eq. intros [= <- _]. exact Hne.
      + rewrite lookup_insert_ne by congruence. apply Hc.
    - rewrite (Hnone eq_refl). apply Hc. }
  destruct (hashes c !! (net, blk)) as [[h0 ts0]|] eqn:Ec.
  2:{ split; [exact Hstored|]. split; [exact Hnone|]. split; [|split; assumption].
      intros Hc. split; [now apply Hinv|]. intros h Hh. now apply Hsome. }
  destruct (Py.Qltb (now - ts0) cache_timeout) eqn:Elive.
  2:{ split; [exact Hstored|]. split; [exact Hnone|]. split; [|split; assumption].
      intros Hc. split; [now apply Hinv|]. intros h Hh. now apply Hsome. }
  simpl. split; [|split; [discriminate|split; [|split; reflexivity]]].
  - intros h [= <-]. exists ts0. split; [exact Ec|]. intros. now apply hash_hit with ts0.
  - intros Hc. split; [exact Hc|]. intros h [= <-]. exact (Hc _ _ _ Ec).
Qed.

End ReferenceCacheFacts.

Lemma reference_number_round_trip_witness :
  exists c',
    ReferenceCache.get_reference_block_number 1000 1001
      (ReferenceCache.Returned 19000000) ReferenceCache.Raised "mainnet"
      ReferenceCache.empty_cache = (19000000, c') /\
    ReferenceCache.get_reference_block_number 1300 1300
      ReferenceCache.Raised ReferenceCache.Raised "mainnet" c' = (19000000, c').
Proof.
  eexists. split; [reflexivity|].
  destruct (reference_number_round_trip 1000 1001
              (ReferenceCache.Returned 19000000) ReferenceCache.Raised "mainnet"
              ReferenceCache.empty_cache _ _ eq_refl ltac:(lia)) as (ts & Hts & Hagain).
  vm_compute in Hts. injection Hts as <-.
  apply Hagain. reflexivity.
Defined.

Lemma reference_number_sources_in_order_witness :
  fst (ReferenceCache.get_reference_block_number 1000 1001
         (ReferenceCache.Returned 0) (ReferenceCache.Returned 42) "mainnet"
         ReferenceCache.empty_cache) = 42.
Proof.
  destruct (reference_number_sources_in_order 1000 1001
              (ReferenceCache.Returned 0) (ReferenceCache.Returned 42) "mainnet"
              ReferenceCache.empty_cache I) as (_ & Hsecond & _).
  apply Hsecond; [right; exists 0; split; [reflexivity | lia] | reflexivity | lia].
Defined.

(** ** Cross-node consistency: verdict, lagging nodes and node order *)

Section ConsistencyMore.

Lemma lagging_nodes_spec nodes net tol r :
  Advanced.validate_cross_node_consistency nodes net tol = Advanced.Ok r ->
  forall ln, In ln (Advanced.lagging_nodes r) <->
    exists node_name b st,
      In (node_name, (b, st)) (Advanced.collect_block_numbers nodes) /\
      tol < Advanced.max_block r - b /\
      ln = Advanced.mkLaggingNode node_name b (Advanced.max_block r - b) st.
Proof.
  intros H ln. destruct (advanced_ok_inv _ _ _ _ H) as (_ & _ & _ & _ & _ & Hlag).
  rewrite Hlag, <- list_elem_of_In, list_elem_of_omap. split.
  - intros [[k [b st]] [Hin Heq]]. apply list_elem_of_In in Hin.
    destruct (tol <? Advanced.max_block r - b) eqn:E; [|discriminate].
    injection Heq as <-. exists k, b, st. apply Z.ltb_lt in E. auto.
  - intros (k & b & st & Hin & Hlt & ->). exists (k, (b, st)).
    rewrite list_elem_of_In. split; [exact Hin|].
    apply Z.ltb_lt in Hlt. now rewrite Hlt.
Qed.

Lemma block_values_collect nodes b :
  In b (Advanced.block_values nodes) <->
  exists node_name st, In (node_name, (b, st)) (Advanced.collect_block_numbers nodes).
Proof.
  unfold Advanced.block_values. rewrite in_map_iff. split.
  - intros [[k [b' st]] [<- Hin]]. now exists k, st.
  - intros (k & st & Hin). now exists (k, (b, st)).
Qed.

(** X12. The verdict and the per-node classification agree on the
    nodes with usable data: the advanced analyzer reports the nodes as
    consistent exactly when its list of lagging nodes is empty, and the
    comprehensive analyzer exactly when no node with a positive block
    number is lagging.  A node without a block number (block 0) is
    outside the verdict: it is marked lagging as soon as the highest
    block exceeds the tolerance, also in a consistent report. *)
Theorem verdict_iff_no_usable_node_lags :
  (forall nodes net tol r,
      Advanced.validate_cross_node_consistency nodes net tol = Advanced.Ok r ->
      (Advanced.nodes_consistent r = true <-> Advanced.lagging_nodes r = [])) /\
  (forall net tol ref sts r,
      Comprehensive.verify_cross_node_consistency net tol ref sts = Comprehensive.Ok r ->
      (Comprehensive.consistent (Comprehensive.summary r) = true <->
       forall name e, In (name, e) (Comprehensive.nodes r) ->
                      0 < Comprehensive.ne_current_block e ->
                      Comprehensive.lagging e = false) /\
      (forall name e, In (name, e) (Comprehensive.nodes r) ->
                      Comprehensive.ne_current_block e <= 0 ->
                      tol < Comprehensive.highest (Comprehensive.summary r) ->
                      Comprehensive.lagging e = true)).
Proof.
  split.
  - intros nodes net tol r H.
    destruct (advanced_ok_inv _ _ _ _ H) as (Hmax & Hmin & Hdiff & _ & Hc & _).
    destruct (py_max_spec _ _ Hmax) as [_ Hub].
    destruct (py_min_spec _ _ Hmin) as [Hin_min Hlb].
    pose proof (lagging_nodes_spec _ _ _ _ H) as Hmem.
    rewrite Hc, Z.leb_le, Hdiff. split.
    + intros Hle. destruct (Advanced.lagging_nodes r) as [|ln l] eqn:E; [reflexivity|].
      destruct (proj1 (Hmem ln) (or_introl eq_refl)) as (k & b & st & Hin & Hlt & _).
      assert (Hb : In b (Advanced.block_values nodes))
        by (apply block_values_collect; eauto).
      specialize (Hlb b Hb). lia.
    + intros Hnil. apply block_values_collect in Hin_min.
      destruct Hin_min as (k & st & Hin).
      destruct (Z_le_gt_dec (Advanced.max_block r - Advanced.min_block r) tol) as [|Hgt];
        [assumption|].
      assert (Hl : In (Advanced.mkLaggingNode k (Advanced.min_block r)
                         (Advanced.max_block r - Advanced.min_block r) st)
                      (Advanced.lagging_nodes r)).
      { apply Hmem. exists k, (Advanced.min_block r), st. repeat split; auto. lia. }
      rewrite Hnil in Hl. destruct Hl.
  - intros net tol ref sts r H.
    destruct (comprehensive_ok_inv _ _ _ _ _ H) as (Hmax & Hmin & Hdiff & _ & Hc & Hnodes).
    destruct (py_max_spec _ _ Hmax) as [_ Hub].
    destruct (py_min_spec _ _ Hmin) as [Hin_min Hlb].
    set (s := Comprehensive.summary r) in *.
    assert (Hentry : forall name e, In (name, e) (Comprehensive.nodes r) ->
              exists st, In (name, st) sts /\
                e = Comprehensive.node_entry tol (Comprehensive.highest s) st).
    { intros name e Hin. rewrite Hnodes in Hin. apply in_map_iff in Hin.
      destruct Hin as [[k st] [[= -> <-] Hin]]. now exists st. }
    split; [split|].
    + intros Hcons name e Hin Hpos. destruct (Hentry _ _ Hin) as (st & Hst & ->).
      simpl in *. apply Z.ltb_ge.
      rewrite Hc in Hcons. apply Z.leb_le in Hcons.
      assert (Hb : In (Comprehensive.current_block st) (Comprehensive.usable_blocks sts)).
      { apply usable_blocks_spec. split; [exact Hpos|]. now exists name, st. }
      specialize (Hlb _ Hb). lia.
    + intros Hnone. rewrite Hc. apply Z.leb_le. rewrite Hdiff.
      apply usable_blocks_spec in Hin_min. destruct Hin_min as [Hpos (name & st & Hst & Hb)].
      assert (Hin : In (name, Comprehensive.node_entry tol (Comprehensive.highest s) st)
                       (Comprehensive.nodes r)).
      { rewrite Hnodes. apply in_map_iff. now exists (name, st). }
      specialize (Hnone _ _ Hin). simpl in Hnone. rewrite Hb in Hnone.
      specialize (Hnone Hpos). apply Z.ltb_ge in Hnone. lia.
    + intros name e Hin Hzero Htol. destruct (Hentry _ _ Hin) as (st & _ & ->).
      simpl in *. apply Z.ltb_lt. lia.
Qed.

Lemma advanced_status_inv nodes net tol r :
  Advanced.validate_cross_node_consistency nodes net tol = Advanced.Ok r ->
  Advanced.analysis_status r =
    (if Advanced.block_difference r =? 0 then "perfect_consistency"
     else if Advanced.block_difference r <=? tol then "acceptable_consistency"
     else if Advanced.block_difference r <=? 20 then "minor_divergence"
     else "major_divergence").
Proof.
  unfold Advanced.validate_cross_node_consistency.
  destruct (Py.max (Advanced.block_values nodes)) as [mx|]; [|discriminate].
  destruct (Py.min (Advanced.block_values nodes)) as [mn|]; [|discriminate].
  intros [= <-]. reflexivity.
Qed.

(** X13. With a tolerance that is not negative, the analysis status
    of the advanced analyzer tells the verdict: the nodes are
    consistent exactly for [perfect_consistency] and
    [acceptable_consistency], the status is [perfect_consistency]
    exactly for divergence 0, and it is [major_divergence] exactly when
    the divergence exceeds both the tolerance and 20. *)
Theorem analysis_status_tells_verdict nodes net tol r :
  Advanced.validate_cross_node_consistency nodes net tol = Advanced.Ok r ->
  0 <= tol ->
  (Advanced.nodes_consistent r = true <->
   Advanced.analysis_status r = "perfect_consistency" \/
   Advanced.analysis_status r = "acceptable_consistency") /\
  (Advanced.analysis_status r = "perfect_consistency" <-> Advanced.block_difference r = 0) /\
  (Advanced.analysis_status r = "major_divergence" <->
   tol < Advanced.block_difference r /\ 20 < Advanced.block_difference r).
Proof.
  intros H Htol. rewrite (advanced_status_inv _ _ _ _ H).
  destruct (advanced_ok_inv _ _ _ _ H) as (_ & _ & _ & _ & Hc & _). rewrite Hc.
  destruct (Advanced.block_difference r =? 0) eqn:E0;
    [apply Z.eqb_eq in E0 | apply Z.eqb_neq in E0];
    (destruct (Advanced.block_difference r <=? tol) eqn:Et;
     [apply Z.leb_le in Et | apply Z.leb_gt in Et]);
    (destruct (Advanced.block_difference r <=? 20) eqn:E20;
     [apply Z.leb_le in E20 | apply Z.leb_gt in E20]);
    repeat split; intros;
    repeat match goal with Hor : _ \/ _ |- _ => destruct Hor end;
    try discriminate; try lia; auto.
Qed.

End ConsistencyMore.

Lemma verdict_iff_no_usable_node_lags_witness :
  exists r,
    Advanced.validate_cross_node_consistency Scenarios.two_infos "mainnet" 5 = Advanced.Ok r /\
    Advanced.lagging_nodes r = [].
Proof.
  eexists. split; [reflexivity|].
  apply (proj1 verdict_iff_no_usable_node_lags Scenarios.two_infos "mainnet" 5 _ eq_refl).
  reflexivity.
Defined.

Lemma analysis_status_tells_verdict_witness :
  exists r,
    Advanced.validate_cross_node_consistency Scenarios.two_infos "mainnet" 4 = Advanced.Ok r /\
    Advanced.analysis_status r = "minor_divergence" /\
    Advanced.nodes_consistent r = false.
Proof.
  eexists. split; [reflexivity|].
  destruct (analysis_status_tells_verdict Scenarios.two_infos "mainnet" 4 _ eq_refl
              ltac:(lia)) as (Hverdict & _ & _).
  split; reflexivity.
Defined.

(** ** Cross-node consistency: independence of the node order *)

Section NodeOrder.

Lemma py_max_same_elements xs ys :
  (forall x, In x xs <-> In x ys) -> Py.max xs = Py.max ys.
Proof.
  intros H.
  destruct (Py.max xs) as [m|] eqn:Ex, (Py.max ys) as [m'|] eqn:Ey.
  - destruct (py_max_spec _ _ Ex) as [Hin Hub], (py_max_spec _ _ Ey) as [Hin' Hub'].
    f_equal. apply Z.le_antisymm; [apply Hub', H, Hin | apply Hub, H, Hin'].
  - apply py_max_none in Ey. subst ys. apply py_max_spec in Ex as [Hin _].
    apply H in Hin. destruct Hin.
  - apply py_max_none in Ex. subst xs. apply py_max_spec in Ey as [Hin _].
    apply H in Hin. destruct Hin.
  - reflexivity.
Qed.

Lemma py_min_same_elements xs ys :
  (forall x, In x xs <-> In x ys) -> Py.min xs = Py.min ys.
Proof.
  intros H.
  destruct (Py.min xs) as [m|] eqn:Ex, (Py.min ys) as [m'|] eqn:Ey.
  - destruct (py_min_spec _ _ Ex) as [Hin Hlb], (py_min_spec _ _ Ey) as [Hin' Hlb'].
    f_equal. apply Z.le_antisymm; [apply Hlb, H, Hin' | apply Hlb', H, Hin].
  - apply py_min_none in Ey. subst ys. apply py_min_spec in Ex as [Hin _].
    apply H in Hin. destruct Hin.
  - apply py_min_none in Ex. subst xs. apply py_min_spec in Ey as [Hin _].
    apply H in Hin. destruct Hin.
  - reflexivity.
Qed.

Lemma usable_blocks_perm sts sts' :
  Permutation sts sts' ->
  forall b, In b (Comprehensive.usable_blocks sts) <-> In b (Comprehensive.usable_blocks sts').
Proof.
  intros Hp b. rewrite !usable_blocks_spec.
  split; intros [Hpos (name & st & Hin & Hb)]; (split; [exact Hpos|]); exists name, st;
    (split; [|exact Hb]).
  - eapply Permutation_in; eauto.
  - eapply Permutation_in; [symmetry|]; eauto.
Qed.

Lemma block_values_perm nodes nodes' :
  Permutation nodes nodes' ->
  forall b, In b (Advanced.block_values nodes) <-> In b (Advanced.block_values nodes').
Proof.
  intros Hp b. rewrite !block_values_spec.
  split; intros (k & node & Hin & Hb); exists k, node; (split; [|exact Hb]).
  - eapply Permutation_in; eauto.
  - eapply Permutation_in; [symmetry|]; eauto.
Qed.

(** X14. The order in which the nodes are listed does not matter:
    for a reordered node table both analyzers return the same error or
    a report with the same highest and lowest block, divergence,
    tolerance and verdict, and the same node entries (lagging nodes)
    up to that reordering. *)
Theorem report_independent_of_node_order :
  (forall net tol ref sts sts',
      Permutation sts sts' ->
      match Comprehensive.verify_cross_node_consistency net tol ref sts,
            Comprehensive.verify_cross_node_consistency net tol ref sts' with
      | Comprehensive.Ok r, Comprehensive.Ok r' =>
          Comprehensive.summary r = Comprehensive.summary r' /\
          Permutation (Comprehensive.nodes r) (Comprehensive.nodes r') /\
          Comprehensive.reference r = Comprehensive.reference r'
      | Comprehensive.Error m, Comprehensive.Error m' => m = m'
      | _, _ => False
      end) /\
  (forall net tol nodes nodes',
      Permutation nodes nodes' ->
      match Advanced.validate_cross_node_consistency nodes net tol,
            Advanced.validate_cross_node_consistency nodes' net tol with
      | Advanced.Ok r, Advanced.Ok r' =>
          Advanced.max_block r = Advanced.max_block r' /\
          Advanced.min_block r = Advanced.min_block r' /\
          Advanced.block_difference r = Advanced.block_difference r' /\
          Advanced.nodes_consistent r = Advanced.nodes_consistent r' /\
          Advanced.analysis_status r = Advanced.analysis_status r' /\
          Permutation (Advanced.lagging_nodes r) (Advanced.lagging_nodes r')
      | Advanced.Error m, Advanced.Error m' => m = m'
      | _, _ => False
      end).
Proof.
  split.
  - intros net tol ref sts sts' Hp.
    unfold Comprehensive.verify_cross_node_consistency.
    rewrite <- (py_max_same_elements _ _ (usable_blocks_perm _ _ Hp)).
    rewrite <- (py_min_same_elements _ _ (usable_blocks_perm _ _ Hp)).
    pose proof (Permutation_length Hp) as Hlen.
    destruct sts as [|e sts], sts' as [|e' sts'];
      [reflexivity | discriminate | discriminate |].
    destruct (Py.max (Comprehensive.usable_blocks (e :: sts))) as [mx|]; [|reflexivity].
    destruct (Py.min (Comprehensive.usable_blocks (e :: sts))) as [mn|]; [|reflexivity].
    cbn [Comprehensive.summary Comprehensive.nodes Comprehensive.reference].
    rewrite Hlen. split; [reflexivity|]. split; [|reflexivity].
    now apply Permutation_map.
  - intros net tol nodes nodes' Hp.
    unfold Advanced.validate_cross_node_consistency.
    rewrite <- (py_max_same_elements _ _ (block_values_perm _ _ Hp)).
    rewrite <- (py_min_same_elements _ _ (block_values_perm _ _ Hp)).
    destruct (Py.max (Advanced.block_values nodes)) as [mx|]; [|reflexivity].
    destruct (Py.min (Advanced.block_values nodes)) as [mn|]; [|reflexivity].
    cbn. repeat split.
    apply omap_Permutation. unfold Advanced.collect_block_numbers.
    now apply omap_Permutation.
Qed.

End NodeOrder.

Lemma report_independent_of_node_order_witness :
  match Comprehensive.verify_cross_node_consistency "mainnet" 4 0 Scenarios.two_nodes,
        Comprehensive.verify_cross_node_consistency "mainnet" 4 0
          [("erigon", Scenarios.status_at "erigon" 105);
           ("geth", Scenarios.status_at "geth" 100)] with
  | Comprehensive.Ok r, Comprehensive.Ok r' =>
      Comprehensive.summary r = Comprehensive.summary r'
  | _, _ => False
  end.
Proof.
  pose proof (proj1 report_independent_of_node_order "mainnet" 4 0 Scenarios.two_nodes
                [("erigon", Scenarios.status_at "erigon" 105);
                 ("geth", Scenarios.status_at "geth" 100)]
                (perm_swap _ _ [])) as H.
  cbn in H. cbn. exact (proj1 H).
Defined.

(** ** Alerts: independence of keys and growth of the log *)

Section AlertFrame.

Import Advanced.
Import AlertRuns.

Variable cfg : AlertConfig.

Lemma append_cancel_l (s a b : string) : (s ++ a = s ++ b)%string -> a = b.
Proof. induction s as [|c s IH]; simpl; [auto|]. intros [= H]. auto. Qed.

(** Two alerts of the same type and node share a key only when they
    carry the same message. *)
Lemma alert_key_message_inj type_ node_name_ m m' :
  alert_key type_ node_name_ m = alert_key type_ node_name_ m' -> m = m'.
Proof.
  unfold alert_key. intros H.
  repeat (apply append_cancel_l in H). exact H.
Qed.

Lemma trigger_alert_effects_grow env type_ message_ severity_ node_name_ st :
  exists added,
    effects (trigger_alert cfg env type_ message_ severity_ node_name_ st)
    = (effects st ++ added)%list /\
    (List.filter is_store added = [] \/
     List.filter is_store added = [StoreAlert type_ node_name_ severity_ message_]).
Proof.
  destruct (in_cooldown cfg (current_time env) (alert_key type_ node_name_ message_)
              (alert_cooldowns st)) eqn:E.
  - rewrite (trigger_alert_suppressed cfg _ _ _ _ _ _ E).
    exists []. split; [now rewrite app_nil_r | now left].
  - destruct (trigger_alert_fired cfg env type_ message_ severity_ node_name_ st E)
      as (_ & _ & Heff).
    eexists. split; [exact Heff|]. right.
    rewrite !List.filter_app, send_notifications_no_store. reflexivity.
Qed.

Lemma trigger_alert_other_keys env type_ message_ severity_ node_name_ st key :
  key <> alert_key type_ node_name_ message_ ->
  alert_cooldowns (trigger_alert cfg env type_ message_ severity_ node_name_ st) !! key
  = alert_cooldowns st !! key.
Proof.
  intros Hne. unfold trigger_alert. destruct (in_cooldown _ _ _ _); [reflexivity|].
  simpl. now apply lookup_insert_ne.
Qed.

(** X15. A call of [trigger_alert] leaves the cooldown entry of every
    other key as it was; in particular an alert never suppresses or
    refreshes another alert of the same type and node that carries a
    different message.  The effects already issued are never changed:
    a call appends to them, and it hands at most one row to the
    store. *)
Theorem trigger_alert_touches_one_key env type_ message_ severity_ node_name_ st :
  let st' := trigger_alert cfg env type_ message_ severity_ node_name_ st in
  (forall key, key <> alert_key type_ node_name_ message_ ->
               alert_cooldowns st' !! key = alert_cooldowns st !! key) /\
  (forall other now, other <> message_ ->
     in_cooldown cfg now (alert_key type_ node_name_ other) (alert_cooldowns st')
     = in_cooldown cfg now (alert_key type_ node_name_ other) (alert_cooldowns st)) /\
  (exists added, effects st' = (effects st ++ added)%list) /\
  (length (stored_alerts st) <= length (stored_alerts st')
   <= S (length (stored_alerts st)))%nat.
Proof.
  intros st'. subst st'. split; [|split; [|split]].
  - intros key Hne. now apply trigger_alert_other_keys.
  - intros other now Hne. unfold in_cooldown.
    rewrite trigger_alert_other_keys; [reflexivity|].
    intros E. apply alert_key_message_inj in E. congruence.
  - destruct (trigger_alert_effects_grow env type_ message_ severity_ node_name_ st)
      as (added & Heff & _). now exists added.
  - destruct (trigger_alert_effects_grow env type_ message_ severity_ node_name_ st)
      as (added & Heff & Hrows).
    unfold stored_alerts. rewrite Heff, List.filter_app, List.length_app.
    destruct Hrows as [-> | ->]; simpl; lia.
Qed.

(** X16. Over any sequence of calls the log only grows: the effects
    present before are a prefix of the effects after, and the number
    of rows handed to the store grows by at most the number of
    calls. *)
Theorem alert_log_is_append_only calls st :
  (exists added, effects (run cfg calls st) = (effects st ++ added)%list) /\
  (length (stored_alerts st) <= length (stored_alerts (run cfg calls st))
   <= length (stored_alerts st) + length calls)%nat.
Proof.
  unfold run. revert st. induction calls as [|c calls IH]; intros st.
  - simpl. split; [exists []; now rewrite app_nil_r | lia].
  - simpl. destruct (IH (do_call cfg st c)) as [(added' & Heff') Hlen'].
    unfold do_call in *.
    destruct (trigger_alert_effects_grow (call_env c) (call_type c) (call_message c)
                (call_severity c) (call_node_name c) st) as (added & Heff & Hrows).
    split.
    + exists (added ++ added')%list. rewrite Heff', Heff. now rewrite <- List.app_assoc.
    + assert (Hstep : (length (stored_alerts st)
                       <= length (stored_alerts
                            (trigger_alert cfg (call_env c) (call_type c) (call_message c)
                               (call_severity c) (call_node_name c) st))
                       <= S (length (stored_alerts st)))%nat).
      { unfold stored_alerts. rewrite Heff, List.filter_app, List.length_app.
        destruct Hrows as [-> | ->]; simpl; lia. }
      lia.
Qed.

(** X17. A burst of attempts for one key records one alert: when a
    call fires at time [t0], every further attempt for the same key
    made less than [alert_cooldown] seconds after [t0], in any number
    and with any severity, is suppressed, so the run leaves exactly
    the one row of the first call. *)
Theorem burst_records_one_alert e0 sev0 type_ message_ node_name_ attempts st :
  in_cooldown cfg (current_time e0) (alert_key type_ node_name_ message_)
              (alert_cooldowns st) = false ->
  Forall (fun a => (current_time (fst a) - current_time e0
                    < inject_Z (alert_cooldown cfg))%Q) attempts ->
  let st1 := trigger_alert cfg e0 type_ message_ sev0 node_name_ st in
  trigger_all cfg type_ message_ node_name_ attempts st1 = st1 /\
  stored_alerts (trigger_all cfg type_ message_ node_name_ attempts st1)
  = (stored_alerts st ++ [StoreAlert type_ node_name_ sev0 message_])%list.
Proof.
  intros Hfire Hall st1.
  destruct (trigger_alert_fired cfg e0 type_ message_ sev0 node_name_ st Hfire)
    as (Hstamp & Hstored & _).
  fold st1 in Hstamp, Hstored.
  assert (Hsame : trigger_all cfg type_ message_ node_name_ attempts st1 = st1).
  { unfold trigger_all. induction Hall as [|a rest Ha _ IH]; [reflexivity|].
    simpl. rewrite trigger_alert_suppressed; [exact IH|].
    now apply (in_cooldown_lookup cfg _ _ _ _ Hstamp). }
  split; [exact Hsame|]. now rewrite Hsame.
Qed.

End AlertFrame.

Lemma burst_records_one_alert_witness :
  length (Advanced.stored_alerts
            (Advanced.trigger_all Advanced.default_alert_config
               "CONSISTENCY" "Node consistency issue: major_divergence" ""
               [(Scenarios.env_at 30, "warning"); (Scenarios.env_at 60, "warning");
                (Scenarios.env_at 599, "critical")]
               (Advanced.trigger_alert Advanced.default_alert_config (Scenarios.env_at 0)
                  "CONSISTENCY" "Node consistency issue: major_divergence" "warning" ""
                  Advanced.initial_state))) = 1%nat.
Proof.
  destruct (burst_records_one_alert Advanced.default_alert_config (Scenarios.env_at 0)
              "warning" "CONSISTENCY" "Node consistency issue: major_divergence" ""
              [(Scenarios.env_at 30, "warning"); (Scenarios.env_at 60, "warning");
               (Scenarios.env_at 599, "critical")]
              Advanced.initial_state eq_refl) as [_ Hrows].
  - repeat constructor.
  - rewrite Hrows. reflexivity.
Defined.

(** ** Advanced verifier: alert tiers *)

Section AlertTiers.

Import Advanced.
Import AdvancedMore.

Lemma Qltb_mono a b c : (b <= c)%Q -> Py.Qltb a b = true -> Py.Qltb a c = true.
Proof. rewrite !Qltb_true_iff. intros; lra. Qed.

Lemma Qgtb_true_iff a b : Py.Qgtb a b = true <-> (b < a)%Q.
Proof.
  unfold Py.Qgtb. destruct (Qlt_le_dec b a); split; intros H; try reflexivity;
    try assumption; try discriminate. lra.
Qed.

Lemma Qgtb_mono a b c : (c <= b)%Q -> Py.Qgtb a b = true -> Py.Qgtb a c = true.
Proof. rewrite !Qgtb_true_iff. intros; lra. Qed.

Lemma sublist_if {A} (b b' : bool) (x : A) :
  (b = true -> b' = true) ->
  sublist (if b then [x] else []) (if b' then [x] else []).
Proof.
  intros H. destruct b; [rewrite (H eq_refl); reflexivity|].
  apply sublist_nil_l.
Qed.

(** Looser thresholds raise a sub-sequence of the alerts of stricter
    ones. *)
Lemma node_alerts_mono (loose strict : Thresholds) (node : NodeInfo) :
  min_peers loose <= min_peers strict ->
  max_cpu strict <= max_cpu loose ->
  max_memory strict <= max_memory loose ->
  min_sync_progress loose <= min_sync_progress strict ->
  max_response_time strict <= max_response_time loose ->
  sublist (node_alerts loose node) (node_alerts strict node).
Proof.
  intros Hp Hc Hm Hs Hr. unfold node_alerts.
  repeat apply sublist_app.
  - destruct (sync_progress node) as [p|]; [|reflexivity].
    apply sublist_if. intros H. apply andb_prop in H as [H1 H2].
    rewrite H2, andb_true_r. revert H1. apply Qltb_mono. now rewrite <- Zle_Qle.
  - apply sublist_if. rewrite !Z.ltb_lt. lia.
  - apply sublist_if. apply Qgtb_mono. now rewrite <- Zle_Qle.
  - apply sublist_if. apply Qgtb_mono. rewrite <- Zle_Qle. lia.
  - apply sublist_if. apply Qgtb_mono. now rewrite <- Zle_Qle.
Qed.

Lemma check_alerts_mono (loose strict : Thresholds) (nodes : list (string * NodeInfo)) :
  (forall node, sublist (node_alerts loose node) (node_alerts strict node)) ->
  sublist
    (concat (map (fun '(node_name, node) =>
                    map (pair node_name) (node_alerts loose node)) nodes))
    (concat (map (fun '(node_name, node) =>
                    map (pair node_name) (node_alerts strict node)) nodes)).
Proof.
  intros H. induction nodes as [|[k node] nodes IH]; [reflexivity|].
  simpl. apply sublist_app; [|exact IH]. apply (fmap_sublist (pair k)), H.
Qed.

(** X18. The three alert tiers are nested: on the same nodes the
    alerts raised at tier [aggressive] are a sub-sequence of those
    raised at [moderate], which are a sub-sequence of those raised at
    [conservative]; a tier name that is not one of the three behaves as
    [moderate]. *)
Theorem alert_tiers_are_nested nodes :
  sublist (check_alerts "aggressive" nodes) (check_alerts "moderate" nodes) /\
  sublist (check_alerts "moderate" nodes) (check_alerts "conservative" nodes) /\
  (forall tier, tier <> "conservative" -> tier <> "aggressive" ->
                check_alerts tier nodes = check_alerts "moderate" nodes).
Proof.
  split; [|split].
  - apply check_alerts_mono. intros node.
    apply node_alerts_mono; simpl; lia.
  - apply check_alerts_mono. intros node.
    apply node_alerts_mono; simpl; lia.
  - intros tier Hc Ha. unfold check_alerts, get_alert_thresholds.
    apply String.eqb_neq in Hc, Ha. rewrite Hc, Ha.
    destruct (String.eqb tier "moderate"); reflexivity.
Qed.

End AlertTiers.

(** ** Advanced verifier: health score and issues *)

Section HealthAndIssues.

Import Advanced.
Import AdvancedMore.

Lemma Qgeb_false_iff a b : Py.Qgeb a b = false <-> (a < b)%Q.
Proof.
  unfold Py.Qgeb. destruct (Qlt_le_dec a b); split; intros H; try reflexivity;
    try assumption; try discriminate. lra.
Qed.

Lemma Qgtb_false_iff a b : Py.Qgtb a b = false <-> (a <= b)%Q.
Proof.
  unfold Py.Qgtb. destruct (Qlt_le_dec b a); split; intros H; try reflexivity;
    try assumption; try discriminate. lra.
Qed.

(** The three variable parts of the score never exceed their weights. *)
Lemma sync_part_le (base : Q) (sp : option Q) :
  (match sp with
   | Some p => if Py.Qgeb p (995 # 10) then base + 30 else base + p / 100 * 30
   | None => base
   end <= base + 30)%Q.
Proof.
  destruct sp as [p|]; [|lra].
  destruct (Py.Qgeb p (995 # 10)) eqn:E; [lra|].
  apply Qgeb_false_iff in E.
  assert (H : (p / 100 * 30 == p * (3 # 10))%Q) by (field).
  rewrite H. lra.
Qed.

Lemma peer_ratio_lt thr p : 0 < thr -> p < thr ->
  (inject_Z p / inject_Z thr * 10 < 10)%Q.
Proof.
  intros Hthr Hp.
  assert (Ht : (0 < inject_Z thr)%Q) by (change 0%Q with (inject_Z 0); now rewrite <- Zlt_Qlt).
  assert (Hlt : (inject_Z p < inject_Z thr)%Q) by (now rewrite <- Zlt_Qlt).
  assert (H1 : (inject_Z p / inject_Z thr < 1)%Q).
  { apply Qlt_shift_div_r; [exact Ht | lra]. }
  lra.
Qed.

(** X19. With a positive peer threshold, a missing component costs its
    full weight: a node that is not running, or whose RPC does not
    answer, scores at most 75.  Hence every node counted as healthy
    (score 80 or more) is running and answers on RPC. *)
Theorem healthy_node_is_running_and_responsive thr node s :
  0 < thr ->
  calculate_node_health_score thr node = Some s ->
  (status node <> "running" \/ rpc_responsive node = false -> (s <= 75)%Q) /\
  ((80 <= s)%Q -> status node = "running" /\ rpc_responsive node = true).
Proof.
  intros Hthr Hs. unfold calculate_node_health_score in Hs.
  set (b0 := if String.eqb (status node) "running" then (0 + 25)%Q else 0%Q) in *.
  set (b1 := if rpc_responsive node then (b0 + 25)%Q else b0) in *.
  pose proof (sync_part_le b1 (sync_progress node)) as Hsync.
  set (b2 := match sync_progress node with Some _ => _ | None => _ end) in *.
  assert (Hpeer : exists pp, (pp <= 10)%Q /\
            (if thr <=? peers node then Some 10%Q
             else if thr =? 0 then None
                  else Some (inject_Z (peers node) / inject_Z thr * 10)%Q) = Some pp).
  { destruct (thr <=? peers node) eqn:E; [exists 10%Q; split; [lra | reflexivity]|].
    apply Z.leb_gt in E.
    replace (thr =? 0) with false by (symmetry; apply Z.eqb_neq; lia).
    eexists. split; [|reflexivity]. pose proof (peer_ratio_lt thr (peers node) Hthr E). lra. }
  destruct Hpeer as (pp & Hpp & Epp). rewrite Epp in Hs.
  injection Hs as <-.
  assert (Hlow : status node <> "running" \/ rpc_responsive node = false ->
                 (b1 <= 25)%Q).
  { subst b1 b0. intros [Hn | Hr].
    - apply String.eqb_neq in Hn. rewrite Hn. destruct (rpc_responsive node); lra.
    - rewrite Hr. destruct (String.eqb (status node) "running"); lra. }
  assert (Hhigh : (25 < b1)%Q -> status node = "running" /\ rpc_responsive node = true).
  { subst b1 b0. destruct (String.eqb (status node) "running") eqn:Er,
      (rpc_responsive node) eqn:Erpc; intros H; try (exfalso; lra).
    apply String.eqb_eq in Er. split; [exact Er | reflexivity]. }
  clearbody b2 b1. clear b0.
  assert (Hbound :
    (Py.Qmin2 100
       (if Py.Qgtb (cpu_usage_percent node) 0 && Py.Qltb (cpu_usage_percent node) 80
        then (if Py.Qgtb (memory_mb node) 0 && Py.Qltb (memory_mb node) 16000
              then b2 + pp + 5 else b2 + pp) + 5
        else (if Py.Qgtb (memory_mb node) 0 && Py.Qltb (memory_mb node) 16000
              then b2 + pp + 5 else b2 + pp)) <= b1 + 50)%Q).
  { unfold Py.Qmin2.
    destruct (Py.Qgtb (memory_mb node) 0 && Py.Qltb (memory_mb node) 16000),
      (Py.Qgtb (cpu_usage_percent node) 0 && Py.Qltb (cpu_usage_percent node) 80);
      destruct (Qlt_le_dec _ _); lra. }
  split.
  - intros Hmiss. pose proof (Hlow Hmiss). lra.
  - intros H80. apply Hhigh. lra.
Qed.

(** X20. A node that meets the conditions for the full health score,
    with a peer threshold of at least 5 and an RPC response time of at
    most 5000 ms, has no issue detected. *)
Theorem full_marks_node_has_no_issues thr node p :
  status node = "running" -> rpc_responsive node = true ->
  sync_progress node = Some p -> (995 # 10 <= p)%Q ->
  5 <= thr -> thr <= peers node ->
  (0 < memory_mb node < 16000)%Q -> (0 < cpu_usage_percent node < 80)%Q ->
  (response_time_ms node <= 5000)%Q ->
  detect_node_issues node = [] /\
  exists s, calculate_node_health_score thr node = Some s /\ (s == 100)%Q.
Proof.
  intros Hst Hrpc Hp H995 Hthr Hpeers [Hm0 Hm1] [Hc0 Hc1] Hresp. split.
  - unfold detect_node_issues, running. rewrite Hst, Hrpc, Hp. simpl String.eqb.
    replace (Py.Qltb p 50) with false by (symmetry; apply Qltb_false_iff; lra).
    replace (Py.Qltb p 95) with false by (symmetry; apply Qltb_false_iff; lra).
    replace (peers node <? 5) with false by (symmetry; apply Z.ltb_ge; lia).
    replace (Py.Qgtb (memory_mb node) 24000) with false
      by (symmetry; apply Qgtb_false_iff; lra).
    replace (Py.Qgtb (cpu_usage_percent node) 90) with false
      by (symmetry; apply Qgtb_false_iff; lra).
    replace (Py.Qgtb (response_time_ms node) 5000) with false
      by (symmetry; apply Qgtb_false_iff; lra).
    reflexivity.
  - unfold calculate_node_health_score.
    rewrite Hst, Hrpc, Hp. simpl String.eqb. cbv iota.
    replace (thr <=? peers node) with true by (symmetry; apply Z.leb_le; lia).
    unfold Py.Qgeb, Py.Qgtb, Py.Qltb.
    destruct (Qlt_le_dec p (995 # 10)); [lra|].
    destruct (Qlt_le_dec 0 (memory_mb node)); [|lra].
    destruct (Qlt_le_dec (memory_mb node) 16000); [|lra].
    destruct (Qlt_le_dec 0 (cpu_usage_percent node)); [|lra].
    destruct (Qlt_le_dec (cpu_usage_percent node) 80); [|lra].
    simpl. eexists. split; [reflexivity|].
    unfold Py.Qmin2. destruct (Qlt_le_dec _ _); lra.
Qed.

End HealthAndIssues.

Lemma healthy_node_is_running_and_responsive_witness :
  Advanced.status (Scenarios.node_at "Geth" (Some 100) 30 4000 10) = "running".
Proof.
  destruct (healthy_node_is_running_and_responsive 25
              (Scenarios.node_at "Geth" (Some 100) 30 4000 10) 100%Q) as [_ Hhealthy].
  - lia.
  - reflexivity.
  - apply Hhealthy. vm_compute. discriminate.
Defined.

Lemma full_marks_node_has_no_issues_witness :
  AdvancedMore.detect_node_issues (Scenarios.node_at "Geth" (Some 100) 30 4000 10) = [].
Proof.
  refine (proj1 (full_marks_node_has_no_issues 25
                   (Scenarios.node_at "Geth" (Some 100) 30 4000 10) 100%Q
                   eq_refl eq_refl eq_refl _ _ _ _ _ _)).
  - vm_compute. discriminate.
  - lia.
  - simpl. lia.
  - split; reflexivity.
  - split; reflexivity.
  - vm_compute. discriminate.
Defined.

(** ** Advanced verifier: system metrics and recommendations *)

Section SystemMetrics.

Import Advanced.
Import AdvancedMore.

Lemma filter_length_le {A} (f : A -> bool) (l : list A) :
  (length (List.filter f l) <= length l)%nat.
Proof. induction l as [|x l IH]; simpl; [lia|]. destruct (f x); simpl; lia. Qed.

(** X21. For a non-empty node table the system metrics count every
    node once: running and stopped nodes add up to the total (a node in
    state unknown or error counts as stopped), the syncing and healthy
    counts do not exceed it, and the overall health score lies between
    0 and 100 when the health score of every node does.  For an empty
    table the results are returned unchanged. *)
Theorem system_metrics_counts nodes results :
  calculate_system_metrics [] results = results /\
  (nodes <> [] ->
   let r := calculate_system_metrics nodes results in
   total_nodes r = length nodes /\
   (running_nodes r + stopped_nodes r = total_nodes r)%nat /\
   stopped_nodes r = length (List.filter (fun n => negb (running n)) (map snd nodes)) /\
   (syncing_nodes r <= total_nodes r)%nat /\
   (healthy_nodes r <= total_nodes r)%nat /\
   ((forall k n, In (k, n) nodes -> (0 <= health_score n <= 100)%Q) ->
    (0 <= overall_health_score r <= 100)%Q)).
Proof.
  split; [reflexivity|]. intros Hne r. subst r.
  destruct nodes as [|e rest]; [congruence|].
  unfold calculate_system_metrics.
  cbn [total_nodes running_nodes stopped_nodes syncing_nodes healthy_nodes
       overall_health_score].
  set (values := map snd (e :: rest)).
  assert (Hlen : length values = length (e :: rest)) by (subst values; apply length_map).
  pose proof (filter_split_length running values) as Hsplit.
  pose proof (filter_length_le is_syncing values) as Hsync.
  pose proof (filter_length_le (fun n => Py.Qgeb (health_score n) 80) values) as Hhealthy.
  split; [exact Hlen|]. split; [lia|]. split; [lia|]. split; [lia|]. split; [lia|].
  intros Hall.
  replace (length values) with (length (map health_score values)) by apply length_map.
  apply mean_bounds.
  - subst values. discriminate.
  - intros x Hx. apply in_map_iff in Hx. destruct Hx as (n & <- & Hn).
    subst values. apply in_map_iff in Hn. destruct Hn as ([k n'] & <- & Hin).
    now apply (Hall k).
Qed.

Lemma update_client_counts client_ node stats :
  list_sum (map (fun e => cs_nodes (snd e)) (update_client client_ node stats))
  = S (list_sum (map (fun e => cs_nodes (snd e)) stats)) /\
  list_sum (map (fun e => cs_running (snd e)) (update_client client_ node stats))
  = ((if running node then 1 else 0)
     + list_sum (map (fun e => cs_running (snd e)) stats))%nat.
Proof.
  induction stats as [|[k v] rest [IHn IHr]]; simpl.
  - destruct (running node); split; reflexivity.
  - destruct (String.eqb k client_); simpl.
    + destruct (running node); split; lia.
    + rewrite IHn, IHr. destruct (running node); split; lia.
Qed.

Lemma update_client_keys client_ node stats :
  NoDup (map fst stats) ->
  NoDup (map fst (update_client client_ node stats)) /\
  (forall k, In k (map fst (update_client client_ node stats)) <->
             k = client_ \/ In k (map fst stats)).
Proof.
  induction stats as [|[k v] rest IH]; simpl; intros Hnd.
  - split; [repeat constructor; intros H; inversion H|]. intros k. intuition.
  - apply NoDup_cons in Hnd as [Hk Hrest]. destruct (IH Hrest) as [IHnd IHin].
    destruct (String.eqb k client_) eqn:E; simpl.
    + apply String.eqb_eq in E. subst. split; [now apply NoDup_cons|].
      intros k. intuition.
    + apply String.eqb_neq in E. split.
      * apply NoDup_cons. split; [|exact IHnd].
        rewrite list_elem_of_In, IHin, <- list_elem_of_In. intros [->|H]; [congruence|].
        contradiction.
      * intros k'. rewrite IHin. intuition.
Qed.

Lemma fold_update_client nodes acc :
  NoDup (map fst acc) ->
  let out := fold_left (fun stats node => update_client (client node) node stats) nodes acc in
  list_sum (map (fun e => cs_nodes (snd e)) out)
  = (length nodes + list_sum (map (fun e => cs_nodes (snd e)) acc))%nat /\
  list_sum (map (fun e => cs_running (snd e)) out)
  = (length (List.filter running nodes)
     + list_sum (map (fun e => cs_running (snd e)) acc))%nat /\
  NoDup (map fst out) /\
  (forall k, In k (map fst out) <->
             In k (map fst acc) \/ exists n, In n nodes /\ client n = k).
Proof.
  revert acc. induction nodes as [|n nodes IH]; intros acc Hnd out; subst out; simpl.
  - repeat split; auto. intros [H | (n & [] & _)]. exact H.
  - destruct (update_client_counts (client n) n acc) as [Hn Hr].
    destruct (update_client_keys (client n) n acc Hnd) as [Hnd' Hin'].
    destruct (IH _ Hnd') as (IHn & IHr & IHnd & IHin).
    rewrite IHn, IHr, Hn, Hr. split; [lia|]. split.
    + destruct (running n); simpl; lia.
    + split; [exact IHnd|]. intros k. rewrite IHin, Hin'. split.
      * intros [[-> | H] | (m & Hm & Hc)];
          [right; exists n; auto | left; exact H | right; exists m; auto].
      * intros [H | (m & [E | Hm] & Hc)];
          [left; right; exact H | subst m; left; left; now symmetry
          | right; exists m; auto].
Qed.

(** X22. The client statistics lose no node: every client of the table
    has exactly one entry, the node counts of the entries add up to the
    number of nodes, and their running counts add up to the number of
    running nodes. *)
Theorem client_statistics_partition (nodes : list NodeInfo) :
  let stats := client_statistics nodes in
  NoDup (map fst stats) /\
  (forall k, In k (map fst stats) <-> exists n, In n nodes /\ client n = k) /\
  list_sum (map (fun e => cs_nodes (snd e)) stats) = length nodes /\
  list_sum (map (fun e => cs_running (snd e)) stats) = length (List.filter running nodes).
Proof.
  intros stats. subst stats. unfold client_statistics.
  destruct (fold_update_client nodes [] ltac:(constructor)) as (Hn & Hr & Hnd & Hin).
  set (raw := fold_left _ nodes []) in *.
  assert (Hfst : map fst (map (fun e => (fst e, average (snd e))) raw) = map fst raw).
  { rewrite map_map. apply map_ext. reflexivity. }
  assert (Havg : forall s, cs_nodes (average s) = cs_nodes s /\
                           cs_running (average s) = cs_running s).
  { intros s. unfold average. destruct (0 <? cs_nodes s)%nat; split; reflexivity. }
  rewrite Hfst. split; [exact Hnd|]. split.
  - intros k. rewrite Hin. simpl. split; [intros [[] | H]; exact H | auto].
  - rewrite !map_map. simpl.
    rewrite (map_ext (fun x => cs_nodes (average (snd x))) (fun e => cs_nodes (snd e)))
      by (intros x; apply Havg).
    rewrite (map_ext (fun x => cs_running (average (snd x))) (fun e => cs_running (snd e)))
      by (intros x; apply Havg).
    simpl in Hn, Hr. split; lia.
Qed.

Lemma forallb_false_exists {A} (f : A -> bool) (l : list A) :
  forallb f l = false -> exists x, In x l /\ f x = false.
Proof.
  induction l as [|x l IH]; simpl; [discriminate|].
  destruct (f x) eqn:E; simpl.
  - intros H. destruct (IH H) as (y & Hy & Hf). exists y. auto.
  - intros _. exists x. auto.
Qed.

(** X23. [generate_recommendations] raises exactly when the table is
    not empty and some node has no sync progress; when it returns, the
    list is never empty, and it says that all nodes operate normally
    only if every node has at least 10 peers, at most 16000 MB of
    memory and a sync progress outside the open interval (0, 100). *)
Theorem recommendations_never_empty nodes :
  (generate_recommendations nodes = None <->
   nodes <> [] /\ exists k n, In (k, n) nodes /\ sync_progress n = None) /\
  (forall recs, generate_recommendations nodes = Some recs ->
     recs <> [] /\
     (In OperatingNormally recs ->
      forall k n, In (k, n) nodes ->
        10 <= peers n /\ (memory_mb n <= 16000)%Q /\ is_syncing n = false)).
Proof.
  unfold generate_recommendations.
  destruct nodes as [|e rest].
  { split; [split; [discriminate | intros [H _]; congruence]|].
    intros recs [= <-]. split; [discriminate|]. intros [H | []]. discriminate. }
  cbv zeta. set (nodes := e :: rest). set (values := map snd nodes).
  assert (Hvals : forall n, In n values <-> exists k, In (k, n) nodes).
  { intros n. subst values. rewrite in_map_iff. split.
    - intros ([k n'] & <- & Hin). now exists k.
    - intros (k & Hin). now exists (k, n). }
  destruct (forallb _ values) eqn:Eall.
  - split.
    + split; [discriminate|]. intros (_ & k & n & Hin & Hnone).
      rewrite forallb_forall in Eall.
      specialize (Eall n (proj2 (Hvals n) (ex_intro _ k Hin))).
      rewrite Hnone in Eall. discriminate.
    + assert (Hempty : forall (f : NodeInfo -> bool),
                List.filter f values = [] -> forall k n, In (k, n) nodes -> f n = false).
      { intros f Hf k n Hin. destruct (f n) eqn:E; [|reflexivity].
        assert (Hx : In n (List.filter f values)).
        { apply List.filter_In. split; [|exact E]. apply Hvals. now exists k. }
        rewrite Hf in Hx. destruct Hx. }
      remember (List.filter (fun n => peers n <? 10) values) as lp eqn:Ep.
      remember (List.filter (fun n => Py.Qgtb (memory_mb n) 16000) values) as hm eqn:Em.
      remember (List.filter is_syncing values) as sy eqn:Es.
      match goal with |- context [Py.Qltb ?a 70] => generalize (Py.Qltb a 70) end.
      intros low recs E. injection E as <-.
      destruct low, lp as [|x1 l1], hm as [|x2 l2], sy as [|x3 l3];
        cbn [app]; (split; [discriminate|]); intros Hin;
        repeat (destruct Hin as [Hin | Hin]; try discriminate); try destruct Hin.
      intros k n Hn.
      pose proof (Hempty _ (eq_sym Ep) k n Hn) as H1.
      pose proof (Hempty _ (eq_sym Em) k n Hn) as H2.
      pose proof (Hempty _ (eq_sym Es) k n Hn) as H3. simpl in H1, H2.
      apply Z.ltb_ge in H1. apply Qgtb_false_iff in H2. auto.
  - split; [|discriminate]. split; [|reflexivity]. intros _. split; [discriminate|].
    apply forallb_false_exists in Eall. destruct Eall as (n & Hin & Hn).
    apply Hvals in Hin. destruct Hin as (k & Hin). exists k, n. split; [exact Hin|].
    destruct (sync_progress n); [discriminate | reflexivity].
Qed.

End SystemMetrics.

Lemma system_metrics_counts_witness :
  let r := AdvancedMore.calculate_system_metrics Scenarios.two_infos
             AdvancedMore.initial_results in
  AdvancedMore.total_nodes r = 2%nat /\
  (AdvancedMore.running_nodes r + AdvancedMore.stopped_nodes r = 2)%nat.
Proof.
  intros r.
  destruct (system_metrics_counts Scenarios.two_infos AdvancedMore.initial_results)
    as [_ H].
  destruct (H ltac:(discriminate)) as (Ht & Hsum & _).
  fold r in Ht, Hsum. split; [exact Ht|]. now rewrite Hsum, Ht.
Defined.

Lemma recommendations_never_empty_witness :
  AdvancedMore.generate_recommendations Scenarios.two_infos
    = Some [AdvancedMore.HealthIsLow] /\
  AdvancedMore.generate_recommendations
    [("Geth", Scenarios.bare_info "Geth" "geth" "geth.service")] = None.
Proof.
  split; [reflexivity|].
  apply (proj1 (recommendations_never_empty
                  [("Geth", Scenarios.bare_info "Geth" "geth" "geth.service")])).
  split; [discriminate|].
  exists "Geth", (Scenarios.bare_info "Geth" "geth" "geth.service").
  split; [left; reflexivity | reflexivity].
Defined.

(** ** Advanced verifier: the sync status of a node *)

Section AdvancedSyncStatus.

Import Advanced.
Import AdvancedMore.


Lemma failed_request_keeps_block eth_syncing eth_blockNumber node :
  (eth_syncing = Rpc.Failed \/
   exists code data, eth_syncing = Rpc.Answer code data /\ code <> 200) ->
  current_block (get_sync_status eth_syncing eth_blockNumber node) = current_block node.
Proof.
  unfold get_sync_status, sync_status_body.
  intros [-> | (code & data & -> & Hcode)]; [reflexivity|].
  apply Z.eqb_neq in Hcode. rewrite Hcode. reflexivity.
Qed.

Lemma collect_skips_blockless (pre post : list (string * NodeInfo)) k node :
  current_block node = None ->
  collect_block_numbers (pre ++ (k, node) :: post)%list
  = collect_block_numbers (pre ++ post)%list.
Proof.
  intros Hnone. unfold collect_block_numbers.
  rewrite !omap_app. f_equal. simpl. rewrite Hnone. reflexivity.
Qed.

(** X25. A node that has no block number and whose [eth_syncing]
    request fails, or is not answered with status 200, still has none
    afterwards and is left out of the cross-node analysis: wherever it
    stands in the node table, the analyzer returns what it returns for
    the table without it, and a table of such nodes only gets the
    no-data error. *)
Theorem unreachable_node_is_left_out eth_syncing eth_blockNumber node :
  (eth_syncing = Rpc.Failed \/
   exists code data, eth_syncing = Rpc.Answer code data /\ code <> 200) ->
  current_block node = None ->
  let dead := get_sync_status eth_syncing eth_blockNumber node in
  current_block dead = None /\
  (forall k pre post net tol,
      validate_cross_node_consistency (pre ++ (k, dead) :: post)%list net tol
      = validate_cross_node_consistency (pre ++ post)%list net tol) /\
  (forall k net tol,
      validate_cross_node_consistency [(k, dead)] net tol
      = Advanced.Error "No block data available").
Proof.
  intros Hfail Hnone dead.
  assert (Hdead : current_block dead = None).
  { subst dead. rewrite failed_request_keeps_block by exact Hfail. exact Hnone. }
  split; [exact Hdead|]. split.
  - intros k pre post net tol. unfold validate_cross_node_consistency, block_values.
    rewrite (collect_skips_blockless pre post k dead Hdead). reflexivity.
  - intros k net tol. unfold validate_cross_node_consistency, block_values.
    change [(k, dead)] with ([] ++ (k, dead) :: [])%list.
    rewrite (collect_skips_blockless [] [] k dead Hdead). reflexivity.
Qed.

End AdvancedSyncStatus.


Lemma unreachable_node_is_left_out_witness :
  Advanced.validate_cross_node_consistency
    (("Besu", AdvancedMore.get_sync_status Rpc.Failed Rpc.Failed
                (Scenarios.bare_info "Besu" "besu" "besu.service"))
     :: Scenarios.two_infos) "mainnet" 5
  = Advanced.validate_cross_node_consistency Scenarios.two_infos "mainnet" 5.
Proof.
  destruct (unreachable_node_is_left_out Rpc.Failed Rpc.Failed
              (Scenarios.bare_info "Besu" "besu" "besu.service")
              (or_introl eq_refl) eq_refl) as (_ & Hout & _).
  exact (Hout "Besu" [] Scenarios.two_infos "mainnet" 5).
Defined.

(** ** Comprehensive verifier: health score *)

Section ComprehensiveHealth.

Import Comprehensive.
Import ComprehensiveMore.

Lemma Qmax2_ge_l a b : (a <= Qmax2 a b)%Q.
Proof. unfold Qmax2. destruct (Qlt_le_dec a b); lra. Qed.

Lemma Qmax2_le a b c : (a <= c)%Q -> (b <= c)%Q -> (Qmax2 a b <= c)%Q.
Proof. unfold Qmax2. destruct (Qlt_le_dec a b); intros; lra. Qed.

Lemma step_down2 (c1 c2 : bool) (x p1 p2 : Q) :
  (0 <= p1)%Q -> (0 <= p2)%Q ->
  ((if c1 then x - p1 else if c2 then x - p2 else x) <= x)%Q.
Proof. intros. destruct c1, c2; lra. Qed.

Lemma sync_penalty_nonneg (p : Q) :
  (p <= 100)%Q -> (0 <= Py.Qmin2 30 (30 - p * (3 # 10)))%Q.
Proof. intros H. apply Qmin2_ge; lra. Qed.

(** X26. The health score of the comprehensive verifier is never
    negative.  It is at most 100 provided the sync progress of a
    syncing node is at most 100, and then at most 50 for a node whose
    service is not active; the collector caps the progress at 100, so
    the bound holds for every status it produces. *)
Theorem comprehensive_health_score_range :
  (forall status, (0 <= calculate_health_score status)%Q) /\
  (forall status,
      (sync_status status = "syncing" -> (sync_progress status <= 100)%Q) ->
      (calculate_health_score status <= 100)%Q /\
      (service_status status <> "active" -> (calculate_health_score status <= 50)%Q)) /\
  (forall type_ net n,
      (0 <= calculate_health_score (Collector.get_node_sync_status type_ net n) <= 100)%Q).
Proof.
  assert (Hlow : forall status, (0 <= calculate_health_score status)%Q).
  { intros status. unfold calculate_health_score. apply Qmax2_ge_l. }
  assert (Hhigh : forall status,
             (sync_status status = "syncing" -> (sync_progress status <= 100)%Q) ->
             (calculate_health_score status <= 100)%Q /\
             (service_status status <> "active" ->
              (calculate_health_score status <= 50)%Q)).
  { intros status Hp. unfold calculate_health_score.
    set (s0 := if negb (String.eqb (service_status status) "active")
               then (100 - 50)%Q else 100%Q).
    assert (H0 : (s0 <= 100)%Q /\ (service_status status <> "active" -> s0 <= 50)%Q).
    { subst s0. destruct (String.eqb (service_status status) "active") eqn:E; simpl.
      - apply String.eqb_eq in E. split; [lra | congruence].
      - split; intros; lra. }
    clearbody s0.
    set (s1 := if String.eqb (sync_status status) "syncing" then _ else _).
    assert (H1 : (s1 <= s0)%Q).
    { subst s1. destruct (String.eqb (sync_status status) "syncing") eqn:E.
      - apply String.eqb_eq in E. pose proof (sync_penalty_nonneg _ (Hp E)). lra.
      - destruct (_ || _); lra. }
    clearbody s1.
    set (s2 := if peer_count status <? 5 then _ else _).
    assert (H2 : (s2 <= s1)%Q) by (subst s2; apply step_down2; lra). clearbody s2.
    set (s3 := if Py.Qgtb (cpu_usage status) 90 then _ else _).
    assert (H3 : (s3 <= s2)%Q) by (subst s3; apply step_down2; lra). clearbody s3.
    set (s4 := if Py.Qgtb (memory_usage status) 30 then _ else _).
    assert (H4 : (s4 <= s3)%Q) by (subst s4; apply step_down2; lra). clearbody s4.
    set (s5 := if Py.Qgtb (response_time status) 5 then _ else _).
    assert (H5 : (s5 <= s4)%Q) by (subst s5; apply step_down2; lra). clearbody s5.
    assert (Hn : (0 <= inject_Z (Z.of_nat (length (issues status))) * 5)%Q).
    { pose proof (of_nat_nonneg (length (issues status))) as H.
      unfold IntegrityReport.of_nat in H. lra. }
    destruct H0 as [H0 H0']. split.
    - apply Qmax2_le; lra.
    - intros Hs. specialize (H0' Hs). apply Qmax2_le; lra. }
  split; [exact Hlow|]. split; [exact Hhigh|].
  intros type_ net n. split; [apply Hlow|]. apply Hhigh. intros _.
  rewrite (comprehensive_progress_formula type_ net n).
  destruct (0 <? _); [apply Qmin2_le_l | lra].
Qed.

End ComprehensiveHealth.

Lemma comprehensive_health_score_range_witness :
  (ComprehensiveMore.calculate_health_score (Scenarios.status_at "geth" 100) == 100)%Q /\
  (ComprehensiveMore.calculate_health_score (Scenarios.status_at "geth" 100) <= 100)%Q.
Proof.
  destruct comprehensive_health_score_range as (_ & Hhigh & _).
  split; [reflexivity|].
  apply (Hhigh (Scenarios.status_at "geth" 100)). discriminate.
Defined.

(** ** Comprehensive verifier: hash comparison across nodes *)

Section HashComparison.

Import Comprehensive.

Lemma remove_dups_singleton (l : list string) :
  length (remove_dups l) = 1%nat <->
  l <> [] /\ forall a b, In a l -> In b l -> a = b.
Proof.
  split.
  - intros H. destruct (remove_dups l) as [|x [|y r]] eqn:E; try discriminate.
    assert (Hall : forall a, In a l -> a = x).
    { intros a Ha. apply list_elem_of_In, elem_of_remove_dups in Ha.
      rewrite E in Ha. apply list_elem_of_In in Ha. destruct Ha as [<- | []]. reflexivity. }
    split.
    + intros ->. discriminate.
    + intros a b Ha Hb. now rewrite (Hall a Ha), (Hall b Hb).
  - intros [Hne Heq]. pose proof (NoDup_remove_dups l) as Hnd.
    destruct (remove_dups l) as [|x [|y r]] eqn:E.
    + destruct l as [|a l]; [congruence|].
      assert (Ha : a ∈ remove_dups (a :: l)) by (apply elem_of_remove_dups; left).
      rewrite E in Ha. inversion Ha.
    + reflexivity.
    + exfalso.
      assert (Hx : In x l).
      { apply list_elem_of_In, elem_of_remove_dups. rewrite E. left. }
      assert (Hy : In y l).
      { apply list_elem_of_In, elem_of_remove_dups. rewrite E. right. left. }
      rewrite (Heq x y Hx Hy) in Hnd. apply NoDup_cons in Hnd as [Hnot _].
      apply Hnot. left.
Qed.

Lemma remove_dups_length_le (l : list string) :
  (length (remove_dups l) <= length l)%nat.
Proof.
  induction l as [|x l IH]; simpl; [lia|].
  destruct (decide_rel elem_of x l); simpl; lia.
Qed.

Lemma compared_nodes_spec (sts : list (string * SyncStatus)) name b h :
  In (name, (b, h)) (ComprehensiveMore.compared_nodes sts) <->
  exists s, In (name, s) sts /\ block_hash s = Some h /\ h <> "" /\
            current_block s = b /\ 0 < b.
Proof.
  unfold ComprehensiveMore.compared_nodes.
  rewrite <- list_elem_of_In, list_elem_of_omap. split.
  - intros [[k s] [Hin Heq]]. apply list_elem_of_In in Hin.
    destruct (block_hash s) as [h'|] eqn:Eh; [|discriminate].
    destruct (Py.truthy (Some h') && (0 <? current_block s)) eqn:Ec; [|discriminate].
    injection Heq as -> <- ->. apply andb_prop in Ec as [Ht Hb].
    simpl in Ht. apply negb_true_iff, String.eqb_neq in Ht. apply Z.ltb_lt in Hb.
    exists s. repeat split; auto.
  - intros (s & Hin & Hh & Hne & Hb & Hpos). exists (name, s).
    rewrite list_elem_of_In. split; [exact Hin|]. simpl. rewrite Hh.
    simpl. apply String.eqb_neq in Hne. rewrite Hne. simpl.
    apply Z.ltb_lt in Hpos. rewrite Hb. now rewrite Hpos.
Qed.

(** X27. [check_reorganizations] compares the hashes of the nodes that
    have a non-empty hash and a positive block number, whatever their
    heights.  With fewer than two such nodes it reports insufficient
    data; otherwise it reports consistency exactly when all these
    hashes are equal, together with the number of distinct hashes, which
    is then between 1 and the number of nodes compared. *)
Theorem hash_comparison_consistent_iff_equal sts :
  (forall name b h,
      In (name, (b, h)) (ComprehensiveMore.compared_nodes sts) <->
      exists s, In (name, s) sts /\ block_hash s = Some h /\ h <> "" /\
                current_block s = b /\ 0 < b) /\
  match check_reorganizations sts with
  | InsufficientData => (length (ComprehensiveMore.compared_nodes sts) < 2)%nat
  | HashComparison all_equal unique node_hashes =>
      node_hashes = ComprehensiveMore.compared_nodes sts /\
      (2 <= length node_hashes)%nat /\
      (all_equal = true <->
       forall n1 b1 h1 n2 b2 h2,
         In (n1, (b1, h1)) node_hashes -> In (n2, (b2, h2)) node_hashes -> h1 = h2) /\
      (1 <= unique <= length node_hashes)%nat
  end.
Proof.
  split; [intros name b h; apply compared_nodes_spec|].
  unfold check_reorganizations. fold (ComprehensiveMore.compared_nodes sts).
  set (hc := ComprehensiveMore.compared_nodes sts).
  destruct (length hc <? 2)%nat eqn:Elen.
  - now apply Nat.ltb_lt in Elen.
  - apply Nat.ltb_ge in Elen.
    set (hs := map (fun e => snd (snd e)) hc).
    assert (Hhs : forall h, In h hs <-> exists n b, In (n, (b, h)) hc).
    { intros h. subst hs. rewrite in_map_iff. split.
      - intros ([n [b h']] & <- & Hin). now exists n, b.
      - intros (n & b & Hin). now exists (n, (b, h)). }
    assert (Hne : hs <> []).
    { subst hs. destruct hc as [|x l]; [simpl in Elen; lia | discriminate]. }
    split; [reflexivity|]. split; [exact Elen|]. split.
    + rewrite Nat.eqb_eq, remove_dups_singleton. split.
      * intros [_ Heq] n1 b1 h1 n2 b2 h2 H1 H2. apply Heq; apply Hhs; eauto.
      * intros Heq. split; [exact Hne|]. intros a b Ha Hb.
        apply Hhs in Ha, Hb. destruct Ha as (n1 & b1 & H1), Hb as (n2 & b2 & H2).
        eapply Heq; eauto.
    + split.
      * destruct (remove_dups hs) as [|x l] eqn:E; [|simpl; lia].
        destruct hs as [|a l]; [congruence|].
        assert (Ha : a ∈ remove_dups (a :: l)) by (apply elem_of_remove_dups; left).
        rewrite E in Ha. inversion Ha.
      * replace (length hc) with (length hs) by (subst hs; apply length_map).
        apply remove_dups_length_le.
Qed.

End HashComparison.

(** ** Comprehensive verifier: alerts raised from a report *)

Section ComprehensiveAlerts.

Import Comprehensive.
Import ComprehensiveMore.

Lemma node_alerts_node th k e a :
  In a (node_alerts th k e) -> node a = Some k.
Proof.
  unfold node_alerts. rewrite !in_app_iff.
  intros H.
  repeat match goal with
         | H : _ \/ _ |- _ => destruct H as [H | H]
         | H : In _ (if ?c then _ else _) |- _ => destruct c
         | H : In _ [_] |- _ => destruct H as [<- | []]
         | H : In _ [] |- _ => destruct H
         end; reflexivity.
Qed.

Lemma all_node_alerts_node th (entries : list (string * NodeEntry)) a :
  In a (concat (map (fun '(node_, e) => node_alerts th node_ e) entries)) ->
  exists k e, In (k, e) entries /\ In a (node_alerts th k e) /\ node a = Some k.
Proof.
  rewrite in_concat. intros (l & Hl & Ha). apply in_map_iff in Hl.
  destruct Hl as ([k e] & <- & Hin). exists k, e. split; [exact Hin|].
  split; [exact Ha|]. now apply node_alerts_node in Ha.
Qed.

Lemma resolve_thresholds_none cfg threshold :
  resolve_thresholds cfg threshold = None <->
  exists name, threshold = Tier name /\ cfg !! "moderate" = None.
Proof.
  destruct threshold as [name|th]; simpl.
  - destruct (cfg !! "moderate") as [m|] eqn:E; simpl.
    + split; [discriminate|]. intros (n & _ & H). discriminate.
    + split; [|reflexivity]. intros _. now exists name.
  - split; [discriminate|]. intros (n & H & _). discriminate.
Qed.

Lemma check_alerts_some cfg res threshold alerts :
  check_alerts cfg res threshold = Some alerts ->
  exists th, resolve_thresholds cfg threshold = Some th /\ alerts = alerts_of res th.
Proof.
  unfold check_alerts.
  destruct (resolve_thresholds cfg threshold) as [th|]; simpl; [|discriminate].
  intros [= <-]. now exists th.
Qed.

Lemma default_config_has_no_moderate : default_alert_thresholds !! "moderate" = None.
Proof. reflexivity. Qed.

(** X28. [check_alerts] raises [KeyError] exactly when it is given a
    tier name and the configured thresholds have no key [moderate], as
    in the default configuration, where it raises for every tier name
    and every report.  When it returns, a block-divergence alert needs
    a divergence above both the tolerance and 20: it is CRITICAL
    exactly when the divergence exceeds the tolerance and 50, a WARNING
    exactly when it exceeds the tolerance and 20 but not 50; an
    analyzer error gives the single CRITICAL verification-error
    alert. *)
Theorem divergence_alert_severity cfg net tol ref sts threshold :
  let res := verify_cross_node_consistency net tol ref sts in
  (check_alerts cfg res threshold = None <->
   exists name, threshold = Tier name /\ cfg !! "moderate" = None) /\
  (forall name, check_alerts default_alert_thresholds res (Tier name) = None) /\
  (forall alerts, check_alerts cfg res threshold = Some alerts ->
     (forall text, res = Error text ->
        alerts = [mkAlert CRITICAL None (VerificationError text)]) /\
     (forall r, res = Ok r ->
        let d := block_difference (summary r) in
        (forall x, In (mkAlert CRITICAL None (CriticalBlockDivergence x)) alerts <->
                   x = d /\ tol < d /\ 50 < d) /\
        (forall x, In (mkAlert WARNING None (SignificantBlockDivergence x)) alerts <->
                   x = d /\ tol < d /\ 20 < d <= 50) /\
        (forall a x, In a alerts ->
           message a = CriticalBlockDivergence x \/
           message a = SignificantBlockDivergence x ->
           x = d /\ tol < d /\ 20 < d))).
Proof.
  intros res. split; [|split].
  - unfold check_alerts. rewrite <- resolve_thresholds_none.
    destruct (resolve_thresholds cfg threshold); simpl; split; congruence.
  - intros name. unfold check_alerts. cbn [resolve_thresholds].
    rewrite default_config_has_no_moderate. reflexivity.
  - intros alerts Ha. apply check_alerts_some in Ha. destruct Ha as (th & _ & ->).
    split; [intros text ->; reflexivity|].
    intros r Hr d. subst res.
    destruct (comprehensive_ok_inv _ _ _ _ _ Hr) as (_ & _ & _ & _ & Hc & _).
    fold d in Hc. unfold alerts_of. rewrite Hr. fold d. rewrite Hc.
    set (B := match reference r with Some _ => _ | None => _ end).
    set (C := match reorg_check r with Some _ => _ | None => _ end).
    set (D := concat _).
    assert (HB : forall a, In a B -> forall x,
               message a <> CriticalBlockDivergence x /\
               message a <> SignificantBlockDivergence x).
    { subst B. intros a Ha x. destruct (reference r) as [rf|]; [|destruct Ha].
      destruct (negb _); [|destruct Ha].
      destruct (50 <? _); [destruct Ha as [<- | []]; split; discriminate|].
      destruct (20 <? _); [destruct Ha as [<- | []]; split; discriminate | destruct Ha]. }
    assert (HC : forall a, In a C -> forall x,
               message a <> CriticalBlockDivergence x /\
               message a <> SignificantBlockDivergence x).
    { subst C. intros a Ha x. destruct (reorg_check r) as [[|[|] u hs]|];
        try destruct Ha as [<- | []]; try destruct Ha; split; discriminate. }
    assert (HD : forall a, In a D -> forall x,
               message a <> CriticalBlockDivergence x /\
               message a <> SignificantBlockDivergence x).
    { subst D. intros a Ha x. apply all_node_alerts_node in Ha.
      destruct Ha as (k & e & _ & Ha & _). unfold node_alerts in Ha.
      rewrite !in_app_iff in Ha.
      repeat match goal with
             | H : _ \/ _ |- _ => destruct H as [H | H]
             | H : In _ (if ?c then _ else _) |- _ => destruct c
             | H : In _ [_] |- _ => destruct H as [<- | []]
             | H : In _ [] |- _ => destruct H
             end; split; discriminate. }
    assert (Hrest : forall a x,
               message a = CriticalBlockDivergence x \/
               message a = SignificantBlockDivergence x ->
               ~ In a (B ++ C ++ D)).
    { intros a x Hm Hin. rewrite !in_app_iff in Hin.
      destruct Hin as [H | [H | H]];
        [destruct (HB a H x) | destruct (HC a H x) | destruct (HD a H x)];
        destruct Hm; congruence. }
    assert (Hiff : forall A a x,
               message a = CriticalBlockDivergence x \/
               message a = SignificantBlockDivergence x ->
               (In a (A ++ B ++ C ++ D) <-> In a A)).
    { intros A a x Hm. rewrite in_app_iff. split; [|now left].
      intros [H | H]; [exact H | exfalso; exact (Hrest a x Hm H)]. }
    clearbody B C D d. clear HB HC HD Hrest Hc Hr.
    destruct (d <=? tol) eqn:Et; [apply Z.leb_le in Et | apply Z.leb_gt in Et];
      cbn [negb];
      (destruct (50 <? d) eqn:E50; [apply Z.ltb_lt in E50 | apply Z.ltb_ge in E50]);
      (destruct (20 <? d) eqn:E20; [apply Z.ltb_lt in E20 | apply Z.ltb_ge in E20]);
      try lia;
      (split; [|split;
        [ intros x; rewrite (Hiff _ _ x) by (cbn [message]; auto);
          split;
          [ intros Hin; repeat (destruct Hin as [Hin | Hin]);
            try contradiction; try discriminate;
            injection Hin as <-; repeat split; lia
          | intros (-> & H1 & H2); try lia; left; reflexivity ]
        | intros a x Hin Hm; rewrite (Hiff _ _ x Hm) in Hin;
          repeat (destruct Hin as [Hin | Hin]); try contradiction;
          subst a; cbn [message] in Hm; destruct Hm as [Hm | Hm]; try discriminate;
          injection Hm as <-; repeat split; lia ]]);
      (intros x; rewrite (Hiff _ _ x) by (cbn [message]; auto);
       split;
       [ intros Hin; repeat (destruct Hin as [Hin | Hin]);
         try contradiction; try discriminate;
         injection Hin as <-; repeat split; lia
       | intros (-> & H1 & H2); try lia; left; reflexivity ]).
Qed.

(** X29. A node whose service is not active is returned by the
    collector with health score 0 and block 0.  Whenever [check_alerts]
    returns for an analysis that includes the node, the alerts hold a
    CRITICAL one: the critical-health alert for that node when the
    analyzer produced a report, the verification error otherwise.
    Called with a tier name under thresholds that have no key
    [moderate], as in the default configuration, it raises instead and
    no alert is produced. *)
Theorem inactive_node_raises_critical type_ net n tol ref others cfg threshold :
  Collector.service_state n <> "active" ->
  let st := Collector.get_node_sync_status type_ net n in
  let res := verify_cross_node_consistency net tol ref ((type_, st) :: others) in
  health_score st = 0 /\ current_block st = 0 /\
  (forall alerts, check_alerts cfg res threshold = Some alerts ->
     match res with
     | Ok r => In (mkAlert CRITICAL (Some type_) (CriticalHealthScore 0)) alerts
     | Error text => alerts = [mkAlert CRITICAL None (VerificationError text)]
     end) /\
  (forall th, exists alerts, check_alerts cfg res (Table th) = Some alerts) /\
  (forall name, cfg !! "moderate" = None -> check_alerts cfg res (Tier name) = None) /\
  (forall name, check_alerts default_alert_thresholds res (Tier name) = None).
Proof.
  intros Hact st res.
  assert (Hst : health_score st = 0 /\ current_block st = 0).
  { subst st. unfold Collector.get_node_sync_status.
    apply String.eqb_neq in Hact. rewrite Hact. split; reflexivity. }
  destruct Hst as [Hh Hb]. split; [exact Hh|]. split; [exact Hb|].
  split; [|split; [|split]].
  - intros alerts Ha. apply check_alerts_some in Ha. destruct Ha as (th & _ & ->).
    destruct res as [text|r] eqn:E; [reflexivity|].
    destruct (comprehensive_ok_inv _ _ _ _ _ E) as (_ & _ & _ & _ & _ & Hnodes).
    unfold alerts_of. rewrite !in_app_iff. right. right. right.
    rewrite Hnodes. simpl. apply in_app_iff. left.
    unfold node_alerts. simpl. rewrite Hh. simpl. left. reflexivity.
  - intros th. eexists. reflexivity.
  - intros name Hnone. unfold check_alerts. cbn [resolve_thresholds].
    rewrite Hnone. reflexivity.
  - intros name. unfold check_alerts. cbn [resolve_thresholds].
    rewrite default_config_has_no_moderate. reflexivity.
Qed.

End ComprehensiveAlerts.

Lemma inactive_node_raises_critical_witness :
  Comprehensive.health_score
    (Collector.get_node_sync_status "geth" "mainnet"
       {| Collector.session_open := true;
          Collector.service_state := "inactive";
          Collector.rpc_endpoint := Some "http://127.0.0.1:8545";
          Collector.eth_syncing := Rpc.Failed;
          Collector.eth_blockNumber := Rpc.Failed;
          Collector.net_peerCount := Rpc.Failed;
          Collector.eth_chainId := Rpc.Failed;
          Collector.latest_block := Rpc.Failed |}) = 0.
Proof.
  refine (proj1 (inactive_node_raises_critical "geth" "mainnet" _ 5 0 []
                   ComprehensiveMore.default_alert_thresholds
                   (ComprehensiveMore.Tier "moderate") _)).
  discriminate.
Defined.

(** ** Basic verifier: the overall health score *)

Section BasicHealth.

Import Basic.
Import BasicMore.

Lemma Qsum_upper (xs : list Q) (b : Q) :
  (forall x, In x xs -> x <= b)%Q ->
  (IntegrityReport.Qsum xs <= b * IntegrityReport.of_nat (length xs))%Q.
Proof.
  induction xs as [|x xs IH]; intros H.
  - change (IntegrityReport.of_nat (length [])) with 0%Q.
    change (IntegrityReport.Qsum []) with 0%Q. lra.
  - rewrite Qsum_cons. cbn [length]. rewrite of_nat_S.
    pose proof (H x (or_introl eq_refl)).
    assert (IntegrityReport.Qsum xs <= b * IntegrityReport.of_nat (length xs))%Q
      by (apply IH; intros y Hy; apply H; now right).
    lra.
Qed.

(** A sum that reaches its upper bound has every term at the bound. *)
Lemma Qsum_reaches_upper (xs : list Q) (b : Q) :
  (forall x, In x xs -> x <= b)%Q ->
  (IntegrityReport.Qsum xs == b * IntegrityReport.of_nat (length xs))%Q ->
  forall x, In x xs -> (x == b)%Q.
Proof.
  induction xs as [|y xs IH]; intros H Hs x Hx; [destruct Hx|].
  rewrite Qsum_cons in Hs. cbn [length] in Hs. rewrite of_nat_S in Hs.
  pose proof (H y (or_introl eq_refl)) as Hy.
  assert (Hxs : forall z, In z xs -> (z <= b)%Q) by (intros z Hz; apply H; now right).
  pose proof (Qsum_upper xs b Hxs) as Hu.
  destruct Hx as [<- | Hx]; [lra|].
  apply IH; [exact Hxs | lra | exact Hx].
Qed.

Lemma Qsum_all_equal (xs : list Q) (b : Q) :
  (forall x, In x xs -> x == b)%Q ->
  (IntegrityReport.Qsum xs == b * IntegrityReport.of_nat (length xs))%Q.
Proof.
  induction xs as [|y xs IH]; intros H.
  - change (IntegrityReport.of_nat (length [])) with 0%Q.
    change (IntegrityReport.Qsum []) with 0%Q. lra.
  - rewrite Qsum_cons. cbn [length]. rewrite of_nat_S.
    pose proof (H y (or_introl eq_refl)).
    assert (IntegrityReport.Qsum xs == b * IntegrityReport.of_nat (length xs))%Q
      by (apply IH; intros z Hz; apply H; now right).
    lra.
Qed.

Lemma node_score_le_100 (n : NodeInfo) : (node_score n <= 100)%Q.
Proof.
  unfold node_score.
  destruct (String.eqb (status n) "running"), (rpc_responsive n),
    (sync_progress n) as [p|];
    try pose proof (Qmin2_le_l 30 (p / 100 * 30)); lra.
Qed.

Lemma node_score_nonneg (n : NodeInfo) :
  (forall p, sync_progress n = Some p -> 0 <= p)%Q -> (0 <= node_score n)%Q.
Proof.
  intros H. unfold node_score.
  destruct (sync_progress n) as [p|].
  - assert (0 <= Py.Qmin2 30 (p / 100 * 30))%Q.
    { apply Qmin2_ge; [lra|]. pose proof (H p eq_refl).
      assert (p / 100 * 30 == p * (3 # 10))%Q by (field). lra. }
    destruct (String.eqb (status n) "running"), (rpc_responsive n); lra.
  - destruct (String.eqb (status n) "running"), (rpc_responsive n); lra.
Qed.

Lemma node_score_full (n : NodeInfo) :
  (node_score n == 100)%Q <->
  status n = "running" /\ rpc_responsive n = true /\
  exists p, sync_progress n = Some p /\ (100 <= p)%Q.
Proof.
  unfold node_score. split.
  - intros H.
    destruct (String.eqb (status n) "running") eqn:Es;
      destruct (rpc_responsive n);
      destruct (sync_progress n) as [p|];
      try pose proof (Qmin2_le_l 30 (p / 100 * 30)); try lra.
    apply String.eqb_eq in Es. split; [exact Es|]. split; [reflexivity|].
    exists p. split; [reflexivity|].
    revert H. unfold Py.Qmin2.
    assert (p / 100 * 30 == p * (3 # 10))%Q by field.
    destruct (Qlt_le_dec (p / 100 * 30) 30); intros; lra.
  - intros (Hs & Hr & p & Hp & Hle). rewrite Hs, Hr, Hp.
    rewrite String.eqb_refl. unfold Py.Qmin2.
    assert (p / 100 * 30 == p * (3 # 10))%Q by field.
    destruct (Qlt_le_dec (p / 100 * 30) 30); lra.
Qed.

(** X30. The overall health score of the basic verifier never exceeds
    100, although the sync progress it reads is not capped, and it is
    not negative when no node has a negative progress.  Over a
    non-empty node table it is 100 when every node is running, answers
    RPC and has a sync progress of at least 100, and it is 100 only if
    every node is running, answers RPC and has a sync progress. *)
Theorem basic_health_score_range (nodes : list (string * NodeInfo)) :
  (_calculate_health_score nodes <= 100)%Q /\
  ((forall k n p, In (k, n) nodes -> sync_progress n = Some p -> (0 <= p)%Q) ->
   (0 <= _calculate_health_score nodes)%Q) /\
  (nodes <> [] ->
   (forall k n, In (k, n) nodes ->
      status n = "running" /\ rpc_responsive n = true /\
      exists p, sync_progress n = Some p /\ (100 <= p)%Q) ->
   (_calculate_health_score nodes == 100)%Q) /\
  ((_calculate_health_score nodes == 100)%Q ->
   nodes <> [] /\
   forall k n, In (k, n) nodes ->
     status n = "running" /\ rpc_responsive n = true /\ sync_progress n <> None).
Proof.
  destruct nodes as [|e nodes].
  - cbn. split; [lra|]. split; [intros; lra|]. split; [congruence|].
    intros H. exfalso. revert H. unfold Qeq. simpl. lia.
  - set (all := e :: nodes). unfold _calculate_health_score.
    change (match all with [] => 0%Q | _ => ?v end) with v. cbv zeta.
    set (hs := map (fun e => node_score (snd e)) all).
    assert (Hne : hs <> []) by (subst hs all; discriminate).
    assert (Hpos : (0 < IntegrityReport.of_nat (length hs))%Q).
    { subst hs all. cbn [map length]. rewrite of_nat_S.
      pose proof (of_nat_nonneg (length (map (fun e => node_score (snd e)) nodes))).
      lra. }
    assert (Hup : forall x, In x hs -> (x <= 100)%Q).
    { intros x Hx. subst hs. apply in_map_iff in Hx. destruct Hx as (y & <- & _).
      apply node_score_le_100. }
    split; [|split; [|split]].
    + apply Qle_shift_div_r; [exact Hpos|]. apply Qsum_upper, Hup.
    + intros H.
      apply (mean_bounds hs 0 100 Hne). intros x Hx. split; [|apply Hup, Hx].
      subst hs. apply in_map_iff in Hx. destruct Hx as ([k n] & <- & Hin).
      apply node_score_nonneg. intros p Hp. exact (H k n p Hin Hp).
    + intros _ H.
      assert (Hs : (IntegrityReport.Qsum hs
                    == 100 * IntegrityReport.of_nat (length hs))%Q).
      { apply Qsum_all_equal. intros x Hx. subst hs. apply in_map_iff in Hx.
        destruct Hx as ([k n] & <- & Hin). apply node_score_full. exact (H k n Hin). }
      rewrite Hs. field. lra.
    + intros Heq. split; [subst all; discriminate|]. intros k n Hin.
      assert (Hfull : (node_score n == 100)%Q).
      { apply (Qsum_reaches_upper hs 100 Hup).
        - assert (Hnz : ~ (IntegrityReport.of_nat (length hs) == 0)%Q) by lra.
          rewrite <- Heq. field. exact Hnz.
        - subst hs. apply in_map_iff. exists (k, n). split; [reflexivity | exact Hin]. }
      apply node_score_full in Hfull. destruct Hfull as (Hs & Hr & p & Hp & _).
      split; [exact Hs|]. split; [exact Hr|]. rewrite Hp. discriminate.
Qed.

End BasicHealth.
